(** * movie-recommender: collaborative filtering, its evaluation harness,
    the rating table and the web routes

    A shallow embedding of [recommendation_engine/collaborative.py],
    [recommendation_engine/evaluation.py], [get_user_item_matrix] of
    [recommendation_engine/data_loader.py] and the two routes of [app.py].

    Numbers.  The program computes on binary64 floats; here a rating, a
    similarity and a prediction is a real number ([R]), so a statement on
    their values is about exact arithmetic and says nothing on rounding.
    Rounding is kept in the one place where it changes a count, the
    product [int] truncates in [train_test_split]: it goes through [fl].
    The one float value the code tests for is NaN, which pandas writes
    into the cells a boolean mask drops: such a cell is an [option R],
    [None] being NaN.

    Tables.  A pandas [DataFrame] is a row label list, a column label list
    and the rows of cells; a [Series] is the list of its (label, value)
    pairs, in order.

    Libraries.  What NumPy leaves open is a parameter: the arrangement its
    sort gives to equal values ([Argsort]), the draws of its generator
    ([RandomState]) and the rounding of a product ([Binary64]), each with
    the laws that are known of it.

    Failure.  A Python exception is a value of [exn], and a function that
    can raise returns a [result]. *)

From Stdlib Require Import String.
From Stdlib Require Import Reals Lra Lia ZArith List Bool.
From Stdlib Require Import Permutation Sorted.
Import ListNotations.
Open Scope R_scope.

(** ** Exceptions *)

Inductive exn : Type :=
| KeyError
| ValueError.

Inductive result (A : Type) : Type :=
| Ok (a : A)
| Raise (e : exn).

Arguments Ok {A} a.
Arguments Raise {A} e.

Definition bind {A B : Type} (r : result A) (k : A -> result B) : result B :=
  match r with
  | Ok a => k a
  | Raise e => Raise e
  end.

Notation "x <- r ;; k" := (bind r (fun x => k))
  (at level 61, r at next level, right associativity).

(** ** Labelled data *)

Definition Series : Type := list (Z * R).

Record DataFrame : Type := mkDF {
  index : list Z;
  columns : list Z;
  values : list (list R)
}.

(** The constant the code adds to a denominator: [1e-8]. *)
Definition eps : R := 1e-8.

(** [sum()] of a list of numbers. *)
Definition Rsum (l : list R) : R := fold_right Rplus 0 l.

(** The inner product of two vectors of one length. *)
Definition dot (a b : list R) : R :=
  Rsum (map (fun p => fst p * snd p) (combine a b)).

(** The value stored under the first occurrence of label [k]. *)
Fixpoint lookup {A : Type} (k : Z) (ks : list Z) (vs : list A) : option A :=
  match ks, vs with
  | k' :: ks', v :: vs' => if Z.eq_dec k k' then Some v else lookup k ks' vs'
  | _, _ => None
  end.

(** The position of the first occurrence of label [k]. *)
Fixpoint get_loc (k : Z) (ks : list Z) : option nat :=
  match ks with
  | [] => None
  | k' :: ks' =>
      if Z.eq_dec k k' then Some O
      else match get_loc k ks' with
           | Some n => Some (S n)
           | None => None
           end
  end.

(** Column [j] of a list of rows. *)
Definition col (j : nat) (rows : list (list R)) : list R :=
  map (fun row => nth j row 0) rows.

(** [.T] on the cells of a table of [n] columns. *)
Definition transpose (n : nat) (rows : list (list R)) : list (list R) :=
  map (fun j => col j rows) (seq 0 n).

(** ** Operations of the libraries the source calls

    pandas, NumPy and scikit-learn are not part of the repository; each
    operation below follows the library's documented behaviour on the
    inputs the source gives it.  Inside the two classes label alignment is
    positional: wherever the source combines two labelled values of its
    own, both carry the same labels in the same order.  The predictions
    handed to [compute_rmse] come from outside, and there the alignment is
    by label. *)

(** [df.loc[label]]: the row under a label, [KeyError] when absent. *)
Definition loc (df : DataFrame) (u : Z) : result Series :=
  match lookup u (index df) (values df) with
  | Some row => Ok (combine (columns df) row)
  | None => Raise KeyError
  end.

(** [df[label]]: the column under a label, [KeyError] when absent. *)
Definition getitem (df : DataFrame) (c : Z) : result Series :=
  match get_loc c (columns df) with
  | Some j => Ok (combine (index df) (col j (values df)))
  | None => Raise KeyError
  end.

(** [s.drop(label)]: the series without the entries under a label. *)
Definition drop (s : Series) (l : Z) : result Series :=
  if existsb (fun p => Z.eqb (fst p) l) s
  then Ok (filter (fun p => negb (Z.eqb (fst p) l)) s)
  else Raise KeyError.

(** The entry of a series under a label, 0 when the label is absent. *)
Definition get0 (s : Series) (l : Z) : R :=
  match lookup l (map fst s) (map snd s) with
  | Some v => v
  | None => 0
  end.

(** [s.reindex(labels).fillna(0)]: a label the series lacks gets NaN, which
    [fillna] turns into 0. *)
Definition reindex_fillna0 (s : Series) (labels : list Z) : Series :=
  map (fun l => (l, get0 s l)) labels.

(** [df.T.dot(s)]: one entry per column of [df], the inner product of the
    column with the series. *)
Definition T_dot (df : DataFrame) (s : Series) : Series :=
  combine (columns df)
    (map (fun c => dot c (map snd s))
       (transpose (length (columns df)) (values df))).

(** [df.dot(s)]: one entry per row of [df]. *)
Definition df_dot (df : DataFrame) (s : Series) : Series :=
  combine (index df) (map (fun row => dot row (map snd s)) (values df)).

(** [s[ratings == 0]]: boolean indexing, keeping the entries of [s] at the
    positions where [ratings] is zero. *)
Definition mask_eq0 (s ratings : Series) : Series :=
  map fst
    (filter (fun p => if Req_dec_T (snd (snd p)) 0 then true else false)
       (combine s ratings)).

(** NumPy's default sort kind (an introsort) puts the values in ascending
    order and promises nothing on the order of equal values.  Which
    arrangement comes out is the library's business: the sort is a
    parameter, and [ArgsortOk] is all that is known of it. *)
Class Argsort : Type := {
  argsort : Series -> Series
}.

Class ArgsortOk (QS : Argsort) : Prop := {
  argsort_perm : forall s : Series, Permutation (argsort s) s;
  argsort_sorted :
    forall s : Series, StronglySorted (fun p q => snd p <= snd q) (argsort s)
}.

(** One such sort, the sort by insertion NumPy runs on a short array: it
    keeps equal values in the order they came in. *)
Fixpoint insert_asc (x : Z * R) (l : Series) : Series :=
  match l with
  | [] => [x]
  | y :: l' =>
      if Rle_dec (snd x) (snd y) then x :: y :: l' else y :: insert_asc x l'
  end.

Definition argsort_asc (s : Series) : Series := fold_right insert_asc [] s.

Definition insertion_sort : Argsort := {| argsort := argsort_asc |}.

(** [s.sort_values(ascending=False)]: pandas reverses the values, sorts
    them ascending, and reverses the outcome.  No key but the value takes
    part. *)
Definition sort_values_desc {QS : Argsort} (s : Series) : Series :=
  rev (argsort (rev s)).

(** [s.head(n)], the slice [s.iloc[:n]]: the first [n] entries, and for a
    negative [n] all but the last [-n]. *)
Definition head {A : Type} (n : Z) (l : list A) : list A :=
  if (0 <=? n)%Z then firstn (Z.to_nat n) l
  else firstn (length l - Z.to_nat (- n)) l.

(** scikit-learn's array validation: an array with no row or no column is
    refused. *)
Definition check_array {A : Type} (X : list (list A)) : result (list (list A)) :=
  match X with
  | [] => Raise ValueError
  | [] :: _ => Raise ValueError
  | _ => Ok X
  end.

(** [sklearn.preprocessing.normalize]: each row divided by its Euclidean
    norm, a zero norm replaced by 1. *)
Definition row_norm (r : list R) : R := sqrt (dot r r).

Definition handle_zeros_in_scale (n : R) : R :=
  if Req_dec_T n 0 then 1 else n.

Definition normalize_row (r : list R) : list R :=
  map (fun x => x / handle_zeros_in_scale (row_norm r)) r.

Definition normalize (X : list (list R)) : list (list R) :=
  map normalize_row X.

(** [sklearn.metrics.pairwise.cosine_similarity(X)]: the validated rows are
    normalized and multiplied with their own transpose. *)
Definition cosine_similarity (X : list (list R)) : result (list (list R)) :=
  X' <- check_array X ;;
  let Xn := normalize X' in
  Ok (map (fun a => map (fun b => dot a b) Xn) Xn).

(** The matrix product of [A] with a matrix [B] of [m] columns. *)
Definition matmul (A : list (list R)) (m : nat) (B : list (list R))
  : list (list R) :=
  map (fun a => map (fun j => dot a (col j B)) (seq 0 m)) A.

(** [np.fill_diagonal(a, 0)]. *)
Definition fill_diagonal0 (a : list (list R)) : list (list R) :=
  map (fun ir =>
         map (fun jx => if Nat.eq_dec (fst ir) (fst jx) then 0 else snd jx)
           (combine (seq 0 (length (snd ir))) (snd ir)))
    (combine (seq 0 (length a)) a).

(** [w.where(t == 0, 0.0)]: a cell of [w] stays where the cell of [t] is
    zero and becomes 0 elsewhere. *)
Definition where_eq0 (w t : list (list R)) : list (list R) :=
  map (fun wt =>
         map (fun p => if Req_dec_T (snd p) 0 then fst p else 0)
           (combine (fst wt) (snd wt)))
    (combine w t).

(** Python's [int] on a float: truncation toward zero. *)
Definition py_int (x : R) : Z :=
  if Rle_dec 0 x then Int_part x else (- Int_part (- x))%Z.

(** Rounding.  [fl x] is the binary64 number a float operation returns
    when its exact result is [x].  It is used where rounding can change a
    count, the product that [int] truncates on line 41 of evaluation.py;
    [Binary64Ok] holds what is known of it: rounding keeps the order, and
    an integer of at most 53 bits is a float. *)
Class Binary64 : Type := {
  fl : R -> R
}.

Class Binary64Ok (B64 : Binary64) : Prop := {
  fl_monotone : forall x y : R, x <= y -> fl x <= fl y;
  fl_integer : forall k : Z, (Z.abs k <= 2 ^ 53)%Z -> fl (IZR k) = IZR k
}.

(** Arithmetic without rounding. *)
Definition exact_arithmetic : Binary64 := {| fl := fun x => x |}.

(** NumPy's global random generator: a seed gives a state, and a draw of
    [permutation n] returns an arrangement of [0 .. n-1] with the next
    state.  Which arrangement is the generator's business. *)
Class RandomState : Type := {
  state : Type;
  seed : Z -> state;
  permutation : state -> nat -> list nat * state
}.

Class RandomStateOk (RS : RandomState) : Prop :=
  permutation_ok :
    forall (g : state) (n : nat), Permutation (fst (permutation g n)) (seq 0 n).

(** [np.random.seed(s)]: a seed outside [0 .. 2^32 - 1] is refused. *)
Definition random_seed {RS : RandomState} (s : Z) : result state :=
  if (0 <=? s)%Z && (s <=? 4294967295)%Z then Ok (seed s)
  else Raise ValueError.

(** [np.random.choice(a, size=size, replace=False)]: refuses an empty
    population and a sample larger than the population, and otherwise
    takes the first [size] positions of a random arrangement. *)
Definition choice {RS : RandomState} (g : state) (a : list Z) (size : nat)
  : result (list Z * state) :=
  if (length a =? 0)%nat && negb (size =? 0)%nat then Raise ValueError
  else if (length a <? size)%nat then Raise ValueError
  else
    let pg := permutation g (length a) in
    Ok (map (fun i => nth i a 0%Z) (firstn size (fst pg)), snd pg).

(** [df.loc[u, items] = v]: in the rows labelled [u], the cells under the
    labels of [items] are overwritten, the cell of column [c] with [v c]. *)
Definition set_cells (df : DataFrame) (u : Z) (items : list Z) (v : Z -> R)
  : DataFrame :=
  mkDF (index df) (columns df)
    (map (fun lr =>
            if Z.eq_dec (fst lr) u
            then map (fun cx => if in_dec Z.eq_dec (fst cx) items
                                then v (fst cx) else snd cx)
                   (combine (columns df) (snd lr))
            else snd lr)
       (combine (index df) (values df))).

(** The cells [x] keeps under a mask of positive cells, position by
    position: NaN in every cell where [t] is not positive. *)
Definition mask_gt0 (x t : list (list R)) : list (list (option R)) :=
  map (fun xt =>
         map (fun p => if Rlt_dec 0 (snd p) then Some (fst p) else None)
           (combine (fst xt) (snd xt)))
    (combine x t).

(** [x[t > 0]] with tables for [x] and [t], which is [x.where(t > 0)].
    pandas first aligns the mask on the labels of [x], one axis after the
    other: an axis on which both carry the same labels is left as it is,
    and on another the mask is reindexed by the labels of [x], a label
    that [t] lacks giving a row or a column that is nowhere true.  The
    result has the shape of [x], with NaN in every cell the aligned mask
    does not hold.  ([t] has distinct labels on an axis that is
    reindexed.) *)
Definition align_rows (x t : DataFrame) : list (option (list R)) :=
  if list_eq_dec Z.eq_dec (index x) (index t) then map Some (values t)
  else map (fun u => lookup u (index t) (values t)) (index x).

Definition align_columns (x t : DataFrame) (row : list R) : list (option R) :=
  if list_eq_dec Z.eq_dec (columns x) (columns t) then map Some row
  else map (fun i => lookup i (columns t) row) (columns x).

Definition align (x t : DataFrame) : list (list (option R)) :=
  map (fun r => match r with
                | Some row => align_columns x t row
                | None => map (fun _ => None) (columns x)
                end)
    (align_rows x t).

Definition where_gt0 (x t : DataFrame) : list (list (option R)) :=
  map (fun xt =>
         map (fun p => match snd p with
                       | Some v => if Rlt_dec 0 v then Some (fst p) else None
                       | None => None
                       end)
           (combine (fst xt) (snd xt)))
    (combine (values x) (align x t)).

(** scikit-learn's check that an array holds no NaN. *)
Definition assert_all_finite (X : list (list (option R)))
  : result (list (list R)) :=
  if forallb (forallb (fun c => match c with Some _ => true | None => false end)) X
  then Ok (map (map (fun c => match c with Some v => v | None => 0 end)) X)
  else Raise ValueError.

Definition mean (l : list R) : R := Rsum l / INR (length l).

(** [sklearn.metrics.mean_squared_error] on two tables: both validated
    (same shape, no NaN, at least one row and one column), then the mean
    over the columns of each column's mean squared difference. *)
Definition mean_squared_error (y_true y_pred : list (list (option R)))
  : result R :=
  if negb (length y_true =? length y_pred)%nat then Raise ValueError else
  t0 <- check_array y_true ;;
  t <- assert_all_finite t0 ;;
  p0 <- check_array y_pred ;;
  p <- assert_all_finite p0 ;;
  let n := length (hd [] t) in
  if negb (n =? length (hd [] p))%nat then Raise ValueError else
  let sq := map (fun tp =>
                   map (fun c => (fst c - snd c) * (fst c - snd c))
                     (combine (fst tp) (snd tp)))
              (combine t p) in
  Ok (mean (map (fun j => mean (col j sq)) (seq 0 n))).

(** ** collaborative.py *)

Module collaborative.

(** The object's fields; a similarity not yet computed is [None]. *)
Record CollaborativeFiltering : Type := mkCF {
  user_item_matrix : DataFrame;
  user_similarity : option DataFrame;
  item_similarity : option DataFrame
}.

Definition init (m : DataFrame) : CollaborativeFiltering :=
  mkCF m None None.

(** [compute_user_similarity]: the cosine similarity of the rows, labelled
    by the users on both axes, stored in the object and returned. *)
Definition compute_user_similarity (cf : CollaborativeFiltering)
  : result (DataFrame * CollaborativeFiltering) :=
  let m := user_item_matrix cf in
  K <- cosine_similarity (values m) ;;
  let sim := mkDF (index m) (index m) K in
  Ok (sim, mkCF m (Some sim) (item_similarity cf)).

(** [compute_item_similarity]: the same on the transposed table. *)
Definition compute_item_similarity (cf : CollaborativeFiltering)
  : result (DataFrame * CollaborativeFiltering) :=
  let m := user_item_matrix cf in
  K <- cosine_similarity (transpose (length (columns m)) (values m)) ;;
  let sim := mkDF (columns m) (columns m) K in
  Ok (sim, mkCF m (user_similarity cf) (Some sim)).

(** Lines 60-61 and 97-98: compute a similarity only when it is missing. *)
Definition ensure_user_similarity (cf : CollaborativeFiltering)
  : result (DataFrame * CollaborativeFiltering) :=
  match user_similarity cf with
  | Some sim => Ok (sim, cf)
  | None => compute_user_similarity cf
  end.

Definition ensure_item_similarity (cf : CollaborativeFiltering)
  : result (DataFrame * CollaborativeFiltering) :=
  match item_similarity cf with
  | Some sim => Ok (sim, cf)
  | None => compute_item_similarity cf
  end.

(** [recommend_user_based], lines 60-80: the predicted ratings of the
    items the user has not rated, in column order. *)
Definition predicted_user_based (cf : CollaborativeFiltering) (user_id : Z)
  : result (Series * CollaborativeFiltering) :=
  Scf <- ensure_user_similarity cf ;;
  let m := user_item_matrix cf in
  user_ratings <- loc m user_id ;;
  similar_users <- getitem (fst Scf) user_id ;;
  similar_users <- drop similar_users user_id ;;
  let similar_users_aligned := reindex_fillna0 similar_users (index m) in
  let weighted_ratings := T_dot m similar_users_aligned in
  let similarity_sums := Rsum (map snd similar_users_aligned) in
  let predicted_ratings :=
    map (fun p => (fst p, snd p / (similarity_sums + eps))) weighted_ratings in
  Ok (mask_eq0 predicted_ratings user_ratings, snd Scf).

(** [recommend_user_based], lines 83-84. *)
Definition recommend_user_based {QS : Argsort} (cf : CollaborativeFiltering)
    (user_id : Z) (top_n : Z)
  : result (list (Z * R) * CollaborativeFiltering) :=
  pc <- predicted_user_based cf user_id ;;
  Ok (head top_n (sort_values_desc (fst pc)), snd pc).

(** [recommend_item_based], lines 97-109. *)
Definition predicted_item_based (cf : CollaborativeFiltering) (user_id : Z)
  : result (Series * CollaborativeFiltering) :=
  Scf <- ensure_item_similarity cf ;;
  let m := user_item_matrix cf in
  user_ratings <- loc m user_id ;;
  let user_ratings_aligned := reindex_fillna0 user_ratings (columns m) in
  let num := df_dot (fst Scf) user_ratings_aligned in
  let den := map (fun row => Rsum (map Rabs row) + eps) (values (fst Scf)) in
  let pred_ratings :=
    map (fun p => (fst (fst p), snd (fst p) / snd p)) (combine num den) in
  Ok (mask_eq0 pred_ratings user_ratings, snd Scf).

(** [recommend_item_based], lines 112-113. *)
Definition recommend_item_based {QS : Argsort} (cf : CollaborativeFiltering)
    (user_id : Z) (top_n : Z)
  : result (list (Z * R) * CollaborativeFiltering) :=
  pc <- predicted_item_based cf user_id ;;
  Ok (head top_n (sort_values_desc (fst pc)), snd pc).

End collaborative.

(** ** evaluation.py *)

Module evaluation.

Record Evaluator : Type := mkEv {
  user_item_matrix : DataFrame;
  train_matrix : DataFrame;
  test_matrix : DataFrame;
  test_ratio : R;
  random_state : Z
}.

(** [__init__]: the train table starts as a copy of the source table and
    the test table as zeros of the same shape. *)
Definition init (m : DataFrame) (ratio : R) (rs : Z) : Evaluator :=
  mkEv m m
    (mkDF (index m) (columns m)
       (map (fun _ => map (fun _ => 0) (columns m)) (index m)))
    ratio rs.

(** Lines 40-42: the items a row rates, and how many of them are held out. *)
Definition rated_items (row : Series) : list Z :=
  map fst (filter (fun p => if Rlt_dec 0 (snd p) then true else false) row).

(** The length is an [int], the ratio a float: Python turns the length
    into a float and rounds the product. *)
Definition n_test {B64 : Binary64} (ratio : R) (rated : list Z) : nat :=
  Z.to_nat (Z.max 1 (py_int (fl (fl (INR (length rated)) * ratio)))).

(** The body of the loop, lines 40-44, for one user: the tables and the
    generator state go in and come out. *)
Definition split_user {B64 : Binary64} {RS : RandomState}
    (orig : DataFrame) (ratio : R)
    (user : Z) (acc : DataFrame * DataFrame * state)
  : result (DataFrame * DataFrame * state) :=
  row <- loc orig user ;;
  tg <- choice (snd acc) (rated_items row) (n_test ratio (rated_items row)) ;;
  let test_items := fst tg in
  Ok (set_cells (fst (fst acc)) user test_items (fun _ => 0),
      set_cells (snd (fst acc)) user test_items (get0 row),
      snd tg).

Fixpoint split_loop {B64 : Binary64} {RS : RandomState}
    (orig : DataFrame) (ratio : R)
    (users : list Z) (acc : DataFrame * DataFrame * state)
  : result (DataFrame * DataFrame * state) :=
  match users with
  | [] => Ok acc
  | user :: rest =>
      acc' <- split_user orig ratio user acc ;;
      split_loop orig ratio rest acc'
  end.

(** [train_test_split].  The global generator state [g] the call finds is
    replaced by the seeded one on line 38, unless the seed is refused.
    The call returns the two tables, and leaves them in the object and a
    new state in the generator. *)
Definition train_test_split {B64 : Binary64} {RS : RandomState} (g : state)
    (ev : Evaluator)
  : result (DataFrame * DataFrame * (Evaluator * state)) :=
  g0 <- random_seed (random_state ev) ;;
  r <- split_loop (user_item_matrix ev) (test_ratio ev)
         (index (user_item_matrix ev))
         (train_matrix ev, test_matrix ev, g0) ;;
  let train := fst (fst r) in
  let test := snd (fst r) in
  Ok (train, test,
      (mkEv (user_item_matrix ev) train test (test_ratio ev) (random_state ev),
       snd r)).

(** [predict_all], lines 62-70.  [np.fill_diagonal] writes through
    [.values] into the copy of the similarity table; the product of the
    transposed tables has one row per item and one column per user, and
    the division by [sim_sums] goes column by column. *)
Definition predict_all_user (ev : Evaluator)
    (cf_model : collaborative.CollaborativeFiltering)
  : result (DataFrame * collaborative.CollaborativeFiltering) :=
  Scf <- collaborative.ensure_user_similarity cf_model ;;
  let train := train_matrix ev in
  let similarity_matrix := fill_diagonal0 (values (fst Scf)) in
  let sim_sums := map (fun row => Rsum row + eps) similarity_matrix in
  let n := length (index (fst Scf)) in
  let product :=
    matmul (transpose (length (columns train)) (values train)) n
      (transpose n similarity_matrix) in
  let weighted_ratings :=
    map (fun row => map (fun p => fst p / snd p) (combine row sim_sums))
      product in
  let weighted_ratings := transpose n weighted_ratings in
  Ok (mkDF (index (fst Scf)) (columns train)
        (where_eq0 weighted_ratings (values train)),
      snd Scf).

(** [predict_all], lines 73-79.  The denominators form a column vector, so
    the division goes row by row. *)
Definition predict_all_item (ev : Evaluator)
    (cf_model : collaborative.CollaborativeFiltering)
  : result (DataFrame * collaborative.CollaborativeFiltering) :=
  Scf <- collaborative.ensure_item_similarity cf_model ;;
  let train := train_matrix ev in
  let item_sim := values (fst Scf) in
  let n := length (index train) in
  let product :=
    matmul item_sim n (transpose (length (columns train)) (values train)) in
  let den := map (fun row => Rsum (map Rabs row) + eps) item_sim in
  let pred :=
    map (fun rd => map (fun x => x / snd rd) (fst rd)) (combine product den) in
  let predictions := transpose n pred in
  Ok (mkDF (index train) (index (fst Scf))
        (where_eq0 predictions (values train)),
      snd Scf).

Definition predict_all (ev : Evaluator)
    (cf_model : collaborative.CollaborativeFiltering) (method : String.string)
  : result (DataFrame * collaborative.CollaborativeFiltering) :=
  if String.eqb method "user"%string then predict_all_user ev cf_model
  else if String.eqb method "item"%string then predict_all_item ev cf_model
  else Raise ValueError.

(** [compute_rmse]: the mask of the test table is applied to the test
    table and, aligned on their labels, to the predictions. *)
Definition compute_rmse (ev : Evaluator) (predictions : DataFrame) : result R :=
  let test := test_matrix ev in
  let y_true := where_gt0 test test in
  let y_pred := where_gt0 predictions test in
  mse <- mean_squared_error y_true y_pred ;;
  Ok (sqrt mse).

End evaluation.

(** ** Well-formed tables *)

(** A table has distinct row labels, distinct column labels, one row per
    row label and one cell per column label in each row. *)
Definition wf (df : DataFrame) : Prop :=
  NoDup (index df) /\ NoDup (columns df) /\
  length (values df) = length (index df) /\
  Forall (fun row => length row = length (columns df)) (values df).

(** The cell under a row label and a column label, 0 when a label is
    absent. *)
Definition cell (df : DataFrame) (u i : Z) : R :=
  match lookup u (index df) (values df) with
  | Some row => get0 (combine (columns df) row) i
  | None => 0
  end.

(** A stored similarity is the one the table gives. *)
Definition user_cache_ok (cf : collaborative.CollaborativeFiltering) : Prop :=
  forall sim, collaborative.user_similarity cf = Some sim ->
    exists cf', collaborative.compute_user_similarity cf = Ok (sim, cf').

Definition item_cache_ok (cf : collaborative.CollaborativeFiltering) : Prop :=
  forall sim, collaborative.item_similarity cf = Some sim ->
    exists cf', collaborative.compute_item_similarity cf = Ok (sim, cf').

(** ** Orders on the entries of a series *)

(** Ascending by value, and in the order [before] among equal values. *)
Definition asc_then (before : Z * R -> Z * R -> Prop) (p q : Z * R) : Prop :=
  snd p < snd q \/ (snd p = snd q /\ before p q).

(** Descending by value, and in the order [before] among equal values. *)
Definition desc_then (before : Z * R -> Z * R -> Prop) (p q : Z * R) : Prop :=
  snd q < snd p \/ (snd p = snd q /\ before p q).

(** The label of [p] stands before the label of [q] in [labels]. *)
Definition label_before (labels : list Z) (p q : Z * R) : Prop :=
  match get_loc (fst p) labels, get_loc (fst q) labels with
  | Some a, Some b => (a < b)%nat
  | _, _ => False
  end.

(** The label of [p] is the smaller one. *)
Definition label_lt (p q : Z * R) : Prop := (fst p < fst q)%Z.

(** What holds of the list a call returns; nothing is said of a call that
    raises. *)
Definition returns {A B : Type} (P : A -> Prop) (r : result (A * B)) : Prop :=
  match r with
  | Ok x => P (fst x)
  | Raise _ => True
  end.

(** The cell at a row position and a column position. *)
Definition entry (V : list (list R)) (p j : nat) : R := nth j (nth p V []) 0.

(** A vector of zeros, a vector without a negative entry, a matrix without
    a negative entry. *)
Definition all_zero (r : list R) : Prop := Forall (fun x => x = 0) r.

Definition nonneg (r : list R) : Prop := Forall (fun x => 0 <= x) r.

Definition nonneg_matrix (V : list (list R)) : Prop := Forall nonneg V.

(** A series without a negative value, and a matrix with every entry
    between 0 and 1. *)
Definition nonneg_series (s : Series) : Prop := Forall (fun p => 0 <= snd p) s.


(** The predicted rating of the item at column position [j] for the user at
    row position [p], as the two single-user paths compute it from the
    cells [V] and a similarity matrix [K]. *)
Definition user_prediction (V K : list (list R)) (p j : nat) : R :=
  dot (col j V) (nth p (fill_diagonal0 K) []) /
  (Rsum (nth p (fill_diagonal0 K) []) + eps).

Definition item_prediction (V K : list (list R)) (p j : nat) : R :=
  dot (nth j K []) (nth p V []) / (Rsum (map Rabs (nth j K [])) + eps).

(** A table [P] of predictions agrees with a single-user recommender [rec]
    over the table [m]: a cell the user rated is 0 in [P]; a rating [rec]
    returns for an item is the cell of [P]; and an unrated item is
    returned, with the cell of [P] for rating, once [top_n] is at least the
    number of columns. *)
Definition agrees {C : Type} (m P : DataFrame)
    (rec : Z -> Z -> result (list (Z * R) * C)) : Prop :=
  forall u i, In u (index m) -> In i (columns m) ->
    (cell m u i <> 0 -> cell P u i = 0) /\
    (forall top_n,
       returns (fun res => forall r, In (i, r) res -> r = cell P u i)
         (rec u top_n)) /\
    (cell m u i = 0 -> forall top_n,
       (Z.of_nat (length (columns m)) <= top_n)%Z ->
       exists res cf', rec u top_n = Ok (res, cf') /\ In (i, cell P u i) res).

(** ** The draws of the split, apart from the tables

    One entry per user the loop has passed: the user, the items drawn for
    the test table, and the user's row of the source table. *)
Definition Plan : Type := list (Z * list Z * Series).

Definition plan_step {B64 : Binary64} {RS : RandomState}
    (orig : DataFrame) (ratio : R)
    (user : Z) (g : state) : result (Z * list Z * Series * state) :=
  row <- loc orig user ;;
  tg <- choice g (evaluation.rated_items row)
          (evaluation.n_test ratio (evaluation.rated_items row)) ;;
  Ok (user, fst tg, row, snd tg).

Fixpoint split_plan {B64 : Binary64} {RS : RandomState}
    (orig : DataFrame) (ratio : R)
    (users : list Z) (g : state) : result (Plan * state) :=
  match users with
  | [] => Ok ([], g)
  | user :: rest =>
      sg <- plan_step orig ratio user g ;;
      pg <- split_plan orig ratio rest (snd sg) ;;
      Ok (fst sg :: fst pg, snd pg)
  end.

(** Lines 43-44 for each entry of a plan, in order. *)
Definition apply_entry (acc : DataFrame * DataFrame) (e : Z * list Z * Series)
  : DataFrame * DataFrame :=
  (set_cells (fst acc) (fst (fst e)) (snd (fst e)) (fun _ => 0),
   set_cells (snd acc) (fst (fst e)) (snd (fst e)) (get0 (snd e))).

Definition apply_plan (plan : Plan) (acc : DataFrame * DataFrame)
  : DataFrame * DataFrame :=
  fold_left apply_entry plan acc.

(** Some entry of the plan draws item [i] for user [u]. *)
Definition touched (plan : Plan) (u i : Z) : bool :=
  existsb (fun e => Z.eqb (fst (fst e)) u &&
                    if in_dec Z.eq_dec i (snd (fst e)) then true else false)
    plan.

(** The rows of a plan are rows of the source table. *)
Definition plan_rows (orig : DataFrame) (plan : Plan) : Prop :=
  Forall (fun e => loc orig (fst (fst e)) = Ok (snd e)) plan.

(** ** Values for concrete runs *)

(** A generator for examples: the state counts the draws, and draw number
    [g] rotates [0 .. n-1] by [g]. *)
Definition rotate (g : nat) (l : list nat) : list nat :=
  skipn (g mod length l) l ++ firstn (g mod length l) l.

#[export] Instance counter_rng : RandomState := {|
  state := nat;
  seed := fun z => Z.to_nat z;
  permutation := fun g n => (rotate g (seq 0 n), S g)
|}.

(** The table of the specification's worked example: users 1, 2, 3 and
    items 10, 20, 30. *)
Definition example_table : DataFrame :=
  mkDF [1; 2; 3]%Z [10; 20; 30]%Z
    [[5; 3; 0]; [4; 2; 5]; [0; 0; 4]].

(** A table without any rating, and a table whose columns are not in
    ascending label order. *)
Definition empty_table : DataFrame := mkDF [] [] [].

Definition unsorted_table : DataFrame :=
  mkDF [1]%Z [20; 10]%Z [[0; 0]].

(** A table in which user 2 has rated nothing. *)
Definition unrated_user_table : DataFrame :=
  mkDF [1; 2]%Z [10; 20]%Z [[5; 3]; [0; 0]].

(** An evaluator after a split of a one-user table that held out the
    rating of item 10, and predictions that match the held-out rating. *)
Definition held_out_evaluator : evaluation.Evaluator :=
  evaluation.mkEv
    (mkDF [1]%Z [10; 20]%Z [[5; 3]])
    (mkDF [1]%Z [10; 20]%Z [[0; 3]])
    (mkDF [1]%Z [10; 20]%Z [[5; 0]])
    0.2 42.

Definition matching_predictions : DataFrame :=
  mkDF [1]%Z [10; 20]%Z [[5; 3]].

(** What holds of the value a call returns and of the object it leaves;
    nothing is said of a call that raises. *)
Definition returns_with {A B : Type} (P : A -> B -> Prop) (r : result (A * B))
  : Prop :=
  match r with
  | Ok x => P (fst x) (snd x)
  | Raise _ => True
  end.

(** The items a user of the table has rated, as line 40 of evaluation.py
    selects them: the columns with a positive cell, in column order. *)
Definition rated_of (m : DataFrame) (u : Z) : list Z :=
  match loc m u with
  | Ok row => evaluation.rated_items row
  | Raise _ => []
  end.

(** The user, the drawn items and the row of a plan entry are one step of
    the loop from some generator state. *)
Definition plan_entry_ok {B64 : Binary64} {RS : RandomState}
    (m : DataFrame) (ratio : R)
    (e : Z * list Z * Series) : Prop :=
  loc m (fst (fst e)) = Ok (snd e) /\
  exists g1 g2,
    choice g1 (evaluation.rated_items (snd e))
      (evaluation.n_test ratio (evaluation.rated_items (snd e)))
    = Ok (snd (fst e), g2).

(** The squared differences [mean_squared_error] averages. *)
Definition squared_errors (t p : list (list R)) : list (list R) :=
  map (fun tp => map (fun c => (fst c - snd c) * (fst c - snd c))
                   (combine (fst tp) (snd tp)))
    (combine t p).

(** A table of [c] columns: every row has [c] cells. *)
Definition rows_of (c : nat) (V : list (list R)) : Prop :=
  Forall (fun row => length row = c) V.

(** An evaluator whose test table holds a rating in every cell. *)
Definition full_test_evaluator : evaluation.Evaluator :=
  evaluation.mkEv
    (mkDF [1]%Z [10; 20]%Z [[5; 3]])
    (mkDF [1]%Z [10; 20]%Z [[0; 0]])
    (mkDF [1]%Z [10; 20]%Z [[5; 3]])
    0.2 42.

(** Predictions of the shape of [full_test_evaluator]'s test table, under
    another user label. *)
Definition other_labels_predictions : DataFrame :=
  mkDF [2]%Z [10; 20]%Z [[5; 3]].

(** ** data_loader.py *)

(** [sorted(set(labels))]: the distinct labels in ascending order, as
    [pivot] arranges both axes. *)
Fixpoint insert_label (x : Z) (l : list Z) : list Z :=
  match l with
  | [] => [x]
  | y :: l' =>
      if (x <? y)%Z then x :: y :: l'
      else if (x =? y)%Z then y :: l'
      else y :: insert_label x l'
  end.

Definition sorted_labels (l : list Z) : list Z := fold_right insert_label [] l.

(** Whether a list of (row label, column label) pairs names a pair twice. *)
Fixpoint has_duplicate (l : list (Z * Z)) : bool :=
  match l with
  | [] => false
  | x :: l' =>
      existsb (fun y => Z.eqb (fst x) (fst y) && Z.eqb (snd x) (snd y)) l'
      || has_duplicate l'
  end.

(** [fillna(0)] on a table of cells that may be NaN. *)
Definition fillna0 (V : list (list (option R))) : list (list R) :=
  map (map (fun c => match c with Some v => v | None => 0 end)) V.

Module data_loader.

(** A row of ratings.csv; the timestamp column takes no part. *)
Record Rating : Type := mkRating {
  userId : Z;
  movieId : Z;
  rating : R
}.

(** The loader's fields; a file not yet loaded is [None].  Of the four
    files only the ratings reach the rating table. *)
Record DataLoader : Type := mkLoader {
  ratings : option (list Rating)
}.

(** [ratings.pivot(index='userId', columns='movieId', values='rating')]:
    the users and the movies of the file, each in ascending order; the
    cell of a (user, movie) pair is the rating of its row, and NaN when
    the file has no such row.  A file with two rows for one pair is
    refused. *)
Definition pivot (rs : list Rating) : result (list Z * list Z * list (list (option R))) :=
  if has_duplicate (map (fun r => (userId r, movieId r)) rs)
  then Raise ValueError
  else
    let idx := sorted_labels (map userId rs) in
    let cols := sorted_labels (map movieId rs) in
    Ok (idx, cols,
        map (fun u =>
               map (fun i =>
                      option_map rating
                        (find (fun r => Z.eqb (userId r) u &&
                                        Z.eqb (movieId r) i) rs))
                 cols)
          idx).

(** [get_user_item_matrix]. *)
Definition get_user_item_matrix (loader : DataLoader) : result DataFrame :=
  match ratings loader with
  | None => Raise ValueError
  | Some rs =>
      p <- pivot rs ;;
      Ok (mkDF (fst (fst p)) (snd (fst p)) (fillna0 (snd p)))
  end.

End data_loader.

(** The rating a ratings file gives for a user and a movie, 0 when it has
    no row for the pair. *)
Definition rating_of (rs : list data_loader.Rating) (u i : Z) : R :=
  match find (fun r => Z.eqb (data_loader.userId r) u &&
                       Z.eqb (data_loader.movieId r) i) rs with
  | Some r => data_loader.rating r
  | None => 0
  end.

(** The ratings file of the worked example. *)
Definition example_ratings : list data_loader.Rating :=
  [data_loader.mkRating 2 30 5; data_loader.mkRating 1 10 5;
   data_loader.mkRating 3 30 4; data_loader.mkRating 1 20 3;
   data_loader.mkRating 2 10 4; data_loader.mkRating 2 20 2].

(** The (user, movie) pairs of a ratings file, row by row. *)
Definition rating_pairs (rs : list data_loader.Rating) : list (Z * Z) :=
  map (fun r => (data_loader.userId r, data_loader.movieId r)) rs.

(** ** app.py *)

Module app.

(** A row of movies.csv as [load_movies] leaves it: the genres are a list
    of strings. *)
Record Movie : Type := mkMovie {
  movieId : Z;
  title : string;
  genres : list string
}.

(** What the route can raise: an exception of the engine, or the
    [IndexError] of [.values[0]] on an empty selection. *)
Inductive error : Type :=
| Engine (e : exn)
| IndexError.

Definition lift {A : Type} (r : result A) : A + error :=
  match r with
  | Ok a => inl a
  | Raise e => inr (Engine e)
  end.

Definition and_then {A B : Type} (r : A + error) (k : A -> B + error)
  : B + error :=
  match r with
  | inl a => k a
  | inr e => inr e
  end.

(** The module's globals, lines 9-17: the two files, the rating table and
    the model built on it. *)
Record App : Type := mkApp {
  movies : list Movie;
  ratings : list data_loader.Rating;
  user_item_matrix : DataFrame;
  cf_model : collaborative.CollaborativeFiltering
}.

(** [loader.movies.loc[loader.movies['movieId'] == movie_id, ...].values[0]]:
    the first row of the movie, [IndexError] when there is none. *)
Definition movie_row (a : App) (movie_id : Z) : Movie + error :=
  match find (fun m => Z.eqb (movieId m) movie_id) (movies a) with
  | Some m => inl m
  | None => inr IndexError
  end.

(** Lines 52-58: the full ranking of the chosen recommender, and the empty
    list when it raises [KeyError]. *)
Definition ranking {QS : Argsort} (a : App) (user_id : Z) (method : string)
  : list (Z * R) + error :=
  let n := Z.of_nat (length (columns (user_item_matrix a))) in
  let r := if String.eqb method "user"
           then collaborative.recommend_user_based (cf_model a) user_id n
           else collaborative.recommend_item_based (cf_model a) user_id n in
  match r with
  | Ok x => inl (fst x)
  | Raise KeyError => inl []
  | Raise e => inr (Engine e)
  end.

(** Line 61. *)
Definition rated_movies (a : App) (user_id : Z) : list Z + error :=
  lift (row <- loc (user_item_matrix a) user_id ;;
        Ok (evaluation.rated_items row)).

(** Lines 66-67: the comprehension looks up the genres of each entry in
    turn. *)
Fixpoint genre_filtered (lower : string -> string) (a : App)
    (genre_filter : string) (recs : list (Z * R)) : list (Z * R) + error :=
  match recs with
  | [] => inl []
  | p :: rest =>
      and_then (movie_row a (fst p)) (fun m =>
      and_then (genre_filtered lower a genre_filter rest) (fun rest' =>
      inl (if in_dec string_dec genre_filter (map lower (genres m))
           then p :: rest' else rest')))
  end.

(** Lines 52-70: the (movie, rating) pairs the page shows. *)
Definition recommendation_ids {QS : Argsort} (lower : string -> string)
    (a : App)
    (user_id : Z) (method : string) (top_n : Z) (genre_filter : string)
  : list (Z * R) + error :=
  and_then (ranking a user_id method) (fun recs =>
  and_then (rated_movies a user_id) (fun rated =>
  let recs :=
    filter (fun p => if in_dec Z.eq_dec (fst p) rated then false else true)
      recs in
  and_then (if String.eqb genre_filter "" then inl recs
            else genre_filtered lower a genre_filter recs) (fun recs =>
  inl (head top_n recs)))).

(** Lines 76-77: the rounded mean rating of a movie, [None] when the file
    has no rating of it. *)
Definition avg_rating (round2 : R -> R) (a : App) (movie_id : Z) : option R :=
  match map data_loader.rating
          (filter (fun r => Z.eqb (data_loader.movieId r) movie_id)
             (ratings a)) with
  | [] => None
  | l => Some (round2 (mean l))
  end.

(** Lines 73-78. *)
Fixpoint titled (round2 : R -> R) (a : App) (recs : list (Z * R))
  : list (string * R * option R) + error :=
  match recs with
  | [] => inl []
  | p :: rest =>
      and_then (movie_row a (fst p)) (fun m =>
      and_then (titled round2 a rest) (fun rest' =>
      inl ((title m, snd p, avg_rating round2 a (fst p)) :: rest')))
  end.

(** [recommendations], lines 52-78, from the parsed form fields to the
    list handed to the template.  [lower] is [str.lower] and [round2] is
    [round(_, 2)]. *)
Definition recommendations {QS : Argsort} (lower : string -> string)
    (round2 : R -> R) (a : App) (user_id : Z) (method : string) (top_n : Z)
    (genre_filter : string) : list (string * R * option R) + error :=
  and_then (recommendation_ids lower a user_id method top_n genre_filter)
    (titled round2 a).

(** [home], line 24. *)
Definition min_ratings : nat := 50.

(** The ratings of one movie, in file order. *)
Definition ratings_of (a : App) (movie_id : Z) : list R :=
  map data_loader.rating
    (filter (fun r => Z.eqb (data_loader.movieId r) movie_id) (ratings a)).

(** Line 26, [groupby('movieId')['rating'].agg(['mean','count'])]: one row
    per rated movie, in ascending id, with the mean and the number of its
    ratings. *)
Definition ratings_summary (a : App) : list (Z * (R * nat)) :=
  map (fun i => (i, (mean (ratings_of a i), length (ratings_of a i))))
    (sorted_labels (map data_loader.movieId (ratings a))).

(** Lines 27-28: the rows with at least [min_ratings] ratings, by
    decreasing mean, and the first ten of them. *)
Definition popular_movies_df {QS : Argsort} (a : App) : Series :=
  head 10
    (sort_values_desc
       (map (fun x => (fst x, fst (snd x)))
          (filter (fun x => Nat.leb min_ratings (snd (snd x)))
             (ratings_summary a)))).

(** Lines 30-34. *)
Fixpoint popular_titled (round2 : R -> R) (a : App) (rows : Series)
  : list (string * R) + error :=
  match rows with
  | [] => inl []
  | p :: rest =>
      and_then (movie_row a (fst p)) (fun m =>
      and_then (popular_titled round2 a rest) (fun rest' =>
      inl ((title m, round2 (snd p)) :: rest')))
  end.

(** [max(user_item_matrix.index)]: [ValueError] on an empty index. *)
Definition max_user (a : App) : Z + error :=
  match index (user_item_matrix a) with
  | [] => inr (Engine ValueError)
  | u :: l => inl (fold_left Z.max l u)
  end.

(** [home], lines 24-36: the two values handed to the template. *)
Definition home {QS : Argsort} (round2 : R -> R) (a : App)
  : (Z * list (string * R)) + error :=
  and_then (popular_titled round2 a (popular_movies_df a)) (fun popular =>
  and_then (max_user a) (fun m =>
  inl (m, popular))).

End app.

(** The globals are as lines 13-17 leave them: the model is built on the
    rating table, which is well formed and has a user and an item, and a
    similarity it stores is the table's. *)
Definition app_ok (a : app.App) : Prop :=
  collaborative.user_item_matrix (app.cf_model a) = app.user_item_matrix a /\
  wf (app.user_item_matrix a) /\
  index (app.user_item_matrix a) <> [] /\
  columns (app.user_item_matrix a) <> [] /\
  user_cache_ok (app.cf_model a) /\ item_cache_ok (app.cf_model a).

(** The recommender a method name selects. *)
Definition recommender {QS : Argsort} (method : string) :=
  if String.eqb method "user" then collaborative.recommend_user_based
  else collaborative.recommend_item_based.

(** The application of the worked example. *)
Definition example_app : app.App :=
  app.mkApp
    [app.mkMovie 10 "Heat" ["Action"%string; "Crime"%string];
     app.mkMovie 20 "Up" ["Animation"%string];
     app.mkMovie 30 "Alien" ["Horror"%string; "Sci-Fi"%string]]
    example_ratings example_table (collaborative.init example_table).


(** A rating file in which movie 10 has fifty ratings and movie 20 one. *)
Definition popular_ratings : list data_loader.Rating :=
  map (fun u => data_loader.mkRating (Z.of_nat u) 10 4) (seq 1 50) ++
  [data_loader.mkRating 1 20 5].

Definition popular_table : DataFrame :=
  match data_loader.get_user_item_matrix
          (data_loader.mkLoader (Some popular_ratings)) with
  | Ok t => t
  | Raise _ => empty_table
  end.

Definition popular_app : app.App :=
  app.mkApp
    [app.mkMovie 10 "Heat" ["Action"%string; "Crime"%string];
     app.mkMovie 20 "Up" ["Animation"%string]]
    popular_ratings popular_table (collaborative.init popular_table).

(** * Properties *)

#[export] Instance exact_arithmetic_ok : Binary64Ok exact_arithmetic.
Proof. split; simpl; auto. Qed.

Lemma eps_pos : 0 < eps.
Proof. unfold eps. lra. Qed.

(** ** Labels and positions *)

Lemma lookup_In_Some {A : Type} (k : Z) (ks : list Z) (vs : list A) :
  length ks = length vs -> In k ks -> exists v, lookup k ks vs = Some v.
Proof.
  revert vs. induction ks as [|k' ks IH]; intros [|v vs] Hlen Hin;
    simpl in *; try easy.
  destruct (Z.eq_dec k k') as [->|Hne]; [eauto|].
  destruct Hin as [->|Hin]; [easy|]. apply IH; [lia|exact Hin].
Qed.

Lemma lookup_Some_In {A : Type} (k : Z) (ks : list Z) (vs : list A) (v : A) :
  lookup k ks vs = Some v -> In k ks /\ In v vs.
Proof.
  revert vs. induction ks as [|k' ks IH]; intros [|v' vs] H;
    simpl in *; try easy.
  destruct (Z.eq_dec k k') as [->|Hne].
  - injection H as ->. auto.
  - destruct (IH _ H). auto.
Qed.

Lemma lookup_notin {A : Type} (k : Z) (ks : list Z) (vs : list A) :
  ~ In k ks -> lookup k ks vs = None.
Proof.
  intros Hn. destruct (lookup k ks vs) eqn:E; [|reflexivity].
  apply lookup_Some_In in E. tauto.
Qed.

Lemma lookup_map {A B : Type} (f : A -> B) k ks (vs : list A) :
  lookup k ks (map f vs) = option_map f (lookup k ks vs).
Proof.
  revert vs. induction ks as [|k' ks IH]; intros [|v vs]; simpl; try easy.
  destruct (Z.eq_dec k k'); [reflexivity|apply IH].
Qed.

Lemma get_loc_In (k : Z) (ks : list Z) :
  In k ks -> exists n, get_loc k ks = Some n /\ (n < length ks)%nat /\
                       nth n ks 0%Z = k.
Proof.
  induction ks as [|k' ks IH]; simpl; [easy|]. intros Hin.
  destruct (Z.eq_dec k k') as [->|Hne].
  - exists O. repeat split. lia.
  - destruct Hin as [->|Hin]; [easy|].
    destruct (IH Hin) as (n & -> & Hlt & Hn). exists (S n).
    repeat split; [lia|exact Hn].
Qed.

Lemma get_loc_notin (k : Z) (ks : list Z) : ~ In k ks -> get_loc k ks = None.
Proof.
  induction ks as [|k' ks IH]; simpl; [easy|]. intros Hn.
  destruct (Z.eq_dec k k') as [->|Hne]; [tauto|].
  rewrite IH; tauto.
Qed.

Lemma lookup_nth {A : Type} (d : A) (ks : list Z) (vs : list A) (n : nat) :
  NoDup ks -> (n < length ks)%nat -> length ks = length vs ->
  lookup (nth n ks 0%Z) ks vs = Some (nth n vs d).
Proof.
  revert vs n. induction ks as [|k ks IH]; intros [|v vs] n Hnd Hn Hlen;
    simpl in *; try lia.
  inversion Hnd as [|? ? Hk Hnd']; subst.
  destruct n as [|n].
  - destruct (Z.eq_dec k k); easy.
  - destruct (Z.eq_dec (nth n ks 0%Z) k) as [E|_].
    + exfalso. apply Hk. rewrite <- E. apply nth_In. lia.
    + apply IH; [assumption|lia|lia].
Qed.

Lemma col_length (j : nat) (rows : list (list R)) :
  length (col j rows) = length rows.
Proof. apply length_map. Qed.

Lemma transpose_length (n : nat) (rows : list (list R)) :
  length (transpose n rows) = n.
Proof. unfold transpose. now rewrite length_map, length_seq. Qed.

(** ** The similarity matrices *)

Lemma cosine_similarity_Ok (X : list (list R)) :
  X <> [] -> hd [] X <> [] ->
  cosine_similarity X =
  Ok (map (fun a => map (fun b => dot a b) (normalize X)) (normalize X)).
Proof.
  destruct X as [|[|x r] X]; simpl; intros H1 H2; try easy.
Qed.

Lemma cosine_similarity_inv (X K : list (list R)) :
  cosine_similarity X = Ok K ->
  X <> [] /\ hd [] X <> [] /\
  K = map (fun a => map (fun b => dot a b) (normalize X)) (normalize X).
Proof.
  destruct X as [|[|x r] X]; simpl; intros H; try easy.
  injection H as <-. repeat split; easy.
Qed.

Lemma cosine_similarity_shape (X K : list (list R)) :
  cosine_similarity X = Ok K ->
  length K = length X /\ Forall (fun row => length row = length X) K.
Proof.
  intros H. apply cosine_similarity_inv in H as (_ & _ & ->).
  split.
  - unfold normalize. now rewrite !length_map.
  - apply Forall_forall. intros row Hin. apply in_map_iff in Hin as (a & <- & _).
    unfold normalize. now rewrite !length_map.
Qed.

Lemma ensure_user_similarity_inv cf sim cf' :
  user_cache_ok cf ->
  collaborative.ensure_user_similarity cf = Ok (sim, cf') ->
  exists K, cosine_similarity (values (collaborative.user_item_matrix cf)) = Ok K /\
            sim = mkDF (index (collaborative.user_item_matrix cf))
                       (index (collaborative.user_item_matrix cf)) K /\
            collaborative.user_item_matrix cf' = collaborative.user_item_matrix cf.
Proof.
  unfold collaborative.ensure_user_similarity, user_cache_ok.
  intros Hc H.
  assert (Hcomp : exists cf1, collaborative.compute_user_similarity cf = Ok (sim, cf1) /\
            collaborative.user_item_matrix cf' = collaborative.user_item_matrix cf).
  { destruct (collaborative.user_similarity cf) as [s|] eqn:E.
    - injection H as -> ->. destruct (Hc _ eq_refl) as [cf1 H1]. eauto.
    - exists cf'. split; [exact H|].
      unfold collaborative.compute_user_similarity in H.
      destruct (cosine_similarity _); simpl in H; [|easy].
      now injection H as _ <-. }
  destruct Hcomp as (cf1 & H1 & H2).
  unfold collaborative.compute_user_similarity in H1.
  destruct (cosine_similarity _) as [K|] eqn:EK; simpl in H1; [|easy].
  injection H1 as <- _. eauto.
Qed.

Lemma ensure_item_similarity_inv cf sim cf' :
  item_cache_ok cf ->
  collaborative.ensure_item_similarity cf = Ok (sim, cf') ->
  exists K,
    cosine_similarity
      (transpose (length (columns (collaborative.user_item_matrix cf)))
         (values (collaborative.user_item_matrix cf))) = Ok K /\
    sim = mkDF (columns (collaborative.user_item_matrix cf))
               (columns (collaborative.user_item_matrix cf)) K /\
    collaborative.user_item_matrix cf' = collaborative.user_item_matrix cf.
Proof.
  unfold collaborative.ensure_item_similarity, item_cache_ok.
  intros Hc H.
  assert (Hcomp : exists cf1, collaborative.compute_item_similarity cf = Ok (sim, cf1) /\
            collaborative.user_item_matrix cf' = collaborative.user_item_matrix cf).
  { destruct (collaborative.item_similarity cf) as [s|] eqn:E.
    - injection H as -> ->. destruct (Hc _ eq_refl) as [cf1 H1]. eauto.
    - exists cf'. split; [exact H|].
      unfold collaborative.compute_item_similarity in H.
      destruct (cosine_similarity _); simpl in H; [|easy].
      now injection H as _ <-. }
  destruct Hcomp as (cf1 & H1 & H2).
  unfold collaborative.compute_item_similarity in H1.
  destruct (cosine_similarity _) as [K|] eqn:EK; simpl in H1; [|easy].
  injection H1 as <- _. eauto.
Qed.

(** On a table with a user and an item the similarity is available. *)
Lemma ensure_user_similarity_total cf :
  wf (collaborative.user_item_matrix cf) ->
  index (collaborative.user_item_matrix cf) <> [] ->
  columns (collaborative.user_item_matrix cf) <> [] ->
  exists r, collaborative.ensure_user_similarity cf = Ok r.
Proof.
  intros (_ & _ & Hlen & Hrows) Hi Hc.
  unfold collaborative.ensure_user_similarity.
  destruct (collaborative.user_similarity cf); [eauto|].
  unfold collaborative.compute_user_similarity.
  rewrite cosine_similarity_Ok; simpl; eauto.
  - intros E. rewrite E in Hlen. destruct (index _); simpl in *; easy.
  - destruct (values _) as [|row rows]; simpl in *.
    + destruct (index _); simpl in *; easy.
    + inversion Hrows; subst. intros ->. destruct (columns _); simpl in *; easy.
Qed.

Lemma ensure_item_similarity_total cf :
  wf (collaborative.user_item_matrix cf) ->
  index (collaborative.user_item_matrix cf) <> [] ->
  columns (collaborative.user_item_matrix cf) <> [] ->
  exists r, collaborative.ensure_item_similarity cf = Ok r.
Proof.
  intros (_ & _ & Hlen & Hrows) Hi Hc.
  unfold collaborative.ensure_item_similarity.
  destruct (collaborative.item_similarity cf); [eauto|].
  unfold collaborative.compute_item_similarity.
  rewrite cosine_similarity_Ok; simpl; eauto.
  - destruct (columns _); simpl; easy.
  - destruct (columns _); [easy|]. simpl. unfold col.
    destruct (values _); simpl in *; [|easy].
    destruct (index _); simpl in *; easy.
Qed.

Lemma existsb_label (u : Z) (ks : list Z) (vs : list R) :
  length ks = length vs -> In u ks ->
  existsb (fun p => Z.eqb (fst p) u) (combine ks vs) = true.
Proof.
  revert vs. induction ks as [|k ks IH]; intros [|v vs] Hlen Hin;
    simpl in *; try easy.
  destruct Hin as [->|Hin].
  - now rewrite Z.eqb_refl.
  - rewrite IH; [apply orb_true_r|lia|exact Hin].
Qed.

(** ** User not found *)

Lemma predicted_user_based_absent cf u :
  wf (collaborative.user_item_matrix cf) ->
  index (collaborative.user_item_matrix cf) <> [] ->
  columns (collaborative.user_item_matrix cf) <> [] ->
  ~ In u (index (collaborative.user_item_matrix cf)) ->
  collaborative.predicted_user_based cf u = Raise KeyError.
Proof.
  intros Hwf Hi Hc Hn.
  destruct (ensure_user_similarity_total cf Hwf Hi Hc) as [r Hr].
  unfold collaborative.predicted_user_based. rewrite Hr. simpl.
  unfold loc. now rewrite lookup_notin.
Qed.

Lemma predicted_user_based_present cf u :
  wf (collaborative.user_item_matrix cf) ->
  index (collaborative.user_item_matrix cf) <> [] ->
  columns (collaborative.user_item_matrix cf) <> [] ->
  user_cache_ok cf ->
  In u (index (collaborative.user_item_matrix cf)) ->
  exists r, collaborative.predicted_user_based cf u = Ok r.
Proof.
  intros Hwf Hi Hc Hcache Hin.
  destruct (ensure_user_similarity_total cf Hwf Hi Hc) as [[sim cf'] Hr].
  destruct (ensure_user_similarity_inv _ _ _ Hcache Hr) as (K & HK & -> & Hm).
  destruct Hwf as (Hnd & _ & Hlen & _).
  unfold collaborative.predicted_user_based. rewrite Hr. simpl.
  unfold loc.
  destruct (lookup_In_Some u (index (collaborative.user_item_matrix cf))
              (values (collaborative.user_item_matrix cf)))
    as [row ->]; [now symmetry|exact Hin|]. simpl.
  unfold getitem. simpl.
  destruct (get_loc_In u _ Hin) as (j & -> & _ & _). simpl.
  unfold drop. rewrite existsb_label; [simpl; eauto| |exact Hin].
  rewrite col_length. apply cosine_similarity_shape in HK as [-> _].
  now symmetry.
Qed.

Lemma predicted_item_based_absent cf u :
  wf (collaborative.user_item_matrix cf) ->
  index (collaborative.user_item_matrix cf) <> [] ->
  columns (collaborative.user_item_matrix cf) <> [] ->
  ~ In u (index (collaborative.user_item_matrix cf)) ->
  collaborative.predicted_item_based cf u = Raise KeyError.
Proof.
  intros Hwf Hi Hc Hn.
  destruct (ensure_item_similarity_total cf Hwf Hi Hc) as [r Hr].
  unfold collaborative.predicted_item_based. rewrite Hr. simpl.
  unfold loc. now rewrite lookup_notin.
Qed.

Lemma predicted_item_based_present cf u :
  wf (collaborative.user_item_matrix cf) ->
  index (collaborative.user_item_matrix cf) <> [] ->
  columns (collaborative.user_item_matrix cf) <> [] ->
  In u (index (collaborative.user_item_matrix cf)) ->
  exists r, collaborative.predicted_item_based cf u = Ok r.
Proof.
  intros Hwf Hi Hc Hin.
  destruct (ensure_item_similarity_total cf Hwf Hi Hc) as [[sim cf'] Hr].
  destruct Hwf as (Hnd & _ & Hlen & _).
  unfold collaborative.predicted_item_based. rewrite Hr. simpl.
  unfold loc.
  destruct (lookup_In_Some u (index (collaborative.user_item_matrix cf))
              (values (collaborative.user_item_matrix cf)))
    as [row ->]; [now symmetry|exact Hin|]. simpl. eauto.
Qed.

Ltac wf_example :=
  unfold wf; simpl; repeat split;
  repeat (constructor; simpl; try (intuition lia; fail)); auto.

(** Settles the comparisons of numerals a concrete run meets. *)
Ltac decide_reals :=
  repeat match goal with
  | |- context [Rlt_dec ?a ?b] =>
      first [ destruct (Rlt_dec a b); [|exfalso; lra]
            | destruct (Rlt_dec a b); [exfalso; lra|] ]
  | |- context [Rle_dec ?a ?b] =>
      first [ destruct (Rle_dec a b); [|exfalso; lra]
            | destruct (Rle_dec a b); [exfalso; lra|] ]
  | |- context [Req_dec_T ?a ?b] =>
      first [ destruct (Req_dec_T a b); [|exfalso; lra]
            | destruct (Req_dec_T a b); [exfalso; lra|] ]
  end.

(** At a user the table lacks the error is the row lookup's [KeyError];
    at a user it has, the similarity column, the drop and the rest go
    through. *)
Lemma recommend_user_based_absent {QS : Argsort} cf u top_n :
  wf (collaborative.user_item_matrix cf) ->
  index (collaborative.user_item_matrix cf) <> [] ->
  columns (collaborative.user_item_matrix cf) <> [] ->
  ~ In u (index (collaborative.user_item_matrix cf)) ->
  collaborative.recommend_user_based cf u top_n = Raise KeyError.
Proof.
  intros. unfold collaborative.recommend_user_based.
  now rewrite predicted_user_based_absent.
Qed.

Lemma recommend_item_based_absent {QS : Argsort} cf u top_n :
  wf (collaborative.user_item_matrix cf) ->
  index (collaborative.user_item_matrix cf) <> [] ->
  columns (collaborative.user_item_matrix cf) <> [] ->
  ~ In u (index (collaborative.user_item_matrix cf)) ->
  collaborative.recommend_item_based cf u top_n = Raise KeyError.
Proof.
  intros. unfold collaborative.recommend_item_based.
  now rewrite predicted_item_based_absent.
Qed.

(** C8, amended: on a well-formed table with at least one user and one
    item, whatever [top_n], each of the two recommenders fails with
    [KeyError] exactly when the user is absent from the row index, and
    returns a list when the user is present. *)
Theorem recommend_user_not_found_iff {QS : Argsort} cf u top_n :
  wf (collaborative.user_item_matrix cf) ->
  index (collaborative.user_item_matrix cf) <> [] ->
  columns (collaborative.user_item_matrix cf) <> [] ->
  user_cache_ok cf ->
  (collaborative.recommend_user_based cf u top_n = Raise KeyError <->
   ~ In u (index (collaborative.user_item_matrix cf))) /\
  (collaborative.recommend_item_based cf u top_n = Raise KeyError <->
   ~ In u (index (collaborative.user_item_matrix cf))) /\
  (In u (index (collaborative.user_item_matrix cf)) ->
   (exists r, collaborative.recommend_user_based cf u top_n = Ok r) /\
   (exists r, collaborative.recommend_item_based cf u top_n = Ok r)).
Proof.
  intros Hwf Hi Hc Hcache.
  assert (Hpres : In u (index (collaborative.user_item_matrix cf)) ->
   (exists r, collaborative.recommend_user_based cf u top_n = Ok r) /\
   (exists r, collaborative.recommend_item_based cf u top_n = Ok r)).
  { intros Hin. split.
    - destruct (predicted_user_based_present cf u Hwf Hi Hc Hcache Hin) as [r Hr].
      unfold collaborative.recommend_user_based. rewrite Hr. simpl. eauto.
    - destruct (predicted_item_based_present cf u Hwf Hi Hc Hin) as [r Hr].
      unfold collaborative.recommend_item_based. rewrite Hr. simpl. eauto. }
  repeat split; try (apply Hpres; assumption).
  - intros Herr Hin. destruct (Hpres Hin) as [[r Hr] _]. congruence.
  - now apply recommend_user_based_absent.
  - intros Herr Hin. destruct (Hpres Hin) as [_ [r Hr]]. congruence.
  - now apply recommend_item_based_absent.
Qed.

Lemma recommend_user_not_found_iff_witness :
  ((@collaborative.recommend_user_based insertion_sort)
       (collaborative.init example_table) 7 10
     = Raise KeyError <-> ~ In 7%Z (index example_table)) /\
  ((@collaborative.recommend_item_based insertion_sort)
       (collaborative.init example_table) 7 10
     = Raise KeyError <-> ~ In 7%Z (index example_table)) /\
  (In 7%Z (index example_table) ->
   (exists r, (@collaborative.recommend_user_based insertion_sort)
                (collaborative.init example_table) 7 10 = Ok r) /\
   (exists r, (@collaborative.recommend_item_based insertion_sort)
                (collaborative.init example_table) 7 10 = Ok r)).
Proof.
  apply (recommend_user_not_found_iff (collaborative.init example_table) 7 10).
  - wf_example.
  - simpl. discriminate.
  - simpl. discriminate.
  - intros sim H. simpl in H. discriminate.
Defined.

(** C8 as stated fails on the table without any rating: user 1 is absent,
    and the failure is the similarity routine's [ValueError], raised before
    the row is looked up. *)
Lemma recommend_empty_table_not_key_error :
  ~ In 1%Z (index empty_table) /\
  (@collaborative.recommend_user_based insertion_sort)
       (collaborative.init empty_table) 1 10
    = Raise ValueError /\
  (@collaborative.recommend_item_based insertion_sort)
       (collaborative.init empty_table) 1 10
    = Raise ValueError /\
  ~ ((@collaborative.recommend_user_based insertion_sort)
       (collaborative.init empty_table) 1 10
       = Raise KeyError <-> ~ In 1%Z (index empty_table)).
Proof.
  repeat split; try reflexivity.
  - simpl. tauto.
  - intros [_ H]. discriminate H. simpl. tauto.
Qed.

(** ** Sorting *)

Lemma insert_asc_perm (x : Z * R) (l : Series) :
  Permutation (insert_asc x l) (x :: l).
Proof.
  induction l as [|y l IH]; simpl; [reflexivity|].
  destruct (Rle_dec (snd x) (snd y)); [reflexivity|].
  rewrite IH. apply perm_swap.
Qed.

Lemma argsort_asc_perm (s : Series) : Permutation (argsort_asc s) s.
Proof.
  induction s as [|x s IH]; simpl; [reflexivity|].
  rewrite insert_asc_perm. now constructor.
Qed.

Lemma sort_values_desc_perm {QS : Argsort} {QSOk : ArgsortOk QS} (s : Series) :
  Permutation (sort_values_desc s) s.
Proof.
  unfold sort_values_desc.
  rewrite <- Permutation_rev, argsort_perm. symmetry. apply Permutation_rev.
Qed.

Lemma StronglySorted_app {A : Type} (P : A -> A -> Prop) (l1 l2 : list A) :
  StronglySorted P l1 -> StronglySorted P l2 ->
  (forall a b, In a l1 -> In b l2 -> P a b) ->
  StronglySorted P (l1 ++ l2).
Proof.
  induction l1 as [|x l1 IH]; simpl; intros H1 H2 H12; [exact H2|].
  inversion H1 as [|? ? Hs Hf]; subst. constructor.
  - apply IH; auto.
  - apply Forall_app. split; [exact Hf|].
    apply Forall_forall. intros b Hb. apply H12; auto.
Qed.

Lemma StronglySorted_rev {A : Type} (P : A -> A -> Prop) (l : list A) :
  StronglySorted P l -> StronglySorted (fun a b => P b a) (rev l).
Proof.
  induction 1 as [|x l Hs IH Hf]; simpl; [constructor|].
  apply StronglySorted_app; [exact IH|repeat constructor|].
  intros a b Ha [<-|[]]. apply in_rev in Ha.
  rewrite Forall_forall in Hf. now apply Hf.
Qed.

Lemma StronglySorted_firstn {A : Type} (P : A -> A -> Prop) (n : nat) (l : list A) :
  StronglySorted P l -> StronglySorted P (firstn n l).
Proof.
  revert n. induction l as [|x l IH]; intros [|n] H; simpl; try constructor.
  - inversion H; subst. now apply IH.
  - inversion H as [|? ? _ Hf]; subst.
    rewrite Forall_forall in *. intros y Hy. apply Hf.
    rewrite <- (firstn_skipn n l). apply in_or_app. now left.
Qed.

Lemma StronglySorted_weaken {A : Type} (P Q : A -> A -> Prop) (l : list A) :
  (forall a b, In a l -> In b l -> P a b -> Q a b) ->
  StronglySorted P l -> StronglySorted Q l.
Proof.
  intros HPQ H. induction H as [|x l Hs IH Hf]; constructor.
  - apply IH. intros a b Ha Hb. apply HPQ; now right.
  - rewrite Forall_forall in *. intros y Hy.
    apply HPQ; [now left|now right|now apply Hf].
Qed.

Lemma head_firstn {A : Type} (n : Z) (l : list A) :
  exists k, head n l = firstn k l.
Proof. unfold head. destruct (0 <=? n)%Z; eauto. Qed.

Lemma head_In {A : Type} (n : Z) (l : list A) (x : A) :
  In x (head n l) -> In x l.
Proof.
  destruct (head_firstn n l) as [k ->]. intros H.
  rewrite <- (firstn_skipn k l). apply in_or_app. now left.
Qed.

Lemma asc_then_le before p q : asc_then before p q -> snd p <= snd q.
Proof. unfold asc_then. intros [H|[H _]]; lra. Qed.

Lemma insert_asc_sorted before (x : Z * R) (l : Series) :
  StronglySorted (asc_then before) l -> Forall (before x) l ->
  StronglySorted (asc_then before) (insert_asc x l).
Proof.
  induction l as [|y l IH]; simpl; intros Hs Hb.
  - repeat constructor.
  - inversion Hs as [|? ? Hs' Hy]; subst.
    inversion Hb as [|? ? Hxy Hb']; subst.
    destruct (Rle_dec (snd x) (snd y)) as [Hle|Hgt].
    + constructor; [exact Hs|]. constructor.
      * unfold asc_then. destruct (Rle_lt_or_eq_dec _ _ Hle); auto.
      * rewrite Forall_forall in *. intros z Hz.
        specialize (Hy z Hz). apply asc_then_le in Hy.
        specialize (Hb' z Hz). unfold asc_then.
        destruct (Rle_lt_or_eq_dec (snd x) (snd z)); auto. lra.
    + constructor; [now apply IH|].
      rewrite Forall_forall in *. intros z Hz.
      apply (Permutation_in _ (insert_asc_perm x l)) in Hz.
      destruct Hz as [<-|Hz]; [left; lra|now apply Hy].
Qed.

Lemma argsort_asc_sorted before (s : Series) :
  StronglySorted before s -> StronglySorted (asc_then before) (argsort_asc s).
Proof.
  induction 1 as [|x s Hs IH Hf]; simpl; [constructor|].
  apply insert_asc_sorted; [exact IH|].
  rewrite Forall_forall in *. intros z Hz. apply Hf.
  now apply (Permutation_in _ (argsort_asc_perm s)).
Qed.

#[export] Instance insertion_sort_ok : ArgsortOk insertion_sort.
Proof.
  split; simpl.
  - exact argsort_asc_perm.
  - intros s.
    assert (Hany : StronglySorted (fun _ _ : Z * R => True) s).
    { induction s; constructor; [assumption|]. now apply Forall_forall. }
    apply (argsort_asc_sorted _ s) in Hany.
    eapply StronglySorted_weaken; [|exact Hany].
    intros p q _ _. apply asc_then_le.
Qed.

(** Whatever the sort, the values come out in non-increasing order. *)
Lemma sort_values_desc_ge {QS : Argsort} {QSOk : ArgsortOk QS} (s : Series) :
  StronglySorted (fun p q => snd q <= snd p) (sort_values_desc s).
Proof.
  unfold sort_values_desc.
  pose proof (argsort_sorted (rev s)) as H.
  apply StronglySorted_rev in H.
  eapply StronglySorted_weaken; [|exact H]. intros p q _ _ Hpq. exact Hpq.
Qed.

(** The sort by insertion also keeps the entries of equal value in the
    order they came in. *)
Lemma sort_values_desc_sorted (before : Z * R -> Z * R -> Prop) (s : Series) :
  StronglySorted before s ->
  StronglySorted (desc_then before) (@sort_values_desc insertion_sort s).
Proof.
  intros Hs. unfold sort_values_desc. simpl argsort.
  apply StronglySorted_rev in Hs.
  apply argsort_asc_sorted in Hs. apply StronglySorted_rev in Hs.
  eapply StronglySorted_weaken; [|exact Hs].
  unfold asc_then, desc_then. intros a b _ _ [H|[H1 H2]]; auto.
Qed.

Lemma mask_eq0_sorted (P : Z * R -> Z * R -> Prop) (s ratings : Series) :
  StronglySorted P s -> StronglySorted P (mask_eq0 s ratings).
Proof.
  unfold mask_eq0. intros Hs. revert ratings.
  induction Hs as [|x s Hs IH Hf]; intros [|q ratings]; simpl; try constructor.
  destruct (Req_dec_T (snd q) 0); simpl; [|apply IH].
  constructor; [apply IH|].
  rewrite Forall_forall in *. intros y Hy. apply Hf.
  apply in_map_iff in Hy as ([y' q'] & <- & Hy).
  apply filter_In in Hy as [Hy _]. simpl. now apply in_combine_l in Hy.
Qed.

(** ** The series the recommenders rank *)

Lemma map_fst_combine {A B : Type} (ks : list A) (vs : list B) :
  length ks = length vs -> map fst (combine ks vs) = ks.
Proof.
  revert vs. induction ks as [|k ks IH]; intros [|v vs] H; simpl in *; try easy.
  f_equal. apply IH. lia.
Qed.

Lemma map_snd_combine {A B : Type} (ks : list A) (vs : list B) :
  length ks = length vs -> map snd (combine ks vs) = vs.
Proof.
  revert vs. induction ks as [|k ks IH]; intros [|v vs] H; simpl in *; try easy.
  f_equal. apply IH. lia.
Qed.

Lemma combine_same_label (s t : Series) (p q : Z * R) :
  map fst s = map fst t -> In (p, q) (combine s t) -> fst p = fst q.
Proof.
  revert t. induction s as [|x s IH]; intros [|y t] Hl Hin; simpl in *; try easy.
  injection Hl as Hxy Hl. destruct Hin as [E|Hin].
  - now injection E as <- <-.
  - eauto.
Qed.

Lemma get0_In (s : Series) (k : Z) (v : R) :
  NoDup (map fst s) -> In (k, v) s -> get0 s k = v.
Proof.
  unfold get0. induction s as [|[k' v'] s IH]; simpl; [easy|].
  intros Hnd Hin. inversion Hnd as [|? ? Hk Hnd']; subst.
  destruct (Z.eq_dec k k') as [->|Hne].
  - destruct Hin as [E|Hin]; [now injection E|].
    exfalso. apply Hk. apply in_map_iff. now exists (k', v).
  - destruct Hin as [E|Hin]; [injection E as -> _; easy|]. now apply IH.
Qed.

Lemma mask_eq0_In (s ratings : Series) (p : Z * R) :
  In p (mask_eq0 s ratings) ->
  exists q, In (p, q) (combine s ratings) /\ snd q = 0.
Proof.
  unfold mask_eq0. intros H.
  apply in_map_iff in H as ([p' q] & <- & H).
  apply filter_In in H as [H Hq]. simpl in *.
  exists q. split; [exact H|]. now destruct (Req_dec_T (snd q) 0).
Qed.

Lemma lookup_row_length (df : DataFrame) (u : Z) (row : list R) :
  wf df -> lookup u (index df) (values df) = Some row ->
  length row = length (columns df).
Proof.
  intros (_ & _ & _ & Hrows) H. apply lookup_Some_In in H as [_ H].
  rewrite Forall_forall in Hrows. now apply Hrows.
Qed.

(** What [predicted_user_based] returns is the mask of a series that has one
    entry per column of the table, in column order. *)
Lemma predicted_user_based_inv cf u s cf' :
  collaborative.predicted_user_based cf u = Ok (s, cf') ->
  exists pred row,
    lookup u (index (collaborative.user_item_matrix cf))
             (values (collaborative.user_item_matrix cf)) = Some row /\
    map fst pred = columns (collaborative.user_item_matrix cf) /\
    s = mask_eq0 pred (combine (columns (collaborative.user_item_matrix cf)) row).
Proof.
  unfold collaborative.predicted_user_based. intros H.
  destruct (collaborative.ensure_user_similarity cf) as [[sim cf1]|]; [|easy].
  simpl in H. unfold loc in H.
  destruct (lookup u _ _) as [row|] eqn:Erow; [|easy]. simpl in H.
  destruct (getitem sim u) as [su|]; [|easy]. simpl in H.
  destruct (drop su u) as [sd|]; [|easy]. simpl in H.
  injection H as <- _. eexists. exists row. repeat split.
  rewrite map_map. simpl. unfold T_dot.
  apply map_fst_combine. now rewrite length_map, transpose_length.
Qed.

Lemma predicted_item_based_inv cf u s cf' :
  wf (collaborative.user_item_matrix cf) -> item_cache_ok cf ->
  collaborative.predicted_item_based cf u = Ok (s, cf') ->
  exists pred row,
    lookup u (index (collaborative.user_item_matrix cf))
             (values (collaborative.user_item_matrix cf)) = Some row /\
    map fst pred = columns (collaborative.user_item_matrix cf) /\
    s = mask_eq0 pred (combine (columns (collaborative.user_item_matrix cf)) row).
Proof.
  unfold collaborative.predicted_item_based. intros Hwf Hcache H.
  destruct (collaborative.ensure_item_similarity cf) as [[sim cf1]|] eqn:Es;
    [|easy].
  destruct (ensure_item_similarity_inv _ _ _ Hcache Es) as (K & HK & -> & _).
  apply cosine_similarity_shape in HK as [HK _].
  rewrite transpose_length in HK.
  simpl in H. unfold loc in H.
  destruct (lookup u _ _) as [row|] eqn:Erow; [|easy]. simpl in H.
  injection H as <- _. eexists. exists row. repeat split.
  rewrite map_map. simpl. unfold df_dot. simpl.
  rewrite <- map_map. rewrite map_fst_combine.
  - apply map_fst_combine. now rewrite length_map.
  - now rewrite length_combine, !length_map, HK, Nat.min_id.
Qed.

(** A cell the mask keeps is a zero cell of the user's row. *)
Lemma mask_keeps_unrated (df : DataFrame) (u : Z) (row : list R)
    (pred : Series) (p : Z * R) :
  wf df -> lookup u (index df) (values df) = Some row ->
  map fst pred = columns df ->
  In p (mask_eq0 pred (combine (columns df) row)) ->
  cell df u (fst p) = 0.
Proof.
  intros Hwf Hrow Hlab Hin.
  pose proof (lookup_row_length _ _ _ Hwf Hrow) as Hlen.
  destruct Hwf as (_ & Hnd & _ & _).
  apply mask_eq0_In in Hin as ([k v] & Hin & Hv). simpl in Hv. subst v.
  assert (Hk : fst p = k).
  { apply (combine_same_label _ _ _ _) in Hin; [exact Hin|].
    rewrite Hlab. symmetry. apply map_fst_combine. lia. }
  apply in_combine_r in Hin. unfold cell. rewrite Hrow, Hk.
  apply get0_In; [|exact Hin]. rewrite map_fst_combine; [exact Hnd|lia].
Qed.

(** C4: no pair either recommender returns names an item the user rated:
    the cell of the table under the user and the item is 0. *)
Theorem recommend_only_unrated {QS : Argsort} {QSOk : ArgsortOk QS} cf u top_n :
  wf (collaborative.user_item_matrix cf) ->
  item_cache_ok cf ->
  returns (Forall (fun p => cell (collaborative.user_item_matrix cf) u (fst p) = 0))
    (collaborative.recommend_user_based cf u top_n) /\
  returns (Forall (fun p => cell (collaborative.user_item_matrix cf) u (fst p) = 0))
    (collaborative.recommend_item_based cf u top_n).
Proof.
  intros Hwf Hcache. split.
  - unfold collaborative.recommend_user_based.
    destruct (collaborative.predicted_user_based cf u) as [[s cf']|] eqn:E;
      simpl; [|exact I].
    destruct (predicted_user_based_inv _ _ _ _ E) as (pred & row & Hrow & Hl & ->).
    apply Forall_forall. intros p Hp. apply head_In in Hp.
    apply (Permutation_in _ (sort_values_desc_perm _)) in Hp.
    eapply mask_keeps_unrated; eauto.
  - unfold collaborative.recommend_item_based.
    destruct (collaborative.predicted_item_based cf u) as [[s cf']|] eqn:E;
      simpl; [|exact I].
    destruct (predicted_item_based_inv _ _ _ _ Hwf Hcache E)
      as (pred & row & Hrow & Hl & ->).
    apply Forall_forall. intros p Hp. apply head_In in Hp.
    apply (Permutation_in _ (sort_values_desc_perm _)) in Hp.
    eapply mask_keeps_unrated; eauto.
Qed.

Lemma recommend_only_unrated_witness :
  returns (Forall (fun p => cell example_table 1 (fst p) = 0))
    ((@collaborative.recommend_user_based insertion_sort)
         (collaborative.init example_table) 1 10) /\
  returns (Forall (fun p => cell example_table 1 (fst p) = 0))
    ((@collaborative.recommend_item_based insertion_sort)
         (collaborative.init example_table) 1 10).
Proof.
  apply (recommend_only_unrated (collaborative.init example_table) 1 10).
  - wf_example.
  - intros sim H. simpl in H. discriminate.
Defined.

(** ** The order of a recommendation list *)

Lemma get_loc_app (k : Z) (pre l : list Z) :
  ~ In k pre ->
  get_loc k (pre ++ l) = option_map (Nat.add (length pre)) (get_loc k l).
Proof.
  induction pre as [|a pre IH]; simpl; intros Hn.
  - now destruct (get_loc k l).
  - destruct (Z.eq_dec k a) as [->|Hne]; [tauto|].
    rewrite IH by tauto. now destruct (get_loc k l).
Qed.

Lemma label_before_sorted_from (pre : list Z) (s : Series) :
  NoDup (pre ++ map fst s) ->
  StronglySorted (label_before (pre ++ map fst s)) s.
Proof.
  revert pre. induction s as [|[k v] s IH]; intros pre Hnd; [constructor|].
  simpl in *. constructor.
  - specialize (IH (pre ++ [k])). rewrite <- app_assoc in IH. now apply IH.
  - apply Forall_forall. intros [k' v'] Hin.
    assert (Hk' : In k' (map fst s)) by (apply in_map_iff; now exists (k', v')).
    assert (Hnk : ~ In k pre /\ ~ In k' pre /\ k' <> k).
    { apply NoDup_remove in Hnd as [Hnd Hk].
      repeat split.
      - intros H. apply Hk. apply in_or_app. now left.
      - intros H. apply NoDup_app_remove_r in Hnd as Hpre.
        revert Hnd H Hk'. clear. intros Hnd H Hk'.
        induction pre as [|a pre IHp]; simpl in *; [easy|].
        inversion Hnd; subst. destruct H as [->|H]; [|now apply IHp].
        match goal with Hx : ~ In _ _ |- _ => apply Hx end.
        apply in_or_app. now right.
      - intros ->. apply Hk. apply in_or_app. now right. }
    destruct Hnk as (Hk1 & Hk2 & Hk3).
    unfold label_before. simpl fst.
    rewrite !get_loc_app by assumption. simpl.
    destruct (Z.eq_dec k k) as [_|]; [|easy].
    destruct (Z.eq_dec k' k) as [|_]; [easy|].
    destruct (get_loc_In k' _ Hk') as (n & -> & _). simpl. lia.
Qed.

Lemma label_before_sorted (s : Series) :
  NoDup (map fst s) -> StronglySorted (label_before (map fst s)) s.
Proof. apply (label_before_sorted_from []). Qed.

Lemma label_lt_sorted (s : Series) :
  StronglySorted Z.lt (map fst s) -> StronglySorted label_lt s.
Proof.
  induction s as [|p s IH]; simpl; intros H; [constructor|].
  inversion H as [|? ? Hs Hf]; subst. constructor; [now apply IH|].
  rewrite Forall_forall in *. intros q Hq. apply Hf. now apply in_map.
Qed.

Lemma desc_then_ge before p q : desc_then before p q -> snd q <= snd p.
Proof. unfold desc_then. intros [H|[H _]]; lra. Qed.

(** The ranked prefix of a series is in non-increasing order of value. *)
Lemma ranked_order {QS : Argsort} {QSOk : ArgsortOk QS} (s : Series)
    (top_n : Z) :
  StronglySorted (fun p q => snd q <= snd p) (head top_n (sort_values_desc s)).
Proof.
  destruct (head_firstn top_n (sort_values_desc s)) as [k ->].
  apply StronglySorted_firstn, sort_values_desc_ge.
Qed.

(** C3, amended: the list either recommender returns is in non-increasing
    order of predicted rating, whatever arrangement the sort gives to equal
    values.  Nothing orders the entries of equal predicted rating: the
    code sorts on the rating alone. *)
Theorem recommend_sorted {QS : Argsort} {QSOk : ArgsortOk QS} cf u top_n :
  returns (StronglySorted (fun p q => snd q <= snd p))
    (collaborative.recommend_user_based cf u top_n) /\
  returns (StronglySorted (fun p q => snd q <= snd p))
    (collaborative.recommend_item_based cf u top_n).
Proof.
  split.
  - unfold collaborative.recommend_user_based.
    destruct (collaborative.predicted_user_based cf u) as [[s cf']|] eqn:E;
      simpl; [|exact I].
    apply ranked_order.
  - unfold collaborative.recommend_item_based.
    destruct (collaborative.predicted_item_based cf u) as [[s cf']|] eqn:E;
      simpl; [|exact I].
    apply ranked_order.
Qed.

Lemma recommend_sorted_witness :
  returns (StronglySorted (fun p q => snd q <= snd p))
    (@collaborative.recommend_user_based insertion_sort
       (collaborative.init example_table) 1 10) /\
  returns (StronglySorted (fun p q => snd q <= snd p))
    (@collaborative.recommend_item_based insertion_sort
       (collaborative.init example_table) 1 10).
Proof.
  apply (@recommend_sorted insertion_sort insertion_sort_ok
           (collaborative.init example_table) 1 10).
Defined.

(** C3 as stated fails on a table whose column index reads 20, 10: the two
    items tie at predicted rating 0, and the sort by insertion, which is
    what NumPy runs on an array of two, gives them back as 20, 10. *)
Lemma recommend_ties_follow_columns :
  (exists cf', @collaborative.recommend_user_based insertion_sort
                 (collaborative.init unsorted_table) 1 10
               = Ok ([(20%Z, 0); (10%Z, 0)], cf')) /\
  (exists cf', @collaborative.recommend_item_based insertion_sort
                 (collaborative.init unsorted_table) 1 10
               = Ok ([(20%Z, 0); (10%Z, 0)], cf')) /\
  ~ StronglySorted (desc_then label_lt) [(20%Z, 0); (10%Z, 0)].
Proof.
  split; [|split].
  - eexists.
    unfold collaborative.recommend_user_based,
      collaborative.predicted_user_based,
      collaborative.ensure_user_similarity,
      collaborative.compute_user_similarity.
    cbn. unfold drop. cbn. unfold reindex_fillna0, get0, T_dot, mask_eq0. cbn.
    destruct (Req_dec_T 0 0) as [_|H]; [|now elim H]. cbn.
    replace ((0 * 0 + 0) / (0 + 0 + eps)) with 0 by (unfold Rdiv; ring).
    destruct (Rle_dec 0 0) as [_|H]; [|exfalso; lra]. reflexivity.
  - eexists.
    unfold collaborative.recommend_item_based,
      collaborative.predicted_item_based,
      collaborative.ensure_item_similarity,
      collaborative.compute_item_similarity.
    cbn. unfold reindex_fillna0, get0, df_dot, mask_eq0. cbn.
    destruct (Req_dec_T 0 0) as [_|H]; [|now elim H]. cbn.
    match goal with |- context [Rle_dec ?a ?b] =>
      replace a with 0 by (unfold Rdiv; ring) end.
    destruct (Rle_dec 0 0) as [_|H]; [|exfalso; lra]. reflexivity.
  - intros H. inversion H as [|? ? _ Hf]; subst.
    inversion Hf as [|? ? Hd _]; subst.
    unfold desc_then, label_lt in Hd. simpl in Hd.
    destruct Hd as [Hd|[_ Hd]]; [lra|lia].
Qed.

(** ** Sums and inner products *)

Lemma nth_map_in {A B : Type} (f : A -> B) (l : list A) (n : nat) (dA : A) (dB : B) :
  (n < length l)%nat -> nth n (map f l) dB = f (nth n l dA).
Proof.
  revert n. induction l as [|x l IH]; intros [|n] H; simpl in *; try lia; auto.
  apply IH. lia.
Qed.

Lemma Rsum_nonneg (l : list R) : nonneg l -> 0 <= Rsum l.
Proof. induction 1; simpl; lra. Qed.

Lemma dot_nil_r (a : list R) : dot a [] = 0.
Proof. unfold dot. now rewrite combine_nil. Qed.

Lemma dot_cons (x y : R) (a b : list R) :
  dot (x :: a) (y :: b) = x * y + dot a b.
Proof. reflexivity. Qed.

Lemma dot_comm (a b : list R) : dot a b = dot b a.
Proof.
  revert b. induction a as [|x a IH]; intros [|y b]; try reflexivity.
  rewrite !dot_cons, IH. ring.
Qed.

Lemma dot_self_nonneg (a : list R) : 0 <= dot a a.
Proof.
  induction a as [|x a IH]; [unfold dot; simpl; lra|].
  rewrite dot_cons. nra.
Qed.

Lemma dot_nonneg (a b : list R) : nonneg a -> nonneg b -> 0 <= dot a b.
Proof.
  intros Ha. revert b. induction Ha as [|x a Hx Ha IH]; intros b Hb.
  - unfold dot. simpl. lra.
  - destruct Hb as [|y b Hy Hb]; [rewrite dot_nil_r; lra|].
    rewrite dot_cons. specialize (IH b Hb). nra.
Qed.

Lemma dot_self_zero (a : list R) : dot a a = 0 <-> all_zero a.
Proof.
  induction a as [|x a IH].
  - split; [constructor|reflexivity].
  - rewrite dot_cons. pose proof (dot_self_nonneg a). split.
    + intros H0. assert (x = 0) by nra. assert (dot a a = 0) by nra.
      constructor; [assumption|now apply IH].
    + intros Hz. inversion Hz; subst. apply IH in H3. nra.
Qed.


Lemma dot_scale (c d : R) (a b : list R) :
  dot (map (fun x => x / c) a) (map (fun x => x / d) b) = dot a b * (/ c * / d).
Proof.
  revert b. induction a as [|x a IH]; intros [|y b]; unfold dot; simpl;
    try lra.
  fold (dot (map (fun x => x / c) a) (map (fun x => x / d) b)).
  fold (dot a b). rewrite IH. unfold Rdiv. ring.
Qed.

(** ** Cosine similarity *)

Lemma row_norm_zero (r : list R) : row_norm r = 0 <-> all_zero r.
Proof.
  unfold row_norm. rewrite <- dot_self_zero. split.
  - intros H. apply sqrt_eq_0; [apply dot_self_nonneg|exact H].
  - intros ->. apply sqrt_0.
Qed.

Lemma handle_zeros_in_scale_pos (r : list R) :
  0 < handle_zeros_in_scale (row_norm r).
Proof.
  unfold handle_zeros_in_scale.
  destruct (Req_dec_T (row_norm r) 0); [lra|].
  pose proof (sqrt_pos (dot r r)). unfold row_norm in *. lra.
Qed.

Lemma normalize_row_self (r : list R) :
  (all_zero r -> dot (normalize_row r) (normalize_row r) = 0) /\
  (~ all_zero r -> dot (normalize_row r) (normalize_row r) = 1).
Proof.
  unfold normalize_row. rewrite dot_scale. split.
  - intros Hz. apply dot_self_zero in Hz. rewrite Hz. ring.
  - intros Hnz. unfold handle_zeros_in_scale.
    destruct (Req_dec_T (row_norm r) 0) as [E|Hne].
    + now apply row_norm_zero in E.
    + rewrite <- Rinv_mult. unfold row_norm in *.
      rewrite sqrt_sqrt by apply dot_self_nonneg.
      apply Rinv_r. intros E. apply Hne. rewrite E. apply sqrt_0.
Qed.


Lemma normalize_row_nonneg (r : list R) : nonneg r -> nonneg (normalize_row r).
Proof.
  intros H. unfold normalize_row, nonneg. rewrite Forall_map.
  eapply Forall_impl; [|exact H]. simpl. intros x Hx.
  pose proof (handle_zeros_in_scale_pos r).
  apply Rmult_le_pos; [exact Hx|]. left. now apply Rinv_0_lt_compat.
Qed.


Lemma cosine_similarity_nonneg (X K : list (list R)) :
  nonneg_matrix X -> cosine_similarity X = Ok K -> nonneg_matrix K.
Proof.
  intros HX H. apply cosine_similarity_inv in H as (_ & _ & ->).
  unfold nonneg_matrix, normalize, nonneg in *.
  rewrite !Forall_map. rewrite Forall_forall in HX.
  apply Forall_forall. intros a Ha.
  rewrite !Forall_map. apply Forall_forall. intros b Hb.
  apply dot_nonneg; apply normalize_row_nonneg; unfold nonneg; auto.
Qed.

Lemma cosine_similarity_entry (X K : list (list R)) (p q : nat) :
  cosine_similarity X = Ok K -> (p < length X)%nat -> (q < length X)%nat ->
  entry K p q = dot (normalize_row (nth p X [])) (normalize_row (nth q X [])).
Proof.
  intros H Hp Hq. apply cosine_similarity_inv in H as (_ & _ & ->).
  unfold entry, normalize.
  rewrite (nth_map_in _ _ _ [] []) by now rewrite length_map.
  rewrite (nth_map_in _ _ _ [] 0) by now rewrite length_map.
  now rewrite !(nth_map_in _ _ _ [] []).
Qed.

Lemma cosine_similarity_sym (X K : list (list R)) (p q : nat) :
  cosine_similarity X = Ok K -> (p < length X)%nat -> (q < length X)%nat ->
  entry K p q = entry K q p.
Proof.
  intros H Hp Hq.
  rewrite !(cosine_similarity_entry X K) by assumption. apply dot_comm.
Qed.

(** ** Cells by label and by position *)

Lemma wf_row_length (df : DataFrame) (p : nat) :
  wf df -> (p < length (index df))%nat ->
  length (nth p (values df) []) = length (columns df).
Proof.
  intros (_ & _ & Hlen & Hrows) Hp. rewrite Forall_forall in Hrows.
  apply Hrows, nth_In. lia.
Qed.

Lemma cell_nth (df : DataFrame) (p j : nat) :
  wf df -> (p < length (index df))%nat -> (j < length (columns df))%nat ->
  cell df (nth p (index df) 0%Z) (nth j (columns df) 0%Z) = entry (values df) p j.
Proof.
  intros Hwf Hp Hj. pose proof (wf_row_length df p Hwf Hp) as Hrow.
  destruct Hwf as (Hni & Hnc & Hlen & _).
  unfold cell, entry. rewrite (lookup_nth []) by (auto; lia).
  unfold get0. rewrite map_fst_combine, map_snd_combine by lia.
  now rewrite (lookup_nth 0) by (auto; lia).
Qed.

Lemma transpose_nth (n : nat) (V : list (list R)) (j : nat) :
  (j < n)%nat -> nth j (transpose n V) [] = col j V.
Proof.
  intros Hj. unfold transpose.
  rewrite (nth_map_in _ _ _ O) by now rewrite length_seq.
  now rewrite seq_nth.
Qed.

Lemma col_nth (j : nat) (V : list (list R)) (p : nat) :
  (p < length V)%nat -> nth p (col j V) 0 = entry V p j.
Proof. intros Hp. unfold col, entry. now rewrite (nth_map_in _ _ _ []). Qed.

Lemma all_zero_nth (r : list R) :
  all_zero r <-> forall j, (j < length r)%nat -> nth j r 0 = 0.
Proof.
  unfold all_zero. rewrite Forall_nth. split.
  - intros H j Hj. now apply H.
  - intros H j d Hj. rewrite (nth_indep _ d 0) by exact Hj. now apply H.
Qed.

(** A user's row is all zero exactly when each of the user's cells is. *)
Lemma row_all_zero (df : DataFrame) (p : nat) :
  wf df -> (p < length (index df))%nat ->
  (all_zero (nth p (values df) []) <->
   forall i, In i (columns df) -> cell df (nth p (index df) 0%Z) i = 0).
Proof.
  intros Hwf Hp. rewrite all_zero_nth, (wf_row_length df p Hwf Hp). split.
  - intros H i Hi. apply (In_nth _ _ 0%Z) in Hi as (j & Hj & <-).
    rewrite cell_nth by assumption. now apply H.
  - intros H j Hj. fold (entry (values df) p j).
    rewrite <- cell_nth by assumption. apply H, nth_In, Hj.
Qed.

(** An item's column is all zero exactly when each of the item's cells is. *)
Lemma col_all_zero (df : DataFrame) (j : nat) :
  wf df -> (j < length (columns df))%nat ->
  (all_zero (col j (values df)) <->
   forall u, In u (index df) -> cell df u (nth j (columns df) 0%Z) = 0).
Proof.
  intros Hwf Hj. pose proof Hwf as (_ & _ & Hlen & _).
  rewrite all_zero_nth, col_length, Hlen. split.
  - intros H u Hu. apply (In_nth _ _ 0%Z) in Hu as (p & Hp & <-).
    rewrite cell_nth by assumption. rewrite <- col_nth by lia. now apply H.
  - intros H p Hp. rewrite col_nth by lia.
    rewrite <- cell_nth by assumption. apply H, nth_In, Hp.
Qed.

Lemma cosine_similarity_diag (X K : list (list R)) (p : nat) :
  cosine_similarity X = Ok K -> (p < length X)%nat ->
  (all_zero (nth p X []) -> entry K p p = 0) /\
  (~ all_zero (nth p X []) -> entry K p p = 1).
Proof.
  intros H Hp. rewrite (cosine_similarity_entry X K) by assumption.
  apply normalize_row_self.
Qed.

(** A similarity table is well formed over its label list. *)
Lemma similarity_wf (labels : list Z) (X K : list (list R)) :
  NoDup labels -> length X = length labels -> cosine_similarity X = Ok K ->
  wf (mkDF labels labels K).
Proof.
  intros Hnd Hlen H. apply cosine_similarity_shape in H as [H1 H2].
  unfold wf. simpl. repeat split; try assumption; [lia|].
  eapply Forall_impl; [|exact H2]. simpl. intros. lia.
Qed.

(** C5: in the matrix [compute_user_similarity] returns, the diagonal entry
    of a user with a nonzero rating is 1 and that of a user whose row is
    all zero is 0; likewise for [compute_item_similarity] and the item
    columns; and on a table with a user and an item both return a matrix,
    zero rows and columns included. *)
Theorem similarity_diagonal cf :
  let m := collaborative.user_item_matrix cf in
  wf m ->
  returns (fun sim => forall u, In u (index m) ->
             ((exists i, In i (columns m) /\ cell m u i <> 0) ->
              cell sim u u = 1) /\
             ((forall i, In i (columns m) -> cell m u i = 0) ->
              cell sim u u = 0))
    (collaborative.compute_user_similarity cf) /\
  returns (fun sim => forall i, In i (columns m) ->
             ((exists u, In u (index m) /\ cell m u i <> 0) ->
              cell sim i i = 1) /\
             ((forall u, In u (index m) -> cell m u i = 0) ->
              cell sim i i = 0))
    (collaborative.compute_item_similarity cf) /\
  (index m <> [] -> columns m <> [] ->
   (exists r, collaborative.compute_user_similarity cf = Ok r) /\
   (exists r, collaborative.compute_item_similarity cf = Ok r)).
Proof.
  intros m Hwf. pose proof Hwf as (Hni & Hnc & Hlen & Hrows).
  split; [|split].
  - unfold collaborative.compute_user_similarity. fold m.
    destruct (cosine_similarity (values m)) as [K|] eqn:EK; simpl; [|exact I].
    intros u Hu. apply (In_nth _ _ 0%Z) in Hu as (p & Hp & <-).
    pose proof (similarity_wf _ _ _ Hni Hlen EK) as HwfS.
    pose proof (cell_nth (mkDF (index m) (index m) K) p p HwfS Hp Hp) as Hc.
    simpl in Hc. rewrite Hc. clear Hc.
    destruct (cosine_similarity_diag _ _ p EK) as [H0 H1]; [lia|].
    rewrite (row_all_zero m p Hwf Hp) in H0, H1. split.
    + intros (i & Hi & Hne). apply H1. intros H. apply Hne. now apply H.
    + exact H0.
  - unfold collaborative.compute_item_similarity. fold m.
    destruct (cosine_similarity _) as [K|] eqn:EK; simpl; [|exact I].
    intros i Hi. apply (In_nth _ _ 0%Z) in Hi as (j & Hj & <-).
    pose proof (similarity_wf (columns m) _ _ Hnc (transpose_length _ _) EK)
      as HwfS.
    pose proof (cell_nth (mkDF (columns m) (columns m) K) j j HwfS Hj Hj) as Hc.
    simpl in Hc. rewrite Hc. clear Hc.
    destruct (cosine_similarity_diag _ _ j EK) as [H0 H1];
      [now rewrite transpose_length|].
    rewrite transpose_nth in H0, H1 by assumption.
    rewrite (col_all_zero m j Hwf Hj) in H0, H1. split.
    + intros (u & Hu & Hne). apply H1. intros H. apply Hne. now apply H.
    + exact H0.
  - intros Hi Hc. split.
    + destruct (ensure_user_similarity_total
                  (collaborative.mkCF m None None) Hwf Hi Hc) as [r Hr].
      unfold collaborative.ensure_user_similarity in Hr. simpl in Hr.
      unfold collaborative.compute_user_similarity in *. simpl in Hr. fold m.
      destruct (cosine_similarity (values m)); simpl in *; [eauto|easy].
    + destruct (ensure_item_similarity_total
                  (collaborative.mkCF m None None) Hwf Hi Hc) as [r Hr].
      unfold collaborative.ensure_item_similarity in Hr. simpl in Hr.
      unfold collaborative.compute_item_similarity in *. simpl in Hr. fold m.
      destruct (cosine_similarity _); simpl in *; [eauto|easy].
Qed.

(** ** Non-negative tables *)

Lemma nth_nonneg (r : list R) (j : nat) : nonneg r -> 0 <= nth j r 0.
Proof.
  intros H. destruct (Nat.lt_ge_cases j (length r)) as [Hj|Hj].
  - unfold nonneg in H. rewrite Forall_forall in H. now apply H, nth_In.
  - rewrite nth_overflow by exact Hj. lra.
Qed.

Lemma col_nonneg (j : nat) (V : list (list R)) :
  nonneg_matrix V -> nonneg (col j V).
Proof.
  intros H. unfold col, nonneg. rewrite Forall_map.
  eapply Forall_impl; [|exact H]. intros row. apply nth_nonneg.
Qed.


Lemma combine_nonneg (ks : list Z) (vs : list R) :
  nonneg vs -> nonneg_series (combine ks vs).
Proof.
  intros H. apply Forall_forall. intros [k v] Hin.
  apply in_combine_r in Hin. unfold nonneg in H. rewrite Forall_forall in H.
  now apply H.
Qed.

Lemma get0_nonneg (s : Series) (l : Z) : nonneg_series s -> 0 <= get0 s l.
Proof.
  intros H. unfold get0.
  destruct (lookup l (map fst s) (map snd s)) as [v|] eqn:E; [|lra].
  apply lookup_Some_In in E as [_ E]. apply in_map_iff in E as (p & <- & Hp).
  unfold nonneg_series in H. rewrite Forall_forall in H. now apply H.
Qed.

Lemma reindex_fillna0_nonneg (s : Series) (labels : list Z) :
  nonneg_series s -> nonneg (map snd (reindex_fillna0 s labels)).
Proof.
  intros H. unfold reindex_fillna0, nonneg. rewrite !Forall_map.
  apply Forall_forall. intros l _. simpl. now apply get0_nonneg.
Qed.

Lemma drop_nonneg (s d : Series) (l : Z) :
  nonneg_series s -> drop s l = Ok d -> nonneg_series d.
Proof.
  unfold drop. intros H. destruct (existsb _ s); [|easy].
  intros E. injection E as <-. unfold nonneg_series in *.
  rewrite Forall_forall in *. intros p Hp. apply filter_In in Hp as [Hp _]. auto.
Qed.

Lemma mask_eq0_incl (s ratings : Series) (p : Z * R) :
  In p (mask_eq0 s ratings) -> In p s.
Proof.
  intros H. apply mask_eq0_In in H as (q & H & _).
  now apply in_combine_l in H.
Qed.

(** What the ranking keeps comes from the series it ranks. *)
Lemma ranked_incl {QS : Argsort} {QSOk : ArgsortOk QS}
    (s ratings : Series) (top_n : Z) (p : Z * R) :
  In p (head top_n (sort_values_desc (mask_eq0 s ratings))) -> In p s.
Proof.
  intros H. apply head_In in H.
  apply (Permutation_in _ (sort_values_desc_perm _)) in H.
  now apply mask_eq0_incl in H.
Qed.


Lemma Rsum_abs_nonneg (row : list R) : 0 <= Rsum (map Rabs row).
Proof.
  apply Rsum_nonneg. unfold nonneg. rewrite Forall_map.
  apply Forall_forall. intros x _. apply Rabs_pos.
Qed.


Lemma user_similarity_nonneg cf sim cf' :
  nonneg_matrix (values (collaborative.user_item_matrix cf)) ->
  user_cache_ok cf ->
  collaborative.ensure_user_similarity cf = Ok (sim, cf') ->
  nonneg_matrix (values sim).
Proof.
  intros Hnn Hc H.
  destruct (ensure_user_similarity_inv _ _ _ Hc H) as (K & HK & -> & _).
  simpl. eapply cosine_similarity_nonneg; eauto.
Qed.










(** ** Matrices by position *)

Lemma entry_transpose (n : nat) (W : list (list R)) (p j : nat) :
  (p < n)%nat -> (j < length W)%nat ->
  entry (transpose n W) p j = entry W j p.
Proof.
  intros Hp Hj. unfold entry at 1. rewrite transpose_nth by exact Hp.
  now apply col_nth.
Qed.

Lemma map_nth_seq (l : list R) :
  map (fun i => nth i l 0) (seq 0 (length l)) = l.
Proof.
  apply (nth_ext _ _ 0 0).
  - now rewrite length_map, length_seq.
  - intros i Hi. rewrite length_map, length_seq in Hi.
    rewrite (nth_map_in _ _ _ O) by now rewrite length_seq.
    now rewrite seq_nth.
Qed.

(** Column [p] of the transpose is row [p]. *)
Lemma col_transpose (c : nat) (V : list (list R)) (p : nat) :
  (p < length V)%nat -> length (nth p V []) = c ->
  col p (transpose c V) = nth p V [].
Proof.
  intros Hp Hc. unfold col, transpose. rewrite map_map.
  rewrite <- (map_nth_seq (nth p V [])). rewrite Hc.
  apply map_ext. intros i. now apply col_nth.
Qed.

Lemma entry_matmul (A B : list (list R)) (m a j : nat) :
  (a < length A)%nat -> (j < m)%nat ->
  entry (matmul A m B) a j = dot (nth a A []) (col j B).
Proof.
  intros Ha Hj. unfold entry, matmul.
  rewrite (nth_map_in _ _ _ []) by exact Ha.
  rewrite (nth_map_in _ _ _ O) by now rewrite length_seq.
  now rewrite seq_nth.
Qed.

Lemma fill_diagonal0_length (a : list (list R)) :
  length (fill_diagonal0 a) = length a.
Proof.
  unfold fill_diagonal0.
  now rewrite length_map, length_combine, length_seq, Nat.min_id.
Qed.

Lemma fill_diagonal0_row (a : list (list R)) (p : nat) :
  (p < length a)%nat ->
  nth p (fill_diagonal0 a) [] =
  map (fun jx => if Nat.eq_dec p (fst jx) then 0 else snd jx)
    (combine (seq 0 (length (nth p a []))) (nth p a [])).
Proof.
  intros Hp. unfold fill_diagonal0.
  rewrite (nth_map_in _ _ _ (O, [])) by
    now rewrite length_combine, length_seq, Nat.min_id.
  rewrite combine_nth by now rewrite length_seq.
  rewrite seq_nth by exact Hp. reflexivity.
Qed.

Lemma fill_diagonal0_entry (a : list (list R)) (p q : nat) :
  (p < length a)%nat -> (q < length (nth p a []))%nat ->
  entry (fill_diagonal0 a) p q = if Nat.eq_dec p q then 0 else entry a p q.
Proof.
  intros Hp Hq. unfold entry. rewrite fill_diagonal0_row by exact Hp.
  rewrite (nth_map_in _ _ _ (O, 0)) by
    now rewrite length_combine, length_seq, Nat.min_id.
  rewrite combine_nth by now rewrite length_seq.
  rewrite seq_nth by exact Hq. reflexivity.
Qed.

Lemma fill_diagonal0_row_length (a : list (list R)) (p : nat) :
  (p < length a)%nat ->
  length (nth p (fill_diagonal0 a) []) = length (nth p a []).
Proof.
  intros Hp. rewrite fill_diagonal0_row by exact Hp.
  now rewrite length_map, length_combine, length_seq, Nat.min_id.
Qed.

Lemma where_eq0_length (w t : list (list R)) :
  length w = length t -> length (where_eq0 w t) = length t.
Proof.
  intros H. unfold where_eq0. rewrite length_map, length_combine. lia.
Qed.

Lemma where_eq0_row (w t : list (list R)) (p : nat) :
  length w = length t -> (p < length t)%nat ->
  nth p (where_eq0 w t) [] =
  map (fun x => if Req_dec_T (snd x) 0 then fst x else 0)
    (combine (nth p w []) (nth p t [])).
Proof.
  intros Hlen Hp. unfold where_eq0.
  rewrite (nth_map_in _ _ _ ([], [])) by (rewrite length_combine; lia).
  now rewrite combine_nth by exact Hlen.
Qed.

Lemma where_eq0_entry (w t : list (list R)) (p j : nat) :
  length w = length t -> (p < length t)%nat ->
  length (nth p w []) = length (nth p t []) ->
  (j < length (nth p t []))%nat ->
  entry (where_eq0 w t) p j =
  if Req_dec_T (entry t p j) 0 then entry w p j else 0.
Proof.
  intros Hlen Hp Hrow Hj. unfold entry. rewrite where_eq0_row by assumption.
  rewrite (nth_map_in _ _ _ (0, 0)) by (rewrite length_combine; lia).
  now rewrite combine_nth by exact Hrow.
Qed.

Lemma get_loc_nth (ks : list Z) (p : nat) :
  NoDup ks -> (p < length ks)%nat -> get_loc (nth p ks 0%Z) ks = Some p.
Proof.
  revert p. induction ks as [|k ks IH]; intros p Hnd Hp; simpl in *; [lia|].
  inversion Hnd as [|? ? Hk Hnd']; subst. destruct p as [|p].
  - now destruct (Z.eq_dec k k).
  - destruct (Z.eq_dec (nth p ks 0%Z) k) as [E|_].
    + exfalso. apply Hk. rewrite <- E. apply nth_In. lia.
    + rewrite IH; [reflexivity|assumption|lia].
Qed.

Lemma get0_combine_nth (ks : list Z) (vs : list R) (q : nat) :
  NoDup ks -> length ks = length vs -> (q < length ks)%nat ->
  get0 (combine ks vs) (nth q ks 0%Z) = nth q vs 0.
Proof.
  intros Hnd Hlen Hq. unfold get0.
  rewrite map_fst_combine, map_snd_combine by exact Hlen.
  now rewrite (lookup_nth 0).
Qed.

Lemma get0_drop (s : Series) (u l : Z) :
  get0 (filter (fun x => negb (Z.eqb (fst x) u)) s) l =
  if Z.eq_dec l u then 0 else get0 s l.
Proof.
  unfold get0. induction s as [|[k v] s IH]; simpl.
  - now destruct (Z.eq_dec l u).
  - destruct (Z.eqb_spec k u) as [->|Hku]; simpl.
    + rewrite IH. destruct (Z.eq_dec l u) as [->|Hlu]; [reflexivity|].
      now destruct (Z.eq_dec l u).
    + destruct (Z.eq_dec l k) as [->|Hlk].
      * now destruct (Z.eq_dec k u).
      * exact IH.
Qed.

(** The rows the users look up are the rows by position. *)
Lemma lookup_row_nth (df : DataFrame) (p : nat) :
  wf df -> (p < length (index df))%nat ->
  lookup (nth p (index df) 0%Z) (index df) (values df) =
  Some (nth p (values df) []).
Proof.
  intros (Hnd & _ & Hlen & _) Hp. apply lookup_nth; auto; lia.
Qed.

(** A series reindexed on its own labels is the series. *)
Lemma reindex_own_labels (ks : list Z) (vs : list R) :
  NoDup ks -> length ks = length vs ->
  map snd (reindex_fillna0 (combine ks vs) ks) = vs.
Proof.
  intros Hnd Hlen. unfold reindex_fillna0. rewrite map_map. simpl.
  apply (nth_ext _ _ 0 0); [rewrite length_map; exact Hlen|].
  intros q Hq. rewrite length_map in Hq.
  rewrite (nth_map_in _ _ _ 0%Z) by exact Hq.
  now apply get0_combine_nth.
Qed.

(** ** The single-user path, by position *)

Lemma map_snd_apply {A : Type} (h : R -> R) (ks : list A) (vs : list R) :
  map (fun p => (fst p, h (snd p))) (combine ks vs) = combine ks (map h vs).
Proof.
  revert vs. induction ks as [|k ks IH]; intros [|v vs]; simpl; try easy.
  now rewrite IH.
Qed.

(** The similarity column of a user, without the user's own entry and
    spread over the row index, is the user's row of the similarity matrix
    with its diagonal entry zeroed. *)
Lemma similar_users_aligned_row (idx : list Z) (X K : list (list R)) (p : nat) :
  NoDup idx -> length X = length idx -> cosine_similarity X = Ok K ->
  (p < length idx)%nat ->
  map snd
    (reindex_fillna0
       (filter (fun x => negb (Z.eqb (fst x) (nth p idx 0%Z)))
          (combine idx (col p K))) idx)
  = nth p (fill_diagonal0 K) [].
Proof.
  intros Hnd Hlen HK Hp.
  pose proof (cosine_similarity_shape _ _ HK) as [HKlen HKrows].
  assert (Hrow : length (nth p K []) = length idx).
  { rewrite Forall_forall in HKrows. rewrite (HKrows (nth p K [])); [lia|].
    apply nth_In. lia. }
  unfold reindex_fillna0. rewrite map_map. simpl.
  apply (nth_ext _ _ 0 0).
  - rewrite length_map, fill_diagonal0_row_length by lia. now symmetry.
  - intros q Hq. rewrite length_map in Hq.
    rewrite (nth_map_in _ _ _ 0%Z) by exact Hq.
    rewrite get0_drop.
    fold (entry (fill_diagonal0 K) p q).
    rewrite fill_diagonal0_entry by lia.
    destruct (Z.eq_dec (nth q idx 0%Z) (nth p idx 0%Z)) as [E|Hne].
    + apply NoDup_nth in E; try assumption. subst q.
      now destruct (Nat.eq_dec p p).
    + destruct (Nat.eq_dec p q) as [->|Hpq]; [easy|].
      rewrite get0_combine_nth by (rewrite ?col_length; auto; lia).
      rewrite col_nth by lia.
      apply (cosine_similarity_sym X K); auto; lia.
Qed.

Lemma predicted_user_based_by_position cf sim cf' (p : nat) :
  let m := collaborative.user_item_matrix cf in
  wf m -> user_cache_ok cf ->
  collaborative.ensure_user_similarity cf = Ok (sim, cf') ->
  (p < length (index m))%nat ->
  collaborative.predicted_user_based cf (nth p (index m) 0%Z) =
  Ok (mask_eq0
        (combine (columns m)
           (map (user_prediction (values m) (values sim) p)
              (seq 0 (length (columns m)))))
        (combine (columns m) (nth p (values m) [])),
      cf').
Proof.
  intros m Hwf Hc Hs Hp.
  destruct (ensure_user_similarity_inv _ _ _ Hc Hs) as (K & HK & -> & _).
  fold m in HK |- *. pose proof Hwf as (Hni & Hnc & Hlen & Hrows).
  pose proof (cosine_similarity_shape _ _ HK) as [HKlen _].
  unfold collaborative.predicted_user_based. rewrite Hs. simpl. fold m.
  unfold loc. rewrite lookup_row_nth by assumption. simpl.
  unfold getitem. simpl. rewrite get_loc_nth by assumption. simpl.
  unfold drop. rewrite existsb_label;
    [|rewrite col_length; lia|apply nth_In; exact Hp]. simpl.
  unfold T_dot.
  rewrite (similar_users_aligned_row _ _ _ _ Hni Hlen HK Hp).
  rewrite (map_snd_apply
             (fun w => w / (Rsum (nth p (fill_diagonal0 K) []) + eps))).
  unfold transpose. rewrite !map_map. reflexivity.
Qed.

(** ** The batched path, by position *)

Lemma predict_all_user_by_position ev cf sim cf' :
  let m := collaborative.user_item_matrix cf in
  evaluation.train_matrix ev = m ->
  wf m -> user_cache_ok cf ->
  collaborative.ensure_user_similarity cf = Ok (sim, cf') ->
  exists W,
    evaluation.predict_all_user ev cf =
      Ok (mkDF (index m) (columns m) (where_eq0 W (values m)), cf') /\
    length W = length (index m) /\
    (forall p, (p < length (index m))%nat ->
       length (nth p W []) = length (columns m) /\
       forall j, (j < length (columns m))%nat ->
         entry W p j = user_prediction (values m) (values sim) p j).
Proof.
  intros m Hev Hwf Hc Hs.
  destruct (ensure_user_similarity_inv _ _ _ Hc Hs) as (K & HK & -> & _).
  fold m in HK. pose proof Hwf as (Hni & Hnc & Hlen & Hrows).
  pose proof (cosine_similarity_shape _ _ HK) as [HKlen HKrows].
  unfold evaluation.predict_all_user. rewrite Hs, Hev. simpl. fold m.
  eexists. split; [reflexivity|].
  set (n := length (index m)). set (c := length (columns m)).
  set (S0 := fill_diagonal0 K).
  split; [apply transpose_length|].
  intros p Hp. split.
  - rewrite transpose_nth by exact Hp.
    unfold matmul. now rewrite col_length, !length_map, transpose_length.
  - intros j Hj.
    rewrite entry_transpose;
      [|exact Hp|unfold matmul; now rewrite !length_map, transpose_length].
    assert (HS0 : length S0 = n) by (unfold S0; rewrite fill_diagonal0_length; lia).
    assert (HS0row : length (nth p S0 []) = n).
    { unfold S0. rewrite fill_diagonal0_row_length by lia.
      rewrite Forall_forall in HKrows. rewrite (HKrows (nth p K [])); [lia|].
      apply nth_In. lia. }
    unfold entry at 1.
    rewrite (nth_map_in _ _ _ []) by
      (unfold matmul; now rewrite length_map, transpose_length).
    assert (Hprow : length (nth j (matmul (transpose c (values m)) n
                                     (transpose n S0)) []) = n).
    { unfold matmul. rewrite (nth_map_in _ _ _ []) by
        now rewrite transpose_length.
      now rewrite length_map, length_seq. }
    rewrite (nth_map_in _ _ _ (0, 0)) by
      (rewrite length_combine, Hprow, length_map, HS0; lia).
    rewrite combine_nth by (rewrite Hprow, length_map, HS0; lia).
    simpl. fold (entry (matmul (transpose c (values m)) n (transpose n S0)) j p).
    rewrite entry_matmul by (rewrite ?transpose_length; lia).
    rewrite transpose_nth by exact Hj.
    rewrite col_transpose by (try exact HS0row; lia).
    rewrite (nth_map_in _ _ _ []) by lia.
    reflexivity.
Qed.

Lemma combine_ratio {A : Type} (f g : list R -> R) (ks : list A)
    (K : list (list R)) :
  map (fun x => (fst (fst x), snd (fst x) / snd x))
    (combine (combine ks (map f K)) (map g K))
  = combine ks (map (fun row => f row / g row) K).
Proof.
  revert K. induction ks as [|k ks IH]; intros [|row K]; simpl; try easy.
  now rewrite IH.
Qed.

Lemma map_by_position {B : Type} (h : list R -> B) (K : list (list R)) :
  map h K = map (fun j => h (nth j K [])) (seq 0 (length K)).
Proof.
  induction K as [|row K IH]; simpl; [reflexivity|].
  f_equal. rewrite <- seq_shift, map_map. exact IH.
Qed.

Lemma predicted_item_based_by_position cf sim cf' (p : nat) :
  let m := collaborative.user_item_matrix cf in
  wf m -> item_cache_ok cf ->
  collaborative.ensure_item_similarity cf = Ok (sim, cf') ->
  (p < length (index m))%nat ->
  collaborative.predicted_item_based cf (nth p (index m) 0%Z) =
  Ok (mask_eq0
        (combine (columns m)
           (map (item_prediction (values m) (values sim) p)
              (seq 0 (length (columns m)))))
        (combine (columns m) (nth p (values m) [])),
      cf').
Proof.
  intros m Hwf Hc Hs Hp.
  destruct (ensure_item_similarity_inv _ _ _ Hc Hs) as (K & HK & -> & _).
  fold m in HK |- *. pose proof Hwf as (Hni & Hnc & Hlen & Hrows).
  pose proof (cosine_similarity_shape _ _ HK) as [HKlen _].
  rewrite transpose_length in HKlen.
  pose proof (wf_row_length m p Hwf Hp) as Hrow.
  unfold collaborative.predicted_item_based. rewrite Hs. simpl. fold m.
  unfold loc. rewrite lookup_row_nth by assumption. simpl.
  unfold df_dot. simpl.
  rewrite reindex_own_labels by (auto; lia).
  rewrite (combine_ratio (fun row => dot row (nth p (values m) []))
             (fun row => Rsum (map Rabs row) + eps)).
  rewrite (map_by_position _ K), HKlen. reflexivity.
Qed.

Lemma predict_all_item_by_position ev cf sim cf' :
  let m := collaborative.user_item_matrix cf in
  evaluation.train_matrix ev = m ->
  wf m -> item_cache_ok cf ->
  collaborative.ensure_item_similarity cf = Ok (sim, cf') ->
  exists W,
    evaluation.predict_all_item ev cf =
      Ok (mkDF (index m) (columns m) (where_eq0 W (values m)), cf') /\
    length W = length (index m) /\
    (forall p, (p < length (index m))%nat ->
       length (nth p W []) = length (columns m) /\
       forall j, (j < length (columns m))%nat ->
         entry W p j = item_prediction (values m) (values sim) p j).
Proof.
  intros m Hev Hwf Hc Hs.
  destruct (ensure_item_similarity_inv _ _ _ Hc Hs) as (K & HK & -> & _).
  fold m in HK. pose proof Hwf as (Hni & Hnc & Hlen & Hrows).
  pose proof (cosine_similarity_shape _ _ HK) as [HKlen _].
  rewrite transpose_length in HKlen.
  unfold evaluation.predict_all_item. rewrite Hs, Hev. simpl. fold m.
  eexists. split; [reflexivity|].
  set (n := length (index m)). set (c := length (columns m)).
  set (product := matmul K n (transpose c (values m))).
  set (den := map (fun row => Rsum (map Rabs row) + eps) K).
  assert (Hprod : length product = c)
    by (unfold product, matmul; now rewrite length_map).
  assert (Hden : length den = c) by (unfold den; now rewrite length_map).
  split; [apply transpose_length|].
  intros p Hp. split.
  - rewrite transpose_nth by exact Hp.
    rewrite col_length, length_map, length_combine. lia.
  - intros j Hj.
    rewrite entry_transpose;
      [|exact Hp|rewrite length_map, length_combine; lia].
    unfold entry at 1.
    rewrite (nth_map_in _ _ _ ([], 0)) by (rewrite length_combine; lia).
    rewrite combine_nth by lia. simpl.
    assert (Hprow : length (nth j product []) = n).
    { unfold product, matmul. rewrite (nth_map_in _ _ _ []) by lia.
      now rewrite length_map, length_seq. }
    rewrite (nth_map_in _ _ _ 0) by lia.
    fold (entry product j p). unfold product.
    rewrite entry_matmul by lia.
    rewrite col_transpose by (try apply wf_row_length; auto; lia).
    unfold den. rewrite (nth_map_in _ _ _ []) by lia.
    reflexivity.
Qed.

(** ** The two paths agree *)

Lemma mask_eq0_by_position (s t : Series) (x : Z * R) :
  length s = length t ->
  (In x (mask_eq0 s t) <->
   exists j, (j < length s)%nat /\ nth j s (0%Z, 0) = x /\
             snd (nth j t (0%Z, 0)) = 0).
Proof.
  intros Hlen. unfold mask_eq0. rewrite in_map_iff. split.
  - intros ([x' q] & <- & H). apply filter_In in H as [H Hq]. simpl in *.
    apply (In_nth _ _ ((0%Z, 0), (0%Z, 0))) in H as (j & Hj & Hn).
    rewrite combine_nth in Hn by exact Hlen. injection Hn as <- <-.
    rewrite length_combine in Hj. exists j. repeat split; [lia|].
    now destruct (Req_dec_T _ 0).
  - intros (j & Hj & <- & Hq). exists (nth j s (0%Z, 0), nth j t (0%Z, 0)).
    split; [reflexivity|]. apply filter_In. split.
    + rewrite <- combine_nth by exact Hlen. apply nth_In.
      rewrite length_combine. lia.
    + simpl. now destruct (Req_dec_T _ 0).
Qed.

Lemma batch_cell_matches (m : DataFrame) (W : list (list R)) (p : nat)
    (pred : nat -> R) :
  wf m -> length W = length (index m) ->
  (forall q, (q < length (index m))%nat ->
     length (nth q W []) = length (columns m)) ->
  (p < length (index m))%nat ->
  (forall j, (j < length (columns m))%nat -> entry W p j = pred j) ->
  let P := mkDF (index m) (columns m) (where_eq0 W (values m)) in
  let s := mask_eq0
             (combine (columns m) (map pred (seq 0 (length (columns m)))))
             (combine (columns m) (nth p (values m) [])) in
  let u := nth p (index m) 0%Z in
  forall i, In i (columns m) ->
    (cell m u i <> 0 -> cell P u i = 0) /\
    (forall r, In (i, r) s -> r = cell P u i) /\
    (cell m u i = 0 -> In (i, cell P u i) s).
Proof.
  intros Hwf HW HWrows Hp Hpred P s u i Hi.
  pose proof Hwf as (Hni & Hnc & Hlen & Hrows).
  assert (HwfP : wf P).
  { unfold wf, P. simpl. repeat split; try assumption.
    - rewrite where_eq0_length; lia.
    - apply Forall_nth. intros q d Hq.
      rewrite where_eq0_length in Hq by lia.
      rewrite (nth_indep _ d []) by (rewrite where_eq0_length; lia).
      rewrite where_eq0_row by lia.
      rewrite length_map, length_combine, HWrows by lia.
      rewrite (wf_row_length m q Hwf) by lia. lia. }
  assert (Hcell : forall j, (j < length (columns m))%nat ->
            cell P u (nth j (columns m) 0%Z) =
            if Req_dec_T (entry (values m) p j) 0 then pred j else 0).
  { intros j Hj.
    pose proof (cell_nth P p j HwfP Hp Hj) as Hc. simpl in Hc.
    unfold u. rewrite Hc.
    rewrite where_eq0_entry; rewrite ?HWrows, ?(wf_row_length m p Hwf);
      try lia.
    now rewrite Hpred. }
  pose proof (wf_row_length m p Hwf Hp) as Hrow.
  assert (Hs : forall x, In x s <->
            exists j, (j < length (columns m))%nat /\
                      x = (nth j (columns m) 0%Z, pred j) /\
                      entry (values m) p j = 0).
  { intros x. unfold s. rewrite mask_eq0_by_position
      by (rewrite !length_combine, length_map, length_seq; lia).
    rewrite length_combine, length_map, length_seq, Nat.min_id.
    split; intros (j & Hj & H1 & H2); exists j; (split; [exact Hj|]).
    - rewrite combine_nth in H1, H2 by
        (rewrite ?length_map, ?length_seq; lia).
      simpl in H2. rewrite (nth_map_in _ _ _ O) in H1 by
        now rewrite length_seq.
      rewrite seq_nth in H1 by exact Hj. split; [now symmetry|exact H2].
    - rewrite !combine_nth by (rewrite ?length_map, ?length_seq; lia).
      simpl. rewrite (nth_map_in _ _ _ O) by now rewrite length_seq.
      rewrite seq_nth by exact Hj. split; [now symmetry|exact H2]. }
  apply (In_nth _ _ 0%Z) in Hi as (j & Hj & <-).
  unfold u. rewrite (cell_nth m p j Hwf Hp Hj). fold u.
  rewrite (Hcell j Hj). repeat split.
  - intros Hne. now destruct (Req_dec_T (entry (values m) p j) 0).
  - intros r Hr. apply Hs in Hr as (j' & Hj' & E & Hz).
    injection E as E ->. apply NoDup_nth in E; try assumption. subst j'.
    now destruct (Req_dec_T (entry (values m) p j) 0).
  - intros Hz. destruct (Req_dec_T (entry (values m) p j) 0); [|easy].
    apply Hs. exists j. auto.
Qed.

Lemma head_all {A : Type} (n : Z) (l : list A) :
  (Z.of_nat (length l) <= n)%Z -> head n l = l.
Proof.
  intros H. unfold head. destruct (Z.leb_spec 0 n); [|lia].
  apply firstn_all2. lia.
Qed.

Lemma mask_eq0_length (s t : Series) :
  (length (mask_eq0 s t) <= length s)%nat.
Proof.
  unfold mask_eq0. rewrite length_map.
  etransitivity; [apply filter_length_le|]. rewrite length_combine. lia.
Qed.

(** With [top_n] at least the number of columns the ranking keeps every
    entry of the masked series. *)
Lemma ranked_all {QS : Argsort} {QSOk : ArgsortOk QS}
    (cols : list Z) (vals : list R) (t : Series) (top_n : Z)
    (x : Z * R) :
  (Z.of_nat (length cols) <= top_n)%Z ->
  In x (mask_eq0 (combine cols vals) t) ->
  In x (head top_n (sort_values_desc (mask_eq0 (combine cols vals) t))).
Proof.
  intros Hn Hx. rewrite head_all.
  - apply (Permutation_in _ (Permutation_sym (sort_values_desc_perm _))), Hx.
  - rewrite (Permutation_length (sort_values_desc_perm _)).
    pose proof (mask_eq0_length (combine cols vals) t) as H.
    rewrite length_combine in H. lia.
Qed.

Lemma predict_all_user_agrees {QS : Argsort} {QSOk : ArgsortOk QS} ev cf :
  let m := collaborative.user_item_matrix cf in
  evaluation.train_matrix ev = m -> wf m -> user_cache_ok cf ->
  returns (fun P => agrees m P (collaborative.recommend_user_based cf))
    (evaluation.predict_all_user ev cf).
Proof.
  intros m Hev Hwf Hc.
  destruct (collaborative.ensure_user_similarity cf) as [[sim cf']|e] eqn:Es.
  - destruct (predict_all_user_by_position ev cf sim cf' Hev Hwf Hc Es)
      as (W & -> & HW & HWp).
    simpl. intros u i Hu Hi.
    apply (In_nth _ _ 0%Z) in Hu as (p & Hp & <-).
    pose proof (predicted_user_based_by_position cf sim cf' p Hwf Hc Es Hp)
      as Hsingle. fold m in Hsingle.
    destruct (batch_cell_matches m W p
                (user_prediction (values m) (values sim) p) Hwf HW
                (fun q Hq => proj1 (HWp q Hq)) Hp (proj2 (HWp p Hp)) i Hi)
      as (Ha & Hb & Hc').
    split; [exact Ha|]. split.
    + intros top_n. unfold collaborative.recommend_user_based.
      rewrite Hsingle. simpl. intros r Hr. apply Hb.
      apply head_In in Hr.
      now apply (Permutation_in _ (sort_values_desc_perm _)) in Hr.
    + intros Hz top_n Htop. unfold collaborative.recommend_user_based.
      rewrite Hsingle. simpl. eexists. eexists. split; [reflexivity|].
      apply ranked_all; [exact Htop|]. now apply Hc'.
  - unfold evaluation.predict_all_user. rewrite Es. exact I.
Qed.

Lemma predict_all_item_agrees {QS : Argsort} {QSOk : ArgsortOk QS} ev cf :
  let m := collaborative.user_item_matrix cf in
  evaluation.train_matrix ev = m -> wf m -> item_cache_ok cf ->
  returns (fun P => agrees m P (collaborative.recommend_item_based cf))
    (evaluation.predict_all_item ev cf).
Proof.
  intros m Hev Hwf Hc.
  destruct (collaborative.ensure_item_similarity cf) as [[sim cf']|e] eqn:Es.
  - destruct (predict_all_item_by_position ev cf sim cf' Hev Hwf Hc Es)
      as (W & -> & HW & HWp).
    simpl. intros u i Hu Hi.
    apply (In_nth _ _ 0%Z) in Hu as (p & Hp & <-).
    pose proof (predicted_item_based_by_position cf sim cf' p Hwf Hc Es Hp)
      as Hsingle. fold m in Hsingle.
    destruct (batch_cell_matches m W p
                (item_prediction (values m) (values sim) p) Hwf HW
                (fun q Hq => proj1 (HWp q Hq)) Hp (proj2 (HWp p Hp)) i Hi)
      as (Ha & Hb & Hc').
    split; [exact Ha|]. split.
    + intros top_n. unfold collaborative.recommend_item_based.
      rewrite Hsingle. simpl. intros r Hr. apply Hb.
      apply head_In in Hr.
      now apply (Permutation_in _ (sort_values_desc_perm _)) in Hr.
    + intros Hz top_n Htop. unfold collaborative.recommend_item_based.
      rewrite Hsingle. simpl. eexists. eexists. split; [reflexivity|].
      apply ranked_all; [exact Htop|]. now apply Hc'.
  - unfold evaluation.predict_all_item. rewrite Es. exact I.
Qed.

(** C1: over a train table, the table [predict_all] returns for method
    "user" agrees with [recommend_user_based], and the one for method
    "item" with [recommend_item_based]: at a cell the user rated the
    table holds 0, and at any other cell it holds the rating the
    single-user path predicts for that user and item.  On a table with a
    user and an item [predict_all] returns for both methods. *)
Theorem predict_all_agrees_with_single_user {QS : Argsort} {QSOk : ArgsortOk QS}
    ev cf :
  let m := collaborative.user_item_matrix cf in
  evaluation.train_matrix ev = m -> wf m ->
  user_cache_ok cf -> item_cache_ok cf ->
  returns (fun P => agrees m P (collaborative.recommend_user_based cf))
    (evaluation.predict_all ev cf "user") /\
  returns (fun P => agrees m P (collaborative.recommend_item_based cf))
    (evaluation.predict_all ev cf "item") /\
  (index m <> [] -> columns m <> [] ->
   (exists r, evaluation.predict_all ev cf "user" = Ok r) /\
   (exists r, evaluation.predict_all ev cf "item" = Ok r)).
Proof.
  intros m Hev Hwf Hcu Hci. split; [|split].
  - now apply predict_all_user_agrees.
  - now apply predict_all_item_agrees.
  - intros Hi Hc. split.
    + destruct (ensure_user_similarity_total cf Hwf Hi Hc) as [[sim cf'] Hs].
      destruct (predict_all_user_by_position ev cf sim cf' Hev Hwf Hcu Hs)
        as (W & HW & _). unfold evaluation.predict_all. simpl. eauto.
    + destruct (ensure_item_similarity_total cf Hwf Hi Hc) as [[sim cf'] Hs].
      destruct (predict_all_item_by_position ev cf sim cf' Hev Hwf Hci Hs)
        as (W & HW & _). unfold evaluation.predict_all. simpl. eauto.
Qed.

(** ** The split as a plan applied to the tables *)

Lemma split_loop_plan {B64 : Binary64} {RS : RandomState}
    (orig : DataFrame) (ratio : R)
    (users : list Z) (tr te : DataFrame) (g : state) :
  evaluation.split_loop orig ratio users (tr, te, g) =
  (pg <- split_plan orig ratio users g ;;
   Ok (apply_plan (fst pg) (tr, te), snd pg)).
Proof.
  revert tr te g. induction users as [|u users IH]; intros tr te g; simpl.
  - reflexivity.
  - unfold evaluation.split_user, plan_step. simpl.
    destruct (loc orig u) as [row|e]; simpl; [|reflexivity].
    destruct (choice g _ _) as [[items g']|e]; simpl; [|reflexivity].
    rewrite IH. destruct (split_plan orig ratio users g') as [[plan g'']|e];
      simpl; reflexivity.
Qed.

Lemma split_plan_rows {B64 : Binary64} {RS : RandomState}
    (orig : DataFrame) (ratio : R)
    (users : list Z) (g g' : state) (plan : Plan) :
  split_plan orig ratio users g = Ok (plan, g') -> plan_rows orig plan.
Proof.
  revert g plan. induction users as [|u users IH]; intros g plan H; simpl in H.
  - injection H as <- _. constructor.
  - unfold plan_step in H.
    destruct (loc orig u) as [row|e] eqn:El; simpl in H; [|easy].
    destruct (choice g _ _) as [[items g1]|e]; simpl in H; [|easy].
    destruct (split_plan orig ratio users g1) as [[plan1 g2]|e] eqn:Ep;
      simpl in H; [|easy].
    injection H as <- <-. constructor; [exact El|]. eapply IH, Ep.
Qed.

(** ** Writing cells *)

Lemma lookup_map_combine {A B : Type} (F : Z * A -> B) (k : Z) (ks : list Z)
    (vs : list A) :
  lookup k ks (map F (combine ks vs)) =
  option_map (fun v => F (k, v)) (lookup k ks vs).
Proof.
  revert vs. induction ks as [|k' ks IH]; intros [|v vs]; simpl; try easy.
  destruct (Z.eq_dec k k') as [->|Hne]; [reflexivity|apply IH].
Qed.

Lemma get0_combine (ks : list Z) (vs : list R) (k : Z) :
  length ks = length vs ->
  get0 (combine ks vs) k =
  match lookup k ks vs with Some v => v | None => 0 end.
Proof.
  intros H. unfold get0. now rewrite map_fst_combine, map_snd_combine.
Qed.

Lemma set_cells_wf (df : DataFrame) (u : Z) (items : list Z) (v : Z -> R) :
  wf df -> wf (set_cells df u items v).
Proof.
  intros (Hni & Hnc & Hlen & Hrows). unfold wf, set_cells. simpl.
  repeat split; try assumption.
  - rewrite length_map, length_combine. lia.
  - rewrite Forall_map. apply Forall_forall. intros [l row] Hin.
    apply in_combine_r in Hin. rewrite Forall_forall in Hrows.
    specialize (Hrows _ Hin). simpl.
    destruct (Z.eq_dec l u); [|exact Hrows].
    rewrite length_map, length_combine. lia.
Qed.

Lemma cell_set_cells (df : DataFrame) (u : Z) (items : list Z) (v : Z -> R)
    (u' i : Z) :
  wf df -> In i (columns df) ->
  cell (set_cells df u items v) u' i =
  if Z.eq_dec u' u
  then if in_dec Z.eq_dec i items
       then match lookup u' (index df) (values df) with
            | Some _ => v i
            | None => 0
            end
       else cell df u' i
  else cell df u' i.
Proof.
  intros Hwf Hi. unfold cell, set_cells. simpl.
  rewrite lookup_map_combine.
  destruct (lookup u' (index df) (values df)) as [row|] eqn:Erow; simpl.
  - pose proof (lookup_row_length _ _ _ Hwf Erow) as Hrow.
    destruct (Z.eq_dec u' u) as [_|_]; [|reflexivity].
    rewrite get0_combine by (rewrite length_map, length_combine; lia).
    rewrite lookup_map_combine, get0_combine by lia.
    destruct (lookup_In_Some i (columns df) row) as [x ->]; [lia|exact Hi|].
    simpl. reflexivity.
  - now destruct (Z.eq_dec u' u), (in_dec Z.eq_dec i items).
Qed.

Lemma apply_plan_wf (plan : Plan) (tr te : DataFrame) :
  wf tr -> wf te ->
  wf (fst (apply_plan plan (tr, te))) /\ wf (snd (apply_plan plan (tr, te))).
Proof.
  revert tr te. induction plan as [|e plan IH]; intros tr te Htr Hte; simpl.
  - auto.
  - apply IH; apply set_cells_wf; assumption.
Qed.

Lemma apply_plan_labels (plan : Plan) (tr te : DataFrame) :
  index (fst (apply_plan plan (tr, te))) = index tr /\
  columns (fst (apply_plan plan (tr, te))) = columns tr /\
  index (snd (apply_plan plan (tr, te))) = index te /\
  columns (snd (apply_plan plan (tr, te))) = columns te.
Proof.
  revert tr te. induction plan as [|e plan IH]; intros tr te; simpl.
  - auto.
  - exact (IH (set_cells tr (fst (fst e)) (snd (fst e)) (fun _ => 0))
              (set_cells te (fst (fst e)) (snd (fst e)) (get0 (snd e)))).
Qed.

(** A cell the plan draws holds 0 in the train table and the source value
    in the test table; any other cell is as it was. *)
Lemma apply_plan_cell (orig : DataFrame) (plan : Plan) (tr te : DataFrame)
    (u i : Z) :
  wf tr -> wf te -> plan_rows orig plan ->
  index tr = index orig -> index te = index orig ->
  length (values tr) = length (values orig) ->
  columns tr = columns orig -> columns te = columns orig ->
  In u (index orig) -> In i (columns orig) ->
  cell (fst (apply_plan plan (tr, te))) u i =
    (if touched plan u i then 0 else cell tr u i) /\
  cell (snd (apply_plan plan (tr, te))) u i =
    (if touched plan u i then cell orig u i else cell te u i).
Proof.
  intros Htr Hte Hrows Hitr Hite Hltr Hctr Hcte Hu Hi.
  revert tr te Htr Hte Hitr Hite Hltr Hctr Hcte.
  induction Hrows as [|[[u0 items] row] plan Hrow Hrows IH];
    intros tr te Htr Hte Hitr Hite Hltr Hctr Hcte; simpl.
  - auto.
  - simpl in Hrow.
    change (apply_entry (tr, te) (u0, items, row))
      with (set_cells tr u0 items (fun _ => 0),
            set_cells te u0 items (get0 row)).
    destruct (IH (set_cells tr u0 items (fun _ => 0))
                 (set_cells te u0 items (get0 row)))
      as [H1 H2]; try (apply set_cells_wf; assumption); try assumption.
    { unfold set_cells. simpl. rewrite length_map, length_combine.
      destruct Htr as (_ & _ & Hl & _). lia. }
    rewrite H1, H2. clear H1 H2 IH.
    rewrite !cell_set_cells by (try assumption; congruence).
    destruct (touched plan u i); [rewrite orb_true_r; auto|].
    rewrite orb_false_r.
    destruct (Z.eqb_spec u0 u) as [->|Hne].
    + destruct (Z.eq_dec u u) as [_|]; [|easy].
      destruct (in_dec Z.eq_dec i items); simpl; [|auto].
      destruct Htr as (_ & _ & Hltr' & _). destruct Hte as (_ & _ & Hlte & _).
      destruct (lookup_In_Some u (index tr) (values tr)) as [rt ->];
        [lia|congruence|].
      destruct (lookup_In_Some u (index te) (values te)) as [rs ->];
        [lia|congruence|].
      split; [reflexivity|].
      unfold loc in Hrow. unfold cell.
      destruct (lookup u (index orig) (values orig)); [|easy].
      now injection Hrow as <-.
    + destruct (Z.eq_dec u u0) as [E|_]; [now subst|]. simpl. auto.
Qed.

(** ** The fresh evaluator *)

Lemma zeros_wf (m : DataFrame) (ratio : R) (rs : Z) :
  wf m -> wf (evaluation.test_matrix (evaluation.init m ratio rs)).
Proof.
  intros (Hni & Hnc & _ & _). unfold wf. simpl. repeat split; try assumption.
  - now rewrite length_map.
  - rewrite Forall_map. apply Forall_forall. intros u _.
    now rewrite length_map.
Qed.

Lemma zeros_cell (m : DataFrame) (ratio : R) (rs u i : Z) :
  cell (evaluation.test_matrix (evaluation.init m ratio rs)) u i = 0.
Proof.
  unfold cell. simpl.
  destruct (lookup u _ _) as [row|] eqn:E; [|reflexivity].
  apply lookup_Some_In in E as [_ E]. apply in_map_iff in E as (u' & <- & _).
  unfold get0. destruct (lookup i _ _) as [v|] eqn:Ev; [|reflexivity].
  apply lookup_Some_In in Ev as [_ Ev].
  apply in_map_iff in Ev as ([k x] & <- & Hin). apply in_combine_r in Hin.
  now apply in_map_iff in Hin as (c & <- & _).
Qed.

Lemma train_test_split_plan {B64 : Binary64} {RS : RandomState} (g : state)
    (ev : evaluation.Evaluator) :
  evaluation.train_test_split g ev =
  (g0 <- random_seed (evaluation.random_state ev) ;;
   pg <- split_plan (evaluation.user_item_matrix ev) (evaluation.test_ratio ev)
           (index (evaluation.user_item_matrix ev)) g0 ;;
   let tt := apply_plan (fst pg)
               (evaluation.train_matrix ev, evaluation.test_matrix ev) in
   Ok (fst tt, snd tt,
       (evaluation.mkEv (evaluation.user_item_matrix ev) (fst tt) (snd tt)
          (evaluation.test_ratio ev) (evaluation.random_state ev),
        snd pg))).
Proof.
  unfold evaluation.train_test_split.
  destruct (random_seed _) as [g0|e]; simpl; [|reflexivity].
  rewrite split_loop_plan.
  destruct (split_plan _ _ _ _) as [[plan g']|e]; reflexivity.
Qed.

(** After a split of a fresh evaluator each cell of the source table sits
    in exactly one of the two tables, the other holding 0. *)
Lemma split_cells {B64 : Binary64} {RS : RandomState}
    (g : state) (m : DataFrame) (ratio : R)
    (rs : Z) :
  wf m ->
  returns (fun tt => forall u i, In u (index m) -> In i (columns m) ->
             (cell (fst tt) u i = cell m u i /\ cell (snd tt) u i = 0) \/
             (cell (fst tt) u i = 0 /\ cell (snd tt) u i = cell m u i))
    (evaluation.train_test_split g (evaluation.init m ratio rs)).
Proof.
  intros Hwf. rewrite train_test_split_plan. simpl.
  destruct (random_seed rs) as [g0|e0]; simpl; [|exact I].
  destruct (split_plan m ratio (index m) g0) as [[plan g']|e] eqn:Ep;
    simpl; [|exact I].
  intros u i Hu Hi.
  pose proof (split_plan_rows _ _ _ _ _ _ Ep) as Hrows.
  destruct (apply_plan_cell m plan m
              (evaluation.test_matrix (evaluation.init m ratio rs)) u i)
    as [H1 H2]; try assumption; try reflexivity; [now apply zeros_wf|].
  simpl in H1, H2. rewrite H1, H2.
  destruct (touched plan u i); [right|left]; split; try reflexivity.
  apply (zeros_cell m ratio rs).
Qed.

(** ** When the split returns *)

Lemma random_seed_Ok {RS : RandomState} (s : Z) :
  (0 <= s <= 4294967295)%Z -> random_seed s = Ok (seed s).
Proof.
  intros H. unfold random_seed.
  destruct (Z.leb_spec 0 s), (Z.leb_spec s 4294967295); simpl; try lia.
  reflexivity.
Qed.

Lemma random_seed_refused {RS : RandomState} (s : Z) :
  ~ (0 <= s <= 4294967295)%Z -> random_seed s = Raise ValueError.
Proof.
  intros H. unfold random_seed.
  destruct (Z.leb_spec 0 s), (Z.leb_spec s 4294967295); simpl; try lia;
    reflexivity.
Qed.

Lemma py_int_bound (n : nat) (x : R) :
  0 <= x <= INR n -> (0 < n)%nat ->
  (Z.max 1 (py_int x) <= Z.of_nat n)%Z.
Proof.
  intros [H0 H1] Hn.
  unfold py_int. destruct (Rle_dec 0 x) as [_|Hneg]; [|easy].
  destruct (base_Int_part x) as [Hle _].
  assert (Hlt : IZR (Int_part x) <= IZR (Z.of_nat n)).
  { rewrite <- INR_IZR_INZ. lra. }
  apply le_IZR in Hlt. lia.
Qed.

(** The rounded product of a length with a ratio between 0 and 1 stays
    between 0 and the length. *)
Lemma fl_scale_bound {B64 : Binary64} {B64Ok : Binary64Ok B64} (n : nat)
    (ratio : R) :
  0 < ratio < 1 -> (Z.of_nat n <= 2 ^ 53)%Z ->
  0 <= fl (fl (INR n) * ratio) <= INR n.
Proof.
  intros [H0 H1] Hn.
  assert (Hfix : fl (INR n) = INR n).
  { rewrite INR_IZR_INZ. apply fl_integer. lia. }
  assert (Hpos : 0 <= INR n) by apply pos_INR.
  rewrite Hfix. split.
  - rewrite <- (fl_integer 0%Z) by lia. apply fl_monotone. nra.
  - rewrite <- Hfix at 2. apply fl_monotone. nra.
Qed.

Lemma n_test_bound {B64 : Binary64} {B64Ok : Binary64Ok B64} (ratio : R)
    (rated : list Z) :
  0 < ratio < 1 -> rated <> [] -> (Z.of_nat (length rated) <= 2 ^ 53)%Z ->
  (1 <= evaluation.n_test ratio rated <= length rated)%nat.
Proof.
  intros Hr Hne Hlen53. unfold evaluation.n_test.
  assert (Hlen : (0 < length rated)%nat)
    by (destruct rated; simpl; [easy|lia]).
  pose proof (py_int_bound (length rated) _
                (fl_scale_bound (length rated) ratio Hr Hlen53) Hlen).
  lia.
Qed.

Lemma rated_items_length (cols : list Z) (row : list R) :
  (length (evaluation.rated_items (combine cols row)) <= length cols)%nat.
Proof.
  unfold evaluation.rated_items. rewrite length_map.
  etransitivity; [apply filter_length_le|].
  rewrite length_combine. lia.
Qed.

Lemma n_test_pos {B64 : Binary64} (ratio : R) (rated : list Z) :
  (1 <= evaluation.n_test ratio rated)%nat.
Proof. unfold evaluation.n_test. lia. Qed.

Lemma choice_Ok {RS : RandomState} (g : state) (a : list Z) (size : nat) :
  a <> [] -> (size <= length a)%nat -> exists r, choice g a size = Ok r.
Proof.
  intros Ha Hs. unfold choice.
  destruct a as [|x a]; [easy|]. simpl length.
  replace (S (length a) =? 0)%nat with false by reflexivity. simpl andb.
  destruct (Nat.ltb_spec (S (length a)) size); [simpl in Hs; lia|eauto].
Qed.

Lemma choice_empty {RS : RandomState} (g : state) (size : nat) :
  (1 <= size)%nat -> choice g [] size = Raise ValueError.
Proof.
  intros Hs. unfold choice. simpl.
  destruct size; [lia|reflexivity].
Qed.

Lemma lookup_Some_pair {A : Type} (k : Z) (ks : list Z) (vs : list A) (v : A) :
  lookup k ks vs = Some v -> In (k, v) (combine ks vs).
Proof.
  revert vs. induction ks as [|k' ks IH]; intros [|v' vs] H; simpl in *;
    try easy.
  destruct (Z.eq_dec k k') as [->|Hne].
  - injection H as ->. now left.
  - right. now apply IH.
Qed.

(** A user with a positive cell has a rated item. *)
Lemma rated_items_nonempty (m : DataFrame) (u i : Z) (row : list R) :
  wf m -> lookup u (index m) (values m) = Some row -> 0 < cell m u i ->
  evaluation.rated_items (combine (columns m) row) <> [].
Proof.
  intros Hwf Hrow Hpos. unfold cell in Hpos. rewrite Hrow in Hpos.
  rewrite get0_combine in Hpos
    by (symmetry; eapply lookup_row_length; eauto).
  destruct (lookup i (columns m) row) as [v|] eqn:Ev; [|lra].
  apply lookup_Some_pair in Ev. unfold evaluation.rated_items.
  intros Hnil. apply map_eq_nil in Hnil.
  assert (Hin : In (i, v) (filter
            (fun p : Z * R => if Rlt_dec 0 (snd p) then true else false)
            (combine (columns m) row))).
  { apply filter_In. split; [exact Ev|]. simpl.
    now destruct (Rlt_dec 0 v). }
  rewrite Hnil in Hin. exact Hin.
Qed.

Lemma split_plan_total {B64 : Binary64} {B64Ok : Binary64Ok B64}
    {RS : RandomState} (m : DataFrame) (ratio : R)
    (users : list Z) (g : state) :
  wf m -> 0 < ratio < 1 -> (Z.of_nat (length (columns m)) <= 2 ^ 53)%Z ->
  (forall u, In u users ->
     In u (index m) /\ exists i, In i (columns m) /\ 0 < cell m u i) ->
  exists r, split_plan m ratio users g = Ok r.
Proof.
  intros Hwf Hr H53. revert g. induction users as [|u users IH]; intros g Hu.
  - simpl. eauto.
  - simpl. destruct (Hu u (or_introl eq_refl)) as (Hin & i & Hi & Hpos).
    pose proof Hwf as (_ & _ & Hlen & _).
    destruct (lookup_In_Some u (index m) (values m)) as [row Hrow];
      [lia|exact Hin|].
    unfold plan_step, loc. rewrite Hrow. simpl.
    pose proof (rated_items_nonempty m u i row Hwf Hrow Hpos) as Hne.
    destruct (choice_Ok g _ (evaluation.n_test ratio
                (evaluation.rated_items (combine (columns m) row))) Hne)
      as [[items g'] ->].
    { apply n_test_bound; try assumption.
      pose proof (rated_items_length (columns m) row). lia. }
    simpl. destruct (IH g') as [[plan g''] ->]; [|simpl; eauto].
    intros u' Hu'. apply Hu. now right.
Qed.

(** C2: after a split of a fresh evaluator, for every user and item the
    train cell and the test cell are not both nonzero, the source cell is
    nonzero exactly when one of them is, and a nonzero cell of either holds
    the source value.  With a seed NumPy accepts and [0 < test_ratio < 1]
    the split returns on every table in which each user has a positive
    rating (the number of columns is one a float holds exactly). *)
Theorem split_partitions {B64 : Binary64} {B64Ok : Binary64Ok B64}
    {RS : RandomState} (g : state) (m : DataFrame)
    (ratio : R) (rs : Z) :
  wf m ->
  returns (fun tt => forall u i, In u (index m) -> In i (columns m) ->
             (cell (fst tt) u i = 0 \/ cell (snd tt) u i = 0) /\
             (cell m u i <> 0 <->
              cell (fst tt) u i <> 0 \/ cell (snd tt) u i <> 0) /\
             (cell (fst tt) u i <> 0 -> cell (fst tt) u i = cell m u i) /\
             (cell (snd tt) u i <> 0 -> cell (snd tt) u i = cell m u i))
    (evaluation.train_test_split g (evaluation.init m ratio rs)) /\
  ((0 <= rs <= 4294967295)%Z -> 0 < ratio < 1 ->
   (Z.of_nat (length (columns m)) <= 2 ^ 53)%Z ->
   (forall u, In u (index m) -> exists i, In i (columns m) /\ 0 < cell m u i) ->
   exists r, evaluation.train_test_split g (evaluation.init m ratio rs) = Ok r).
Proof.
  intros Hwf. split.
  - pose proof (split_cells g m ratio rs Hwf) as H.
    destruct (evaluation.train_test_split g (evaluation.init m ratio rs))
      as [[tt rest]|e]; simpl in *; [|exact I].
    intros u i Hu Hi.
    destruct (H u i Hu Hi) as [[-> ->]|[-> ->]];
      destruct (Req_dec_T (cell m u i) 0); intuition lra.
  - intros Hseed Hr H53 Hrated. rewrite train_test_split_plan. simpl.
    rewrite (random_seed_Ok rs Hseed). simpl.
    destruct (split_plan_total m ratio (index m) (seed rs) Hwf Hr H53)
      as [[plan g'] ->]; [|simpl; eauto].
    intros u Hu. split; [exact Hu|]. now apply Hrated.
Qed.

(** ** A user without a rated item *)

Lemma choice_raises {RS : RandomState} (g : state) (a : list Z) (size : nat)
    (e : exn) :
  choice g a size = Raise e -> e = ValueError.
Proof.
  unfold choice. destruct (_ && _); [now intros [= <-]|].
  destruct (_ <? _)%nat; [now intros [= <-]|easy].
Qed.

Lemma split_plan_unrated_raises {B64 : Binary64} {RS : RandomState}
    (m : DataFrame) (ratio : R)
    (users : list Z) (g : state) (u : Z) (row : list R) :
  length (values m) = length (index m) ->
  (forall u', In u' users -> In u' (index m)) ->
  In u users -> lookup u (index m) (values m) = Some row ->
  evaluation.rated_items (combine (columns m) row) = [] ->
  split_plan m ratio users g = Raise ValueError.
Proof.
  intros Hlen Hsub Hu Hrow Hnone. revert g.
  induction users as [|u0 users IH]; intros g; [easy|]. simpl.
  destruct (lookup_In_Some u0 (index m) (values m)) as [row0 Hrow0];
    [lia|apply Hsub; now left|].
  unfold plan_step, loc. rewrite Hrow0. simpl.
  destruct (choice g _ _) as [[items g']|e] eqn:Ec; simpl.
  - destruct (Z.eq_dec u0 u) as [->|Hne].
    + rewrite Hrow in Hrow0. injection Hrow0 as <-.
      rewrite Hnone, choice_empty in Ec by apply n_test_pos. easy.
    + rewrite IH; [reflexivity| |].
      * intros u' Hu'. apply Hsub. now right.
      * destruct Hu as [E|Hu]; [easy|exact Hu].
  - now rewrite (choice_raises _ _ _ _ Ec).
Qed.

(** C7, the code at a table with an unrated user: user 2 of
    [unrated_user_table] has no rating, and the split raises [ValueError]
    for any generator instead of leaving the user's rows as they are. *)
Theorem split_unrated_user_raises {B64 : Binary64} {RS : RandomState}
    (g : state) :
  evaluation.train_test_split g (evaluation.init unrated_user_table 0.2 42)
  = Raise ValueError.
Proof.
  rewrite train_test_split_plan.
  rewrite random_seed_Ok by (simpl; lia). cbn [bind].
  rewrite (split_plan_unrated_raises unrated_user_table 0.2 _ _ 2%Z [0; 0]);
    try reflexivity.
  - auto.
  - simpl. auto.
  - unfold evaluation.rated_items. simpl.
    destruct (Rlt_dec 0 0) as [H|_]; [lra|reflexivity].
Qed.

(** ** Two runs *)

Lemma df_ext (a b : DataFrame) :
  wf a -> wf b -> index a = index b -> columns a = columns b ->
  (forall u i, In u (index a) -> In i (columns a) -> cell a u i = cell b u i) ->
  a = b.
Proof.
  intros Ha Hb Hi Hc Hcell.
  pose proof Ha as (_ & _ & Hla & _). pose proof Hb as (_ & _ & Hlb & _).
  assert (Hv : values a = values b).
  { apply (nth_ext _ _ [] []); [congruence|]. intros p Hp.
    assert (Hpa : (p < length (index a))%nat) by lia.
    assert (Hpb : (p < length (index b))%nat) by congruence.
    apply (nth_ext _ _ 0 0).
    - rewrite (wf_row_length a p Ha Hpa), (wf_row_length b p Hb Hpb).
      congruence.
    - intros j Hj. rewrite (wf_row_length a p Ha Hpa) in Hj.
      change (entry (values a) p j = entry (values b) p j).
      rewrite <- (cell_nth a p j Ha Hpa Hj).
      rewrite <- (cell_nth b p j Hb Hpb) by congruence.
      rewrite <- Hi, <- Hc. apply Hcell; apply nth_In; assumption. }
  destruct a, b. simpl in *. congruence.
Qed.

(** Applying a plan a second time changes nothing. *)
Lemma apply_plan_twice (m : DataFrame) (plan : Plan) (ratio : R) (rs : Z) :
  wf m -> plan_rows m plan ->
  let zeros := evaluation.test_matrix (evaluation.init m ratio rs) in
  apply_plan plan (apply_plan plan (m, zeros)) = apply_plan plan (m, zeros).
Proof.
  intros Hwf Hrows zeros.
  assert (Hz : wf zeros) by now apply zeros_wf.
  destruct (apply_plan plan (m, zeros)) as [tr te] eqn:E1.
  destruct (apply_plan_wf plan m zeros Hwf Hz) as [Htr Hte].
  destruct (apply_plan_labels plan m zeros) as (Li1 & Lc1 & Li2 & Lc2).
  rewrite E1 in Htr, Hte, Li1, Lc1, Li2, Lc2. simpl in *.
  destruct (apply_plan plan (tr, te)) as [tr' te'] eqn:E2.
  destruct (apply_plan_wf plan tr te Htr Hte) as [Htr' Hte'].
  destruct (apply_plan_labels plan tr te) as (Mi1 & Mc1 & Mi2 & Mc2).
  rewrite E2 in Htr', Hte', Mi1, Mc1, Mi2, Mc2. simpl in *.
  f_equal; apply df_ext; try assumption; try congruence.
  - intros u i Hu Hi.
    destruct (apply_plan_cell m plan tr te u i) as [H1 _];
      try assumption; try congruence.
    { destruct Htr as (_ & _ & H & _). destruct Hwf as (_ & _ & H' & _).
      congruence. }
    rewrite E2 in H1. simpl in H1. rewrite H1.
    destruct (apply_plan_cell m plan m zeros u i) as [H2 _];
      try assumption; try reflexivity; try congruence.
    rewrite E1 in H2. simpl in H2.
    destruct (touched plan u i); congruence.
  - intros u i Hu Hi.
    destruct (apply_plan_cell m plan tr te u i) as [_ H1];
      try assumption; try congruence.
    { destruct Htr as (_ & _ & H & _). destruct Hwf as (_ & _ & H' & _).
      congruence. }
    rewrite E2 in H1. simpl in H1. rewrite H1.
    destruct (apply_plan_cell m plan m zeros u i) as [_ H2];
      try assumption; try reflexivity; try congruence.
    rewrite E1 in H2. simpl in H2.
    destruct (touched plan u i); congruence.
Qed.

(** C9: the tables of a split do not depend on the state the global
    generator is in when the split starts, so two runs on the same table,
    ratio and seed return the same train and test tables; and a second run
    on the evaluator the first run leaves behind returns them again. *)
Theorem split_reproducible {B64 : Binary64} {RS : RandomState}
    (g1 g2 : state) (m : DataFrame) (ratio : R) (rs : Z) :
  wf m ->
  evaluation.train_test_split g1 (evaluation.init m ratio rs) =
  evaluation.train_test_split g2 (evaluation.init m ratio rs) /\
  (forall train test ev' g',
     evaluation.train_test_split g1 (evaluation.init m ratio rs)
       = Ok (train, test, (ev', g')) ->
     evaluation.train_test_split g2 ev' = Ok (train, test, (ev', g'))).
Proof.
  intros Hwf. split; [reflexivity|].
  intros train test ev' g'. rewrite !train_test_split_plan. simpl.
  destruct (random_seed rs) as [g0|e0] eqn:Es; simpl; [|easy].
  destruct (split_plan m ratio (index m) g0) as [[plan g'']|e] eqn:Ep;
    simpl; [|easy].
  intros H. injection H as <- <- <- <-. simpl. rewrite Es. simpl.
  rewrite Ep. simpl.
  pose proof (apply_plan_twice m plan ratio rs Hwf
                (split_plan_rows _ _ _ _ _ _ Ep)) as Htwice.
  simpl in Htwice.
  match type of Htwice with _ = ?X => set (A := X) in * end.
  rewrite <- (surjective_pairing A), Htwice.
  clearbody A. now destruct A.
Qed.

(** ** The score *)

Lemma check_array_raises {A : Type} (X : list (list A)) (e : exn) :
  check_array X = Raise e -> e = ValueError.
Proof. destruct X as [|[|? ?] ?]; simpl; congruence. Qed.

Lemma assert_all_finite_raises (X : list (list (option R))) (e : exn) :
  assert_all_finite X = Raise e -> e = ValueError.
Proof. unfold assert_all_finite. destruct (forallb _ X); congruence. Qed.

Lemma mean_squared_error_raises (yt yp : list (list (option R))) (e : exn) :
  mean_squared_error yt yp = Raise e -> e = ValueError.
Proof.
  unfold mean_squared_error. intros H.
  destruct (negb _); [congruence|].
  destruct (check_array yt) as [t0|e0] eqn:E0; simpl in H;
    [|apply check_array_raises in E0; congruence].
  destruct (assert_all_finite t0) as [t|e1] eqn:E1; simpl in H;
    [|apply assert_all_finite_raises in E1; congruence].
  destruct (check_array yp) as [p0|e2] eqn:E2; simpl in H;
    [|apply check_array_raises in E2; congruence].
  destruct (assert_all_finite p0) as [p|e3] eqn:E3; simpl in H;
    [|apply assert_all_finite_raises in E3; congruence].
  destruct (negb _); congruence.
Qed.

Lemma mask_gt0_nan (x t : list (list R)) :
  length x = length t ->
  Forall2 (fun xr tr => length xr = length tr) x t ->
  Exists (Exists (fun v => ~ 0 < v)) t ->
  forallb (forallb (fun c : option R =>
                      match c with Some _ => true | None => false end))
    (mask_gt0 x t) = false.
Proof.
  intros _ Hshape. induction Hshape as [|xr tr x t Hrow _ IH]; intros Hex.
  - inversion Hex.
  - unfold mask_gt0. simpl. apply andb_false_iff.
    inversion Hex as [? ? Hhere|? ? Hlater]; subst.
    + left. clear -Hrow Hhere. revert xr Hrow.
      induction Hhere as [v tr Hv|v tr _ IHr]; intros [|a xr] Hrow;
        simpl in *; try lia.
      * destruct (Rlt_dec 0 v); [easy|reflexivity].
      * destruct (Rlt_dec 0 v); simpl; [|reflexivity].
        apply IHr. lia.
    + right. now apply IH.
Qed.

Lemma mask_aligned (X T : list (list R)) :
  map (fun xt =>
         map (fun p => match snd p with
                       | Some v => if Rlt_dec 0 v then Some (fst p) else None
                       | None => None
                       end)
           (combine (fst xt) (snd xt)))
    (combine X (map (map Some) T))
  = mask_gt0 X T.
Proof.
  unfold mask_gt0. revert T.
  induction X as [|xr X IH]; intros [|tr T]; simpl; try reflexivity.
  f_equal; [|apply IH]. clear. revert tr.
  induction xr as [|a xr IHr]; intros [|b tr]; simpl; try reflexivity.
  now rewrite IHr.
Qed.

(** On tables with the same labels the mask is applied position by
    position. *)
Lemma where_gt0_same_labels (x t : DataFrame) :
  index x = index t -> columns x = columns t ->
  where_gt0 x t = mask_gt0 (values x) (values t).
Proof.
  intros Hi Hc. unfold where_gt0, align, align_rows, align_columns.
  destruct (list_eq_dec Z.eq_dec (index x) (index t)); [|contradiction].
  destruct (list_eq_dec Z.eq_dec (columns x) (columns t)); [|contradiction].
  rewrite map_map. apply mask_aligned.
Qed.

(** Whenever the test table has a cell that is not positive, the score
    fails: the mask leaves NaN in that cell of the test table, and the
    error routine refuses NaN. *)
Lemma compute_rmse_nan (ev : evaluation.Evaluator) (predictions : DataFrame) :
  Exists (Exists (fun v => ~ 0 < v)) (values (evaluation.test_matrix ev)) ->
  evaluation.compute_rmse ev predictions = Raise ValueError.
Proof.
  intros Hex. unfold evaluation.compute_rmse.
  rewrite (where_gt0_same_labels (evaluation.test_matrix ev)
             (evaluation.test_matrix ev)) by reflexivity.
  destruct (mean_squared_error _ _) as [v|e] eqn:E; simpl.
  - exfalso. unfold mean_squared_error in E.
    destruct (negb _); [easy|].
    destruct (check_array (mask_gt0 _ _)) as [t0|] eqn:Ec; simpl in E; [|easy].
    assert (Ht0 : t0 = mask_gt0 (values (evaluation.test_matrix ev))
                         (values (evaluation.test_matrix ev))).
    { unfold check_array in Ec.
      destruct (mask_gt0 _ _) as [|[|? ?] ?]; try easy. now injection Ec. }
    subst t0. unfold assert_all_finite in E at 1.
    rewrite mask_gt0_nan in E; [easy|reflexivity| |exact Hex].
    clear. induction (values (evaluation.test_matrix ev)); constructor; auto.
  - now rewrite (mean_squared_error_raises _ _ _ E).
Qed.

(** C6, the code at an evaluator after a split: the predictions match the
    one held-out rating, and the score is not 0 but a [ValueError]. *)
Theorem compute_rmse_after_split_raises :
  evaluation.compute_rmse held_out_evaluator matching_predictions
  = Raise ValueError.
Proof.
  apply compute_rmse_nan. simpl.
  constructor. apply Exists_cons_tl. constructor. lra.
Qed.

(** A score that is returned is not negative. *)
Lemma compute_rmse_nonneg (ev : evaluation.Evaluator) (predictions : DataFrame)
    (v : R) :
  evaluation.compute_rmse ev predictions = Ok v -> 0 <= v.
Proof.
  unfold evaluation.compute_rmse.
  destruct (mean_squared_error _ _); simpl; [|easy].
  intros [= <-]. apply sqrt_pos.
Qed.

(** ** The theorems at the worked example *)

Lemma counter_rng_ok : RandomStateOk counter_rng.
Proof.
  intros g n. simpl. unfold rotate.
  rewrite Permutation_app_comm. now rewrite firstn_skipn.
Qed.

Lemma predict_all_agrees_with_single_user_witness :
  let cf := collaborative.init example_table in
  let ev := evaluation.init example_table 0.2 42 in
  returns (fun P => agrees example_table P ((@collaborative.recommend_user_based insertion_sort)
       cf))
    (evaluation.predict_all ev cf "user") /\
  returns (fun P => agrees example_table P ((@collaborative.recommend_item_based insertion_sort)
       cf))
    (evaluation.predict_all ev cf "item") /\
  (index example_table <> [] -> columns example_table <> [] ->
   (exists r, evaluation.predict_all ev cf "user" = Ok r) /\
   (exists r, evaluation.predict_all ev cf "item" = Ok r)).
Proof.
  apply (predict_all_agrees_with_single_user
           (evaluation.init example_table 0.2 42)
           (collaborative.init example_table)).
  - reflexivity.
  - wf_example.
  - intros sim H. simpl in H. discriminate.
  - intros sim H. simpl in H. discriminate.
Defined.

Lemma split_partitions_witness :
  returns (fun tt => forall u i,
             In u (index example_table) -> In i (columns example_table) ->
             (cell (fst tt) u i = 0 \/ cell (snd tt) u i = 0) /\
             (cell example_table u i <> 0 <->
              cell (fst tt) u i <> 0 \/ cell (snd tt) u i <> 0) /\
             (cell (fst tt) u i <> 0 ->
              cell (fst tt) u i = cell example_table u i) /\
             (cell (snd tt) u i <> 0 ->
              cell (snd tt) u i = cell example_table u i))
    (@evaluation.train_test_split exact_arithmetic counter_rng O
       (evaluation.init example_table 0.2 42)) /\
  ((0 <= 42 <= 4294967295)%Z -> 0 < 0.2 < 1 ->
   (Z.of_nat (length (columns example_table)) <= 2 ^ 53)%Z ->
   (forall u, In u (index example_table) ->
      exists i, In i (columns example_table) /\ 0 < cell example_table u i) ->
   exists r, @evaluation.train_test_split exact_arithmetic counter_rng O
               (evaluation.init example_table 0.2 42) = Ok r).
Proof.
  apply (@split_partitions exact_arithmetic exact_arithmetic_ok counter_rng O
           example_table 0.2 42).
  wf_example.
Defined.

Lemma similarity_diagonal_witness :
  let cf := collaborative.init example_table in
  let m := example_table in
  returns (fun sim => forall u, In u (index m) ->
             ((exists i, In i (columns m) /\ cell m u i <> 0) ->
              cell sim u u = 1) /\
             ((forall i, In i (columns m) -> cell m u i = 0) ->
              cell sim u u = 0))
    (collaborative.compute_user_similarity cf) /\
  returns (fun sim => forall i, In i (columns m) ->
             ((exists u, In u (index m) /\ cell m u i <> 0) ->
              cell sim i i = 1) /\
             ((forall u, In u (index m) -> cell m u i = 0) ->
              cell sim i i = 0))
    (collaborative.compute_item_similarity cf) /\
  (index m <> [] -> columns m <> [] ->
   (exists r, collaborative.compute_user_similarity cf = Ok r) /\
   (exists r, collaborative.compute_item_similarity cf = Ok r)).
Proof.
  apply (similarity_diagonal (collaborative.init example_table)).
  wf_example.
Defined.

Lemma split_reproducible_witness :
  @evaluation.train_test_split exact_arithmetic counter_rng 0%nat
    (evaluation.init example_table 0.2 42) =
  @evaluation.train_test_split exact_arithmetic counter_rng 7%nat
    (evaluation.init example_table 0.2 42) /\
  (forall train test ev' g',
     @evaluation.train_test_split exact_arithmetic counter_rng 0%nat
       (evaluation.init example_table 0.2 42) = Ok (train, test, (ev', g')) ->
     @evaluation.train_test_split exact_arithmetic counter_rng 7%nat ev'
       = Ok (train, test, (ev', g'))).
Proof.
  apply (@split_reproducible exact_arithmetic counter_rng 0%nat 7%nat
           example_table 0.2 42).
  wf_example.
Defined.


(** ** Concrete runs *)

(** The worked example of the specification: for user 1 both recommenders
    return item 30, the one item the user has not rated. *)
Example worked_example_item_based :
  exists r cf',
    (@collaborative.recommend_item_based insertion_sort)
         (collaborative.init example_table) 1 1
    = Ok ([(30%Z, r)], cf').
Proof.
  eexists. eexists.
  unfold collaborative.recommend_item_based,
    collaborative.predicted_item_based, collaborative.ensure_item_similarity,
    collaborative.compute_item_similarity.
  cbn -[normalize_row dot Rsum]. unfold mask_eq0.
  cbn -[normalize_row dot Rsum]. decide_reals. reflexivity.
Qed.

Example worked_example_user_based :
  exists r cf',
    (@collaborative.recommend_user_based insertion_sort)
         (collaborative.init example_table) 1 1
    = Ok ([(30%Z, r)], cf').
Proof.
  eexists. eexists.
  unfold collaborative.recommend_user_based,
    collaborative.predicted_user_based, collaborative.ensure_user_similarity,
    collaborative.compute_user_similarity.
  cbn -[normalize_row dot Rsum]. unfold mask_eq0.
  cbn -[normalize_row dot Rsum]. decide_reals. reflexivity.
Qed.

Lemma n_test_one {B64 : Binary64} {B64Ok : Binary64Ok B64} (ratio : R)
    (rated : list Z) :
  0 <= ratio -> INR (length rated) * ratio <= 1 ->
  (Z.of_nat (length rated) <= 2 ^ 53)%Z ->
  evaluation.n_test ratio rated = 1%nat.
Proof.
  intros H0 H1 H53. unfold evaluation.n_test, py_int.
  assert (Hfix : fl (INR (length rated)) = INR (length rated)).
  { rewrite INR_IZR_INZ. apply fl_integer. lia. }
  rewrite Hfix.
  assert (Hpos : 0 <= INR (length rated) * ratio).
  { apply Rmult_le_pos; [apply pos_INR|exact H0]. }
  assert (Hlo : 0 <= fl (INR (length rated) * ratio)).
  { rewrite <- (fl_integer 0%Z) by lia. now apply fl_monotone. }
  assert (Hhi : fl (INR (length rated) * ratio) <= 1).
  { rewrite <- (fl_integer 1%Z) by lia. now apply fl_monotone. }
  destruct (Rle_dec 0 _) as [_|H]; [|easy].
  destruct (base_Int_part (fl (INR (length rated) * ratio))) as [Hle _].
  assert (Hlt : IZR (Int_part (fl (INR (length rated) * ratio))) <= IZR 1)
    by lra.
  apply le_IZR in Hlt. lia.
Qed.

(** A split of the worked example with the counting generator: one rating
    per user goes to the test table, and user 3, who has one rating, keeps
    none in the train table. *)
Example split_worked_example {B64 : Binary64} {B64Ok : Binary64Ok B64} :
  exists ev' g',
    @evaluation.train_test_split B64 counter_rng O
      (evaluation.init example_table 0.2 42)
    = Ok (mkDF [1; 2; 3]%Z [10; 20; 30]%Z [[0; 3; 0]; [4; 0; 5]; [0; 0; 0]],
          mkDF [1; 2; 3]%Z [10; 20; 30]%Z [[5; 0; 0]; [0; 2; 0]; [0; 0; 4]],
          (ev', g')).
Proof.
  eexists. eexists.
  unfold evaluation.train_test_split, evaluation.split_loop,
    evaluation.split_user.
  cbn -[evaluation.n_test INR Z.to_nat]. decide_reals.
  rewrite !n_test_one by (simpl; first [lra | lia]).
  cbn. reflexivity.
Qed.

(** With a generator that returns arrangements, the items [choice] draws
    are [size] items of the population. *)
Lemma choice_sample {RS : RandomState} {OK : RandomStateOk RS} (g g' : state)
    (a items : list Z) (size : nat) :
  choice g a size = Ok (items, g') ->
  length items = size /\ incl items a.
Proof.
  unfold choice. destruct (_ && _); [easy|].
  destruct (Nat.ltb_spec (length a) size) as [|Hle]; [easy|].
  intros [= <- _]. pose proof (permutation_ok g (length a)) as Hp. split.
  - rewrite length_map, length_firstn, (Permutation_length Hp), length_seq. lia.
  - intros x Hx. apply in_map_iff in Hx as (i & <- & Hi).
    apply nth_In.
    assert (Hin : In i (fst (permutation g (length a)))).
    { rewrite <- (firstn_skipn size). apply in_or_app. now left. }
    apply (Permutation_in _ Hp) in Hin. apply in_seq in Hin. lia.
Qed.

(** * Further properties of the code *)

(** ** collaborative.py: the similarity tables *)

(** X1: the table [compute_user_similarity] returns is symmetric over the
    users, and the table [compute_item_similarity] returns is symmetric
    over the items. *)
Theorem similarity_symmetric cf :
  wf (collaborative.user_item_matrix cf) ->
  returns (fun sim => forall a b,
             In a (index (collaborative.user_item_matrix cf)) ->
             In b (index (collaborative.user_item_matrix cf)) ->
             cell sim a b = cell sim b a)
    (collaborative.compute_user_similarity cf) /\
  returns (fun sim => forall a b,
             In a (columns (collaborative.user_item_matrix cf)) ->
             In b (columns (collaborative.user_item_matrix cf)) ->
             cell sim a b = cell sim b a)
    (collaborative.compute_item_similarity cf).
Proof.
  intros Hwf. pose proof Hwf as (Hni & Hnc & Hlen & _). split.
  - unfold collaborative.compute_user_similarity.
    destruct (cosine_similarity _) as [K|] eqn:EK; simpl; [|exact I].
    intros a b Ha Hb.
    apply (In_nth _ _ 0%Z) in Ha as (p & Hp & <-).
    apply (In_nth _ _ 0%Z) in Hb as (q & Hq & <-).
    pose proof (similarity_wf _ _ _ Hni Hlen EK) as HwfS.
    pose proof (cell_nth _ p q HwfS Hp Hq) as H1.
    pose proof (cell_nth _ q p HwfS Hq Hp) as H2.
    simpl in H1, H2. rewrite H1, H2.
    apply (cosine_similarity_sym _ _ _ _ EK); lia.
  - unfold collaborative.compute_item_similarity.
    destruct (cosine_similarity _) as [K|] eqn:EK; simpl; [|exact I].
    intros a b Ha Hb.
    apply (In_nth _ _ 0%Z) in Ha as (p & Hp & <-).
    apply (In_nth _ _ 0%Z) in Hb as (q & Hq & <-).
    pose proof (similarity_wf (columns (collaborative.user_item_matrix cf))
                  _ _ Hnc (transpose_length _ _) EK) as HwfS.
    pose proof (cell_nth _ p q HwfS Hp Hq) as H1.
    pose proof (cell_nth _ q p HwfS Hq Hp) as H2.
    simpl in H1, H2. rewrite H1, H2.
    apply (cosine_similarity_sym _ _ _ _ EK); rewrite transpose_length; lia.
Qed.

Lemma similarity_symmetric_witness :
  returns (fun sim => forall a b,
             In a (index example_table) -> In b (index example_table) ->
             cell sim a b = cell sim b a)
    (collaborative.compute_user_similarity (collaborative.init example_table)) /\
  returns (fun sim => forall a b,
             In a (columns example_table) -> In b (columns example_table) ->
             cell sim a b = cell sim b a)
    (collaborative.compute_item_similarity (collaborative.init example_table)).
Proof.
  apply (similarity_symmetric (collaborative.init example_table)).
  wf_example.
Defined.

(** ** collaborative.py: what a recommendation list holds *)

Lemma mask_eq0_nodup (s t : Series) :
  NoDup (map fst s) -> NoDup (map fst (mask_eq0 s t)).
Proof.
  unfold mask_eq0. revert t. induction s as [|x s IH]; intros [|q t] Hnd;
    simpl; try constructor.
  inversion Hnd as [|? ? Hx Hnd']; subst.
  destruct (Req_dec_T (snd q) 0); simpl; [|now apply IH].
  constructor; [|now apply IH].
  intros Hin. apply Hx. apply in_map_iff in Hin as (y & Hy & Hin).
  apply in_map_iff. exists y. split; [exact Hy|].
  apply (mask_eq0_incl s t). exact Hin.
Qed.

Lemma firstn_nodup {A : Type} (k : nat) (l : list A) :
  NoDup l -> NoDup (firstn k l).
Proof.
  intros H. rewrite <- (firstn_skipn k l) in H.
  now apply NoDup_app_remove_r in H.
Qed.

(** The items of a ranked list: no more than asked for, none twice, each a
    column of the table. *)
Lemma ranked_items {QS : Argsort} {QSOk : ArgsortOk QS}
    (cols : list Z) (pred ratings : Series) (top_n : Z) :
  NoDup cols -> map fst pred = cols ->
  let res := head top_n (sort_values_desc (mask_eq0 pred ratings)) in
  ((0 <= top_n)%Z -> (length res <= Z.to_nat top_n)%nat) /\
  NoDup (map fst res) /\ incl (map fst res) cols.
Proof.
  intros Hnd Hl res. subst res. repeat split.
  - intros Hn. unfold head. destruct (Z.leb_spec 0 top_n); [|lia].
    apply firstn_le_length.
  - destruct (head_firstn top_n (sort_values_desc (mask_eq0 pred ratings)))
      as [k ->].
    rewrite <- firstn_map. apply firstn_nodup.
    apply (Permutation_NoDup
             (Permutation_sym (Permutation_map fst (sort_values_desc_perm _)))).
    apply mask_eq0_nodup. now rewrite Hl.
  - intros i Hi. apply in_map_iff in Hi as (p & <- & Hp).
    apply ranked_incl in Hp. rewrite <- Hl. now apply in_map.
Qed.

(** X2: a list either recommender returns has at most [top_n] pairs when
    [top_n] is not negative (none for [top_n = 0]), names no item twice,
    and names only items of the table's column index. *)
Theorem recommend_bounded {QS : Argsort} {QSOk : ArgsortOk QS} cf u top_n :
  wf (collaborative.user_item_matrix cf) ->
  item_cache_ok cf ->
  let cols := columns (collaborative.user_item_matrix cf) in
  let bounded res :=
    ((0 <= top_n)%Z -> (length res <= Z.to_nat top_n)%nat) /\
    NoDup (map fst res) /\ incl (map fst res) cols in
  returns bounded (collaborative.recommend_user_based cf u top_n) /\
  returns bounded (collaborative.recommend_item_based cf u top_n).
Proof.
  intros Hwf Hcache cols bounded. subst bounded cols.
  pose proof Hwf as (_ & Hnd & _). split.
  - unfold collaborative.recommend_user_based.
    destruct (collaborative.predicted_user_based cf u) as [[s cf']|] eqn:E;
      simpl; [|exact I].
    destruct (predicted_user_based_inv _ _ _ _ E) as (pred & row & _ & Hl & ->).
    now apply ranked_items.
  - unfold collaborative.recommend_item_based.
    destruct (collaborative.predicted_item_based cf u) as [[s cf']|] eqn:E;
      simpl; [|exact I].
    destruct (predicted_item_based_inv _ _ _ _ Hwf Hcache E)
      as (pred & row & _ & Hl & ->).
    now apply ranked_items.
Qed.

Lemma recommend_bounded_witness :
  let cols := columns example_table in
  let bounded res :=
    ((0 <= 2)%Z -> (length res <= Z.to_nat 2)%nat) /\
    NoDup (map fst res) /\ incl (map fst res) cols in
  returns bounded
    ((@collaborative.recommend_user_based insertion_sort)
         (collaborative.init example_table) 1 2) /\
  returns bounded
    ((@collaborative.recommend_item_based insertion_sort)
         (collaborative.init example_table) 1 2).
Proof.
  apply (recommend_bounded (collaborative.init example_table) 1 2).
  - wf_example.
  - intros sim H. simpl in H. discriminate.
Defined.

Lemma mask_eq0_labels (cols : list Z) (row : list R) (pred : Series) (i : Z) :
  NoDup cols -> length row = length cols -> map fst pred = cols ->
  (In i (map fst (mask_eq0 pred (combine cols row))) <->
   In i cols /\ get0 (combine cols row) i = 0).
Proof.
  intros Hnd Hrow Hl.
  assert (Hlen : length pred = length cols)
    by (rewrite <- Hl; now rewrite length_map).
  rewrite in_map_iff. split.
  - intros (p & <- & Hp).
    apply mask_eq0_by_position in Hp as (j & Hj & <- & Hz);
      [|rewrite length_combine; lia].
    rewrite combine_nth in Hz by lia. simpl in Hz.
    assert (Hfst : fst (nth j pred (0%Z, 0)) = nth j cols 0%Z).
    { rewrite <- Hl. now rewrite (nth_map_in _ _ _ (0%Z, 0)). }
    rewrite Hfst. split; [apply nth_In; lia|].
    rewrite get0_combine_nth by (auto; lia). exact Hz.
  - intros [Hi Hz]. apply (In_nth _ _ 0%Z) in Hi as (j & Hj & <-).
    exists (nth j pred (0%Z, 0)). split.
    + rewrite <- Hl. now rewrite (nth_map_in _ _ _ (0%Z, 0)) by lia.
    + apply mask_eq0_by_position; [rewrite length_combine; lia|].
      exists j. repeat split; [lia|].
      rewrite combine_nth by lia. simpl.
      rewrite get0_combine_nth in Hz by (auto; lia). exact Hz.
Qed.

(** The items of a full ranking are the unrated items of the row. *)
Lemma ranked_all_unrated {QS : Argsort} {QSOk : ArgsortOk QS}
    (df : DataFrame) (u : Z) (row : list R)
    (pred : Series) (top_n : Z) (i : Z) :
  wf df -> lookup u (index df) (values df) = Some row ->
  map fst pred = columns df ->
  (Z.of_nat (length (columns df)) <= top_n)%Z ->
  (In i (map fst (head top_n (sort_values_desc
                    (mask_eq0 pred (combine (columns df) row))))) <->
   In i (columns df) /\ cell df u i = 0).
Proof.
  intros Hwf Hrow Hl Htop.
  pose proof (lookup_row_length _ _ _ Hwf Hrow) as Hlen.
  destruct Hwf as (_ & Hnd & _ & _).
  rewrite head_all.
  - unfold cell. rewrite Hrow.
    rewrite <- (mask_eq0_labels (columns df) row pred i Hnd Hlen Hl).
    split; apply Permutation_in; [|symmetry];
      apply Permutation_map, sort_values_desc_perm.
  - rewrite (Permutation_length (sort_values_desc_perm _)).
    pose proof (mask_eq0_length pred (combine (columns df) row)) as H.
    assert (length pred = length (columns df))
      by (rewrite <- Hl; now rewrite length_map).
    lia.
Qed.

(** X3: with [top_n] at least the number of columns, the items either
    recommender returns are exactly the items of the table the user has
    not rated. *)
Theorem recommend_all_unrated {QS : Argsort} {QSOk : ArgsortOk QS} cf u top_n :
  wf (collaborative.user_item_matrix cf) ->
  item_cache_ok cf ->
  (Z.of_nat (length (columns (collaborative.user_item_matrix cf))) <= top_n)%Z ->
  let m := collaborative.user_item_matrix cf in
  let exact res :=
    forall i, In i (map fst res) <-> In i (columns m) /\ cell m u i = 0 in
  returns exact (collaborative.recommend_user_based cf u top_n) /\
  returns exact (collaborative.recommend_item_based cf u top_n).
Proof.
  intros Hwf Hcache Htop m exact. subst exact m. split.
  - unfold collaborative.recommend_user_based.
    destruct (collaborative.predicted_user_based cf u) as [[s cf']|] eqn:E;
      simpl; [|exact I].
    destruct (predicted_user_based_inv _ _ _ _ E) as (pred & row & Hr & Hl & ->).
    intros i. now apply ranked_all_unrated.
  - unfold collaborative.recommend_item_based.
    destruct (collaborative.predicted_item_based cf u) as [[s cf']|] eqn:E;
      simpl; [|exact I].
    destruct (predicted_item_based_inv _ _ _ _ Hwf Hcache E)
      as (pred & row & Hr & Hl & ->).
    intros i. now apply ranked_all_unrated.
Qed.

Lemma recommend_all_unrated_witness :
  let m := example_table in
  let exact res :=
    forall i, In i (map fst res) <-> In i (columns m) /\ cell m 1 i = 0 in
  returns exact
    ((@collaborative.recommend_user_based insertion_sort)
         (collaborative.init example_table) 1 3) /\
  returns exact
    ((@collaborative.recommend_item_based insertion_sort)
         (collaborative.init example_table) 1 3).
Proof.
  apply (recommend_all_unrated (collaborative.init example_table) 1 3).
  - wf_example.
  - intros sim H. simpl in H. discriminate.
  - simpl. lia.
Defined.

(** ** collaborative.py: the stored similarity *)

Lemma ensure_user_similarity_stored cf sim cf' :
  collaborative.ensure_user_similarity cf = Ok (sim, cf') ->
  collaborative.ensure_user_similarity cf' = Ok (sim, cf') /\
  collaborative.user_item_matrix cf' = collaborative.user_item_matrix cf /\
  collaborative.user_similarity cf' = Some sim /\
  collaborative.item_similarity cf' = collaborative.item_similarity cf.
Proof.
  unfold collaborative.ensure_user_similarity.
  destruct (collaborative.user_similarity cf) as [s|] eqn:E.
  - intros [= <- <-]. now rewrite E.
  - unfold collaborative.compute_user_similarity.
    destruct (cosine_similarity _) as [K|]; simpl; [|easy].
    intros [= <- <-]. simpl. auto.
Qed.

Lemma ensure_item_similarity_stored cf sim cf' :
  collaborative.ensure_item_similarity cf = Ok (sim, cf') ->
  collaborative.ensure_item_similarity cf' = Ok (sim, cf') /\
  collaborative.user_item_matrix cf' = collaborative.user_item_matrix cf /\
  collaborative.item_similarity cf' = Some sim /\
  collaborative.user_similarity cf' = collaborative.user_similarity cf.
Proof.
  unfold collaborative.ensure_item_similarity.
  destruct (collaborative.item_similarity cf) as [s|] eqn:E.
  - intros [= <- <-]. now rewrite E.
  - unfold collaborative.compute_item_similarity.
    destruct (cosine_similarity _) as [K|]; simpl; [|easy].
    intros [= <- <-]. simpl. auto.
Qed.

Lemma recommend_user_based_state {QS : Argsort} cf u top_n res cf' :
  collaborative.recommend_user_based cf u top_n = Ok (res, cf') ->
  exists sim, collaborative.ensure_user_similarity cf = Ok (sim, cf').
Proof.
  unfold collaborative.recommend_user_based, collaborative.predicted_user_based.
  destruct (collaborative.ensure_user_similarity cf) as [[sim cf1]|];
    [|easy].
  simpl. destruct (loc _ u) as [ur|]; [|easy]. simpl.
  destruct (getitem sim u) as [su|]; [|easy]. simpl.
  destruct (drop su u) as [sd|]; [|easy]. simpl.
  intros [= _ <-]. eauto.
Qed.

Lemma recommend_item_based_state {QS : Argsort} cf u top_n res cf' :
  collaborative.recommend_item_based cf u top_n = Ok (res, cf') ->
  exists sim, collaborative.ensure_item_similarity cf = Ok (sim, cf').
Proof.
  unfold collaborative.recommend_item_based, collaborative.predicted_item_based.
  destruct (collaborative.ensure_item_similarity cf) as [[sim cf1]|];
    [|easy].
  simpl. destruct (loc _ u) as [ur|]; [|easy]. simpl.
  intros [= _ <-]. eauto.
Qed.

(** X4: a call of a recommender that returns leaves the rating table and
    the other similarity as they were and its own similarity stored, and
    from then on every call of that recommender on the object it left, for
    any user and [top_n], gives what the call on the first object gives:
    the similarity is computed once. *)
Theorem recommend_memoizes {QS : Argsort} cf u top_n :
  returns_with (fun _ cf' =>
      collaborative.user_item_matrix cf' = collaborative.user_item_matrix cf /\
      collaborative.item_similarity cf' = collaborative.item_similarity cf /\
      collaborative.user_similarity cf' <> None /\
      forall u2 n2, collaborative.recommend_user_based cf' u2 n2 =
                    collaborative.recommend_user_based cf u2 n2)
    (collaborative.recommend_user_based cf u top_n) /\
  returns_with (fun _ cf' =>
      collaborative.user_item_matrix cf' = collaborative.user_item_matrix cf /\
      collaborative.user_similarity cf' = collaborative.user_similarity cf /\
      collaborative.item_similarity cf' <> None /\
      forall u2 n2, collaborative.recommend_item_based cf' u2 n2 =
                    collaborative.recommend_item_based cf u2 n2)
    (collaborative.recommend_item_based cf u top_n).
Proof.
  split.
  - destruct (collaborative.recommend_user_based cf u top_n)
      as [[res cf']|] eqn:E; simpl; [|exact I].
    destruct (recommend_user_based_state _ _ _ _ _ E) as [sim Es].
    destruct (ensure_user_similarity_stored _ _ _ Es) as (Hs & Hm & Hu & Hi).
    repeat split; try assumption; [congruence|].
    intros u2 n2. unfold collaborative.recommend_user_based,
      collaborative.predicted_user_based. now rewrite Hs, Es, Hm.
  - destruct (collaborative.recommend_item_based cf u top_n)
      as [[res cf']|] eqn:E; simpl; [|exact I].
    destruct (recommend_item_based_state _ _ _ _ _ E) as [sim Es].
    destruct (ensure_item_similarity_stored _ _ _ Es) as (Hs & Hm & Hi & Hu).
    repeat split; try assumption; [congruence|].
    intros u2 n2. unfold collaborative.recommend_item_based,
      collaborative.predicted_item_based. now rewrite Hs, Es, Hm.
Qed.

(** ** collaborative.py: the size of a predicted rating *)

Lemma dot_le_bound (M : R) (a b : list R) :
  0 <= M -> Forall (fun x => x <= M) a -> nonneg b ->
  dot a b <= M * Rsum b.
Proof.
  intros HM Ha. revert b. induction Ha as [|x a Hx Ha IH]; intros b Hb.
  - change (dot [] b) with 0. pose proof (Rsum_nonneg b Hb). nra.
  - destruct Hb as [|y b Hy Hb]; [rewrite dot_nil_r; simpl; lra|].
    rewrite dot_cons. simpl. specialize (IH b Hb). nra.
Qed.

Lemma dot_abs_bound (M : R) (k r : list R) :
  0 <= M -> nonneg r -> Forall (fun x => x <= M) r ->
  dot k r <= M * Rsum (map Rabs k).
Proof.
  intros HM. revert r. induction k as [|x k IH]; intros r Hr HrM.
  - change (dot [] r) with 0. simpl. lra.
  - destruct Hr as [|y r Hy Hr].
    + rewrite dot_nil_r. pose proof (Rsum_abs_nonneg (x :: k)). nra.
    + inversion HrM; subst. rewrite dot_cons. simpl.
      specialize (IH r Hr H2).
      pose proof (Rabs_pos x). pose proof (Rle_abs x). nra.
Qed.

Lemma div_eps_le (M x d : R) :
  0 <= M -> 0 <= d -> x <= M * d -> x / (d + eps) <= M.
Proof.
  intros HM Hd Hx. pose proof eps_pos as He.
  assert (Hpos : 0 < d + eps) by lra.
  apply (Rmult_le_reg_r (d + eps)); [exact Hpos|].
  unfold Rdiv. rewrite Rmult_assoc, Rinv_l by lra. nra.
Qed.

Lemma col_le (M : R) (j : nat) (V : list (list R)) :
  0 <= M -> Forall (Forall (fun x => x <= M)) V ->
  Forall (fun x => x <= M) (col j V).
Proof.
  intros HM H. unfold col. rewrite Forall_map.
  eapply Forall_impl; [|exact H]. intros row Hrow.
  destruct (Nat.lt_ge_cases j (length row)) as [Hj|Hj].
  - rewrite Forall_forall in Hrow. now apply Hrow, nth_In.
  - now rewrite nth_overflow.
Qed.

(** X5: on a table whose cells all lie between 0 and [M], no rating
    either recommender predicts exceeds [M]: a prediction is never above
    the largest rating of the table. *)
Theorem predictions_at_most_max_rating {QS : Argsort} {QSOk : ArgsortOk QS}
    cf u top_n (M : R) :
  nonneg_matrix (values (collaborative.user_item_matrix cf)) ->
  Forall (Forall (fun x => x <= M)) (values (collaborative.user_item_matrix cf)) ->
  0 <= M -> user_cache_ok cf ->
  returns (Forall (fun p => snd p <= M))
    (collaborative.recommend_user_based cf u top_n) /\
  returns (Forall (fun p => snd p <= M))
    (collaborative.recommend_item_based cf u top_n).
Proof.
  intros Hnn HM H0 Hc. split.
  - unfold collaborative.recommend_user_based,
      collaborative.predicted_user_based.
    destruct (collaborative.ensure_user_similarity cf) as [[sim cf1]|] eqn:Es;
      [|exact I].
    pose proof (user_similarity_nonneg _ _ _ Hnn Hc Es) as HK.
    simpl. destruct (loc _ u) as [ur|]; [|exact I]. simpl.
    destruct (getitem sim u) as [su|] eqn:Eg; [|exact I]. simpl.
    destruct (drop su u) as [sd|] eqn:Ed; [|exact I]. simpl.
    assert (Hsd : nonneg_series sd).
    { eapply drop_nonneg; [|exact Ed]. unfold getitem in Eg.
      destruct (get_loc u (columns sim)); [|easy]. injection Eg as <-.
      apply combine_nonneg. now apply col_nonneg. }
    pose proof (reindex_fillna0_nonneg sd
      (index (collaborative.user_item_matrix cf)) Hsd) as Hal.
    apply Forall_forall. intros p Hp. apply ranked_incl in Hp.
    apply in_map_iff in Hp as ([i w] & <- & Hp). simpl.
    unfold T_dot in Hp. apply in_combine_r in Hp.
    apply in_map_iff in Hp as (c & <- & Hc').
    unfold transpose in Hc'. apply in_map_iff in Hc' as (j & <- & _).
    apply div_eps_le; [exact H0|now apply Rsum_nonneg|].
    apply dot_le_bound; [exact H0|now apply col_le|exact Hal].
  - unfold collaborative.recommend_item_based,
      collaborative.predicted_item_based.
    destruct (collaborative.ensure_item_similarity cf) as [[sim cf1]|] eqn:Es;
      [|exact I].
    simpl. unfold loc.
    destruct (lookup u _ _) as [row|] eqn:Erow; [|exact I]. simpl.
    apply lookup_Some_In in Erow as [_ Erow].
    apply Forall_forall. intros p Hp. apply ranked_incl in Hp.
    apply in_map_iff in Hp as ([[i w] d] & <- & Hp). simpl.
    assert (Hpair : exists krow,
              w = dot krow (map snd (reindex_fillna0
                     (combine (columns (collaborative.user_item_matrix cf)) row)
                     (columns (collaborative.user_item_matrix cf)))) /\
              d = Rsum (map Rabs krow) + eps).
    { unfold df_dot in Hp. revert Hp. generalize (index sim).
      induction (values sim) as [|k K IH]; intros [|l ls] Hp; simpl in Hp;
        try easy.
      destruct Hp as [E|Hp]; [injection E as _ <- <-; eauto|eauto]. }
    destruct Hpair as (krow & -> & ->).
    apply div_eps_le; [exact H0|apply Rsum_abs_nonneg|].
    assert (Hrow0 : nonneg row).
    { unfold nonneg_matrix in Hnn. rewrite Forall_forall in Hnn. now apply Hnn. }
    assert (HrowM : Forall (fun x => x <= M) row).
    { rewrite Forall_forall in HM. now apply HM. }
    apply dot_abs_bound; [exact H0| |].
    + apply reindex_fillna0_nonneg, combine_nonneg, Hrow0.
    + unfold reindex_fillna0. rewrite map_map. simpl. rewrite Forall_map.
      apply Forall_forall. intros l _. unfold get0.
      destruct (lookup l _ _) as [v|] eqn:Ev; [|exact H0].
      apply lookup_Some_In in Ev as [_ Ev].
      apply in_map_iff in Ev as ([k x] & <- & Hin). apply in_combine_r in Hin.
      rewrite Forall_forall in HrowM. now apply HrowM.
Qed.

Lemma predictions_at_most_max_rating_witness :
  returns (Forall (fun p => snd p <= 5))
    ((@collaborative.recommend_user_based insertion_sort)
         (collaborative.init example_table) 1 3) /\
  returns (Forall (fun p => snd p <= 5))
    ((@collaborative.recommend_item_based insertion_sort)
         (collaborative.init example_table) 1 3).
Proof.
  apply (predictions_at_most_max_rating (collaborative.init example_table) 1 3 5).
  - simpl. unfold nonneg_matrix, nonneg. repeat constructor; lra.
  - simpl. repeat constructor; lra.
  - lra.
  - intros sim H. simpl in H. discriminate.
Defined.

(** ** collaborative.py: a user without ratings *)

Lemma dot_zero_r (a b : list R) : all_zero b -> dot a b = 0.
Proof.
  intros Hb. revert a. induction Hb as [|y b Hy Hb IH]; intros a.
  - apply dot_nil_r.
  - destruct a as [|x a]; [reflexivity|]. rewrite dot_cons, IH, Hy. ring.
Qed.

Lemma dot_zero_l (a b : list R) : all_zero a -> dot a b = 0.
Proof. intros Ha. rewrite dot_comm. now apply dot_zero_r. Qed.

Lemma normalize_row_zero (r : list R) : all_zero r -> all_zero (normalize_row r).
Proof.
  intros H. unfold normalize_row, all_zero. rewrite Forall_map.
  eapply Forall_impl; [|exact H]. simpl. intros x ->. unfold Rdiv. ring.
Qed.

Lemma cosine_similarity_zero_row (X K : list (list R)) (p : nat) :
  cosine_similarity X = Ok K -> (p < length X)%nat ->
  all_zero (nth p X []) -> all_zero (nth p K []).
Proof.
  intros H Hp Hz. apply cosine_similarity_inv in H as (_ & _ & ->).
  unfold normalize.
  rewrite (nth_map_in _ _ _ []) by now rewrite length_map.
  rewrite (nth_map_in _ _ _ []) by exact Hp.
  unfold all_zero. rewrite !Forall_map. apply Forall_forall. intros b _.
  apply dot_zero_l. now apply normalize_row_zero.
Qed.

Lemma fill_diagonal0_zero_row (a : list (list R)) (p : nat) :
  (p < length a)%nat -> all_zero (nth p a []) ->
  all_zero (nth p (fill_diagonal0 a) []).
Proof.
  intros Hp Hz. rewrite fill_diagonal0_row by exact Hp.
  unfold all_zero in *. rewrite Forall_map. apply Forall_forall.
  intros [j x] Hin. apply in_combine_r in Hin. simpl.
  destruct (Nat.eq_dec p j); [reflexivity|].
  rewrite Forall_forall in Hz. now apply Hz.
Qed.

Lemma mask_eq0_all (s t : Series) :
  length s = length t -> Forall (fun q => snd q = 0) t -> mask_eq0 s t = s.
Proof.
  unfold mask_eq0. revert t. induction s as [|x s IH]; intros [|q t] Hlen Hz;
    simpl in *; try easy.
  inversion Hz as [|? ? Hq Hz']; subst.
  destruct (Req_dec_T (snd q) 0); [|easy]. simpl. f_equal. apply IH; [lia|easy].
Qed.

Lemma combine_const (cols : list Z) (f : nat -> R) :
  (forall j, (j < length cols)%nat -> f j = 0) ->
  combine cols (map f (seq 0 (length cols))) = map (fun i => (i, 0)) cols.
Proof.
  intros H. apply (nth_ext _ _ (0%Z, 0) (0%Z, 0)).
  - now rewrite length_combine, !length_map, length_seq, Nat.min_id.
  - intros j Hj.
    rewrite length_combine, length_map, length_seq, Nat.min_id in Hj.
    rewrite combine_nth by now rewrite length_map, length_seq.
    rewrite (nth_map_in _ _ _ O) by now rewrite length_seq.
    rewrite seq_nth by exact Hj. simpl. rewrite H by exact Hj.
    now rewrite (nth_map_in _ _ _ 0%Z).
Qed.

Lemma masked_unrated_user (cols : list Z) (row : list R) (f : nat -> R) :
  length row = length cols -> all_zero row ->
  (forall j, (j < length cols)%nat -> f j = 0) ->
  mask_eq0 (combine cols (map f (seq 0 (length cols)))) (combine cols row)
  = map (fun i => (i, 0)) cols.
Proof.
  intros Hrow Hz Hf. rewrite combine_const by exact Hf.
  apply mask_eq0_all.
  - now rewrite length_map, length_combine, Hrow, Nat.min_id.
  - apply Forall_forall. intros [k x] Hin. apply in_combine_r in Hin. simpl.
    unfold all_zero in Hz. rewrite Forall_forall in Hz. now apply Hz.
Qed.

(** X6: for a user of the table who has rated nothing, either recommender
    returns the first [top_n] entries of an arrangement of the whole column
    index, each item with predicted rating 0: all similarities of the user
    vanish, and the constant in the denominator keeps the quotient
    defined.  All ratings tie, so which items come first is for the sort
    to say. *)
Theorem recommend_unrated_user {QS : Argsort} {QSOk : ArgsortOk QS}
    cf u top_n :
  let m := collaborative.user_item_matrix cf in
  wf m -> columns m <> [] -> user_cache_ok cf -> item_cache_ok cf ->
  In u (index m) -> (forall i, In i (columns m) -> cell m u i = 0) ->
  (exists l cf',
     Permutation l (map (fun i => (i, 0)) (columns m)) /\
     collaborative.recommend_user_based cf u top_n = Ok (head top_n l, cf')) /\
  (exists l cf',
     Permutation l (map (fun i => (i, 0)) (columns m)) /\
     collaborative.recommend_item_based cf u top_n = Ok (head top_n l, cf')).
Proof.
  intros m Hwf Hc Hcu Hci Hu Hzero. subst m.
  assert (Hi : index (collaborative.user_item_matrix cf) <> [])
    by (intros E; rewrite E in Hu; easy).
  apply (In_nth _ _ 0%Z) in Hu as (p & Hp & <-).
  pose proof (proj2 (row_all_zero _ p Hwf Hp) Hzero) as Hrow.
  pose proof (wf_row_length _ p Hwf Hp) as Hlen.
  pose proof Hwf as (_ & _ & HV & _).
  split;
    exists (sort_values_desc
              (map (fun i => (i, 0))
                 (columns (collaborative.user_item_matrix cf)))).
  - destruct (ensure_user_similarity_total cf Hwf Hi Hc) as [[sim cf'] Hs].
    exists cf'. split; [apply sort_values_desc_perm|].
    unfold collaborative.recommend_user_based.
    rewrite (predicted_user_based_by_position cf sim cf' p Hwf Hcu Hs Hp).
    simpl. f_equal. f_equal. f_equal. f_equal.
    apply masked_unrated_user; [exact Hlen|exact Hrow|].
    intros j Hj. unfold user_prediction.
    destruct (ensure_user_similarity_inv _ _ _ Hcu Hs) as (K & HK & -> & _).
    simpl.
    pose proof (cosine_similarity_shape _ _ HK) as [HKlen _].
    rewrite dot_zero_r; [unfold Rdiv; ring|].
    apply fill_diagonal0_zero_row; [lia|].
    apply (cosine_similarity_zero_row _ _ _ HK); [lia|exact Hrow].
  - destruct (ensure_item_similarity_total cf Hwf Hi Hc) as [[sim cf'] Hs].
    exists cf'. split; [apply sort_values_desc_perm|].
    unfold collaborative.recommend_item_based.
    rewrite (predicted_item_based_by_position cf sim cf' p Hwf Hci Hs Hp).
    simpl. f_equal. f_equal. f_equal. f_equal.
    apply masked_unrated_user; [exact Hlen|exact Hrow|].
    intros j Hj. unfold item_prediction.
    rewrite dot_zero_r; [unfold Rdiv; ring|exact Hrow].
Qed.

Lemma recommend_unrated_user_witness :
  let m := unrated_user_table in
  (exists l cf',
     Permutation l (map (fun i => (i, 0)) (columns m)) /\
     @collaborative.recommend_user_based insertion_sort
       (collaborative.init m) 2 1 = Ok (head 1 l, cf')) /\
  (exists l cf',
     Permutation l (map (fun i => (i, 0)) (columns m)) /\
     @collaborative.recommend_item_based insertion_sort
       (collaborative.init m) 2 1 = Ok (head 1 l, cf')).
Proof.
  apply (@recommend_unrated_user insertion_sort insertion_sort_ok
           (collaborative.init unrated_user_table) 2 1).
  - wf_example.
  - simpl. discriminate.
  - intros sim H. simpl in H. discriminate.
  - intros sim H. simpl in H. discriminate.
  - simpl. auto.
  - intros i Hi. simpl in Hi. unfold cell, get0. simpl.
    destruct Hi as [<-|[<-|[]]]; reflexivity.
Defined.

(** ** evaluation.py: the shape of the batched predictions *)

Lemma where_eq0_wf (m : DataFrame) (W : list (list R)) :
  wf m -> length W = length (index m) ->
  (forall q, (q < length (index m))%nat ->
     length (nth q W []) = length (columns m)) ->
  wf (mkDF (index m) (columns m) (where_eq0 W (values m))).
Proof.
  intros Hwf HW HWrows. pose proof Hwf as (Hni & Hnc & Hlen & Hrows).
  unfold wf. simpl. repeat split; try assumption.
  - rewrite where_eq0_length; lia.
  - apply Forall_nth. intros q d Hq.
    rewrite where_eq0_length in Hq by lia.
    rewrite (nth_indep _ d []) by (rewrite where_eq0_length; lia).
    rewrite where_eq0_row by lia.
    rewrite length_map, length_combine, HWrows by lia.
    rewrite (wf_row_length m q Hwf) by lia. lia.
Qed.

(** X7: the table [predict_all] returns for method "user" or "item" has
    the row index and the column index of the train table and one cell for
    each pair of them; any other method is refused with [ValueError]. *)
Theorem predict_all_shape ev cf (method : string) :
  let m := collaborative.user_item_matrix cf in
  evaluation.train_matrix ev = m -> wf m ->
  user_cache_ok cf -> item_cache_ok cf ->
  returns (fun P => index P = index m /\ columns P = columns m /\ wf P)
    (evaluation.predict_all ev cf "user") /\
  returns (fun P => index P = index m /\ columns P = columns m /\ wf P)
    (evaluation.predict_all ev cf "item") /\
  (method <> "user"%string -> method <> "item"%string ->
   evaluation.predict_all ev cf method = Raise ValueError).
Proof.
  intros m Hev Hwf Hcu Hci. split; [|split].
  - unfold evaluation.predict_all. simpl.
    destruct (collaborative.ensure_user_similarity cf) as [[sim cf']|e] eqn:Es.
    + destruct (predict_all_user_by_position ev cf sim cf' Hev Hwf Hcu Es)
        as (W & -> & HW & HWp).
      simpl. split; [reflexivity|split; [reflexivity|]].
      apply where_eq0_wf; [exact Hwf|exact HW|]. intros q Hq. now apply HWp.
    + unfold evaluation.predict_all_user. rewrite Es. exact I.
  - unfold evaluation.predict_all. simpl.
    destruct (collaborative.ensure_item_similarity cf) as [[sim cf']|e] eqn:Es.
    + destruct (predict_all_item_by_position ev cf sim cf' Hev Hwf Hci Es)
        as (W & -> & HW & HWp).
      simpl. split; [reflexivity|split; [reflexivity|]].
      apply where_eq0_wf; [exact Hwf|exact HW|]. intros q Hq. now apply HWp.
    + unfold evaluation.predict_all_item. rewrite Es. exact I.
  - intros Hu Hi. unfold evaluation.predict_all.
    apply String.eqb_neq in Hu, Hi. now rewrite Hu, Hi.
Qed.

Lemma predict_all_shape_witness :
  let cf := collaborative.init example_table in
  let ev := evaluation.init example_table 0.2 42 in
  returns (fun P => index P = index example_table /\
                    columns P = columns example_table /\ wf P)
    (evaluation.predict_all ev cf "user") /\
  returns (fun P => index P = index example_table /\
                    columns P = columns example_table /\ wf P)
    (evaluation.predict_all ev cf "item") /\
  ("svd"%string <> "user"%string -> "svd"%string <> "item"%string ->
   evaluation.predict_all ev cf "svd" = Raise ValueError).
Proof.
  apply (predict_all_shape (evaluation.init example_table 0.2 42)
           (collaborative.init example_table) "svd").
  - reflexivity.
  - wf_example.
  - intros sim H. simpl in H. discriminate.
  - intros sim H. simpl in H. discriminate.
Defined.

(** ** evaluation.py: what the split keeps *)

(** X8: a split that returns gives two well-formed tables with the row
    index and the column index of the source table, stores them in the
    evaluator, and leaves the evaluator's source table, ratio and seed as
    they were. *)
Theorem split_keeps_shape {B64 : Binary64} {RS : RandomState}
    (g : state) (m : DataFrame)
    (ratio : R) (rs : Z) :
  wf m ->
  returns_with (fun tt rest =>
      index (fst tt) = index m /\ columns (fst tt) = columns m /\
      index (snd tt) = index m /\ columns (snd tt) = columns m /\
      wf (fst tt) /\ wf (snd tt) /\
      fst rest = evaluation.mkEv m (fst tt) (snd tt) ratio rs)
    (evaluation.train_test_split g (evaluation.init m ratio rs)).
Proof.
  intros Hwf. rewrite train_test_split_plan. simpl.
  destruct (random_seed rs) as [g0|e0]; simpl; [|exact I].
  destruct (split_plan m ratio (index m) g0) as [[plan g']|e];
    simpl; [|exact I].
  pose proof (zeros_wf m ratio rs Hwf) as Hz. simpl in Hz.
  match goal with |- context [apply_plan plan (m, ?z)] =>
    destruct (apply_plan_labels plan m z) as (L1 & L2 & L3 & L4);
    destruct (apply_plan_wf plan m z Hwf Hz) as [W1 W2]
  end.
  simpl in L3, L4.
  exact (conj L1 (conj L2 (conj L3 (conj L4 (conj W1 (conj W2 eq_refl)))))).
Qed.

Lemma split_keeps_shape_witness :
  returns_with (fun tt rest =>
      index (fst tt) = index example_table /\
      columns (fst tt) = columns example_table /\
      index (snd tt) = index example_table /\
      columns (snd tt) = columns example_table /\
      wf (fst tt) /\ wf (snd tt) /\
      fst rest = evaluation.mkEv example_table (fst tt) (snd tt) 0.2 42)
    (@evaluation.train_test_split exact_arithmetic counter_rng O
       (evaluation.init example_table 0.2 42)).
Proof.
  apply (@split_keeps_shape exact_arithmetic counter_rng O example_table 0.2
           42).
  wf_example.
Defined.

(** ** evaluation.py: the ratings a split holds out *)

Lemma filter_nodup_fst (f : Z * R -> bool) (s : Series) :
  NoDup (map fst s) -> NoDup (map fst (filter f s)).
Proof.
  induction s as [|x s IH]; simpl; intros H; [constructor|].
  inversion H as [|? ? Hx Hs]; subst.
  destruct (f x); simpl; [|now apply IH].
  constructor; [|now apply IH].
  intros Hin. apply Hx. apply in_map_iff in Hin as (y & Hy & Hin).
  apply filter_In in Hin as [Hin _]. rewrite <- Hy. now apply in_map.
Qed.

Lemma rated_items_nodup (cols : list Z) (row : list R) :
  NoDup cols -> length row = length cols ->
  NoDup (evaluation.rated_items (combine cols row)).
Proof.
  intros Hnd Hlen. unfold evaluation.rated_items.
  apply filter_nodup_fst. now rewrite map_fst_combine by lia.
Qed.

Lemma rated_items_spec (cols : list Z) (row : list R) (i : Z) :
  NoDup cols -> length row = length cols ->
  (In i (evaluation.rated_items (combine cols row)) <->
   In i cols /\ 0 < get0 (combine cols row) i).
Proof.
  intros Hnd Hlen. unfold evaluation.rated_items.
  rewrite in_map_iff. split.
  - intros ([k v] & <- & Hin). apply filter_In in Hin as [Hin Hpos].
    simpl in *. destruct (Rlt_dec 0 v) as [Hv|]; [|easy].
    split; [now apply in_combine_l in Hin|].
    rewrite (get0_In _ k v); [exact Hv| |exact Hin].
    now rewrite map_fst_combine by lia.
  - intros [Hi Hpos]. rewrite get0_combine in Hpos by lia.
    destruct (lookup i cols row) as [v|] eqn:Ev; [|lra].
    exists (i, v). split; [reflexivity|]. apply filter_In.
    split; [now apply lookup_Some_pair|]. simpl. now destruct (Rlt_dec 0 v).
Qed.

Lemma NoDup_map_nth (a : list Z) (l : list nat) :
  NoDup a -> NoDup l -> (forall i, In i l -> (i < length a)%nat) ->
  NoDup (map (fun i => nth i a 0%Z) l).
Proof.
  intros Ha Hl. induction Hl as [|i l Hi Hl IH]; intros Hb; simpl;
    constructor.
  - intros Hin. apply in_map_iff in Hin as (j & Hj & Hin).
    apply NoDup_nth in Hj; [subst; easy|exact Ha| |]; apply Hb; simpl; auto.
  - apply IH. intros j Hj. apply Hb. now right.
Qed.

Lemma choice_nodup {RS : RandomState} {OK : RandomStateOk RS} (g g' : state)
    (a items : list Z) (size : nat) :
  NoDup a -> choice g a size = Ok (items, g') -> NoDup items.
Proof.
  intros Ha. unfold choice. destruct (_ && _); [easy|].
  destruct (_ <? _)%nat; [easy|]. intros [= <- _].
  pose proof (permutation_ok g (length a)) as Hp.
  apply NoDup_map_nth; [exact Ha| |].
  - apply firstn_nodup.
    apply (Permutation_NoDup (Permutation_sym Hp)), seq_NoDup.
  - intros i Hi.
    assert (Hin : In i (fst (permutation g (length a)))).
    { rewrite <- (firstn_skipn size). apply in_or_app. now left. }
    apply (Permutation_in _ Hp) in Hin. apply in_seq in Hin. lia.
Qed.

Lemma split_plan_entries {B64 : Binary64} {RS : RandomState}
    (m : DataFrame) (ratio : R)
    (users : list Z) (g g' : state) (plan : Plan) :
  split_plan m ratio users g = Ok (plan, g') ->
  map (fun e => fst (fst e)) plan = users /\
  Forall (plan_entry_ok m ratio) plan.
Proof.
  revert g plan. induction users as [|u users IH]; intros g plan H; simpl in H.
  - injection H as <- _. split; [reflexivity|constructor].
  - unfold plan_step in H.
    destruct (loc m u) as [row|e] eqn:El; simpl in H; [|easy].
    destruct (choice g _ _) as [[items g1]|e] eqn:Ec; simpl in H; [|easy].
    destruct (split_plan m ratio users g1) as [[plan1 g2]|e] eqn:Ep;
      simpl in H; [|easy].
    injection H as <- <-. destruct (IH _ _ Ep) as [Hu Hf]. split.
    + simpl. now rewrite Hu.
    + constructor; [|exact Hf]. split; [exact El|]. simpl. eauto.
Qed.

Lemma touched_entry (plan : Plan) (u i : Z) (items : list Z) (row : Series) :
  NoDup (map (fun e => fst (fst e)) plan) -> In (u, items, row) plan ->
  (touched plan u i = true <-> In i items).
Proof.
  induction plan as [|[[u0 it0] r0] plan IH]; simpl; intros Hnd Hin; [easy|].
  inversion Hnd as [|? ? Hu0 Hnd']; subst.
  destruct Hin as [E|Hin].
  - injection E as -> -> ->. rewrite Z.eqb_refl. simpl.
    assert (Hrest : touched plan u i = false).
    { destruct (touched plan u i) eqn:Et; [|reflexivity].
      exfalso. apply Hu0. unfold touched in Et.
      apply existsb_exists in Et as (e & He & Hb).
      apply andb_true_iff in Hb as [Hb _]. apply Z.eqb_eq in Hb.
      apply in_map_iff. now exists e. }
    rewrite Hrest, orb_false_r. now destruct (in_dec Z.eq_dec i items).
  - destruct (Z.eqb_spec u0 u) as [->|Hne].
    + exfalso. apply Hu0. apply in_map_iff. now exists (u, items, row).
    + simpl. now apply IH.
Qed.

(** What a split does to the row of a user: it draws [n_test] distinct
    rated items, zeroes them in the train table and copies them into the
    test table, and leaves every other cell of the row as it was. *)
Lemma split_held_out {B64 : Binary64} {RS : RandomState} {OK : RandomStateOk RS}
    (g : state)
    (m : DataFrame) (ratio : R) (rs : Z) :
  wf m ->
  returns (fun tt => forall u, In u (index m) ->
    exists items,
      NoDup items /\
      length items = evaluation.n_test ratio (rated_of m u) /\
      incl items (rated_of m u) /\
      forall i, In i (columns m) ->
        (In i items ->
         cell (fst tt) u i = 0 /\ cell (snd tt) u i = cell m u i) /\
        (~ In i items ->
         cell (fst tt) u i = cell m u i /\ cell (snd tt) u i = 0))
    (evaluation.train_test_split g (evaluation.init m ratio rs)).
Proof.
  intros Hwf. rewrite train_test_split_plan. simpl.
  destruct (random_seed rs) as [g0|e0]; simpl; [|exact I].
  destruct (split_plan m ratio (index m) g0) as [[plan g']|e] eqn:Ep;
    simpl; [|exact I].
  intros u Hu.
  destruct (split_plan_entries _ _ _ _ _ _ Ep) as [Husers Hents].
  pose proof (split_plan_rows _ _ _ _ _ _ Ep) as Hrows.
  pose proof Hwf as (Hni & Hnc & Hlen & _).
  assert (Hent : exists items row, In (u, items, row) plan).
  { rewrite <- Husers in Hu. apply in_map_iff in Hu as ([[u0 it] r] & E & Hin).
    simpl in E. subst u0. eauto. }
  destruct Hent as (items & row & Hin).
  rewrite Forall_forall in Hents.
  destruct (Hents _ Hin) as [Hloc (g1 & g2 & Hch)]. simpl in Hloc, Hch.
  assert (Hrated : rated_of m u = evaluation.rated_items row)
    by (unfold rated_of; now rewrite Hloc).
  assert (Hrnd : NoDup (evaluation.rated_items row)).
  { unfold loc in Hloc. destruct (lookup u _ _) as [r0|] eqn:Er; [|easy].
    injection Hloc as <-. apply rated_items_nodup; [exact Hnc|].
    eapply lookup_row_length; eauto. }
  exists items. rewrite Hrated.
  destruct (choice_sample _ _ _ _ _ Hch) as [Hlen' Hincl].
  split; [eapply choice_nodup; eauto|].
  split; [exact Hlen'|]. split; [exact Hincl|].
  intros i Hi.
  destruct (apply_plan_cell m plan m
              (evaluation.test_matrix (evaluation.init m ratio rs)) u i)
    as [H1 H2]; try assumption; try reflexivity; [now apply zeros_wf|].
  simpl in H1, H2. rewrite H1, H2.
  pose proof (touched_entry plan u i items row) as Ht.
  rewrite Husers in Ht. specialize (Ht Hni Hin).
  split; intros Hi'.
  - apply Ht in Hi'. now rewrite Hi'.
  - destruct (touched plan u i); [exfalso; now apply Hi', Ht|].
    split; [reflexivity|apply (zeros_cell m ratio rs)].
Qed.

Lemma rated_of_spec (m : DataFrame) (u i : Z) :
  wf m -> In u (index m) ->
  (In i (rated_of m u) <-> In i (columns m) /\ 0 < cell m u i).
Proof.
  intros Hwf Hu. pose proof Hwf as (_ & Hnc & Hlen & _).
  unfold rated_of, loc, cell.
  destruct (lookup_In_Some u (index m) (values m)) as [row Hrow];
    [lia|exact Hu|].
  rewrite Hrow. apply rated_items_spec; [exact Hnc|].
  eapply lookup_row_length; eauto.
Qed.

(** X9: with a generator whose draws are arrangements, a split that
    returns holds out for every user exactly
    [max(1, int(len(rated) * test_ratio))] distinct items, the product
    being the rounded one of floats, each one an item the user rated with
    a positive rating, and the user's nonzero test cells are exactly those
    items. *)
Theorem split_holds_out_n_test {B64 : Binary64} {RS : RandomState}
    {OK : RandomStateOk RS}
    (g : state) (m : DataFrame) (ratio : R) (rs : Z) :
  wf m ->
  returns (fun tt => forall u, In u (index m) ->
    exists items,
      NoDup items /\
      length items = evaluation.n_test ratio (rated_of m u) /\
      (forall i, In i items -> In i (columns m) /\ 0 < cell m u i) /\
      (forall i, In i (columns m) ->
         (cell (snd tt) u i <> 0 <-> In i items)))
    (evaluation.train_test_split g (evaluation.init m ratio rs)).
Proof.
  intros Hwf. pose proof (split_held_out g m ratio rs Hwf) as H.
  destruct (evaluation.train_test_split g (evaluation.init m ratio rs))
    as [[tt rest]|e]; simpl in *; [|exact I].
  intros u Hu. destruct (H u Hu) as (items & Hnd & Hlen & Hincl & Hcells).
  exists items. split; [exact Hnd|]. split; [exact Hlen|].
  assert (Hpos : forall i, In i items -> In i (columns m) /\ 0 < cell m u i).
  { intros i Hi. apply (rated_of_spec m u i Hwf Hu). now apply Hincl. }
  split; [exact Hpos|].
  intros i Hi. destruct (Hcells i Hi) as [Hin Hout]. split.
  - intros Hne. destruct (in_dec Z.eq_dec i items) as [|Hn]; [assumption|].
    destruct (Hout Hn) as [_ Hz]. easy.
  - intros Hi'. destruct (Hin Hi') as [_ ->].
    destruct (Hpos i Hi') as [_ Hp]. lra.
Qed.

Lemma split_holds_out_n_test_witness :
  returns (fun tt => forall u, In u (index example_table) ->
    exists items,
      NoDup items /\
      length items = (@evaluation.n_test exact_arithmetic)
           0.2 (rated_of example_table u) /\
      (forall i, In i items ->
         In i (columns example_table) /\ 0 < cell example_table u i) /\
      (forall i, In i (columns example_table) ->
         (cell (snd tt) u i <> 0 <-> In i items)))
    (@evaluation.train_test_split exact_arithmetic counter_rng O
       (evaluation.init example_table 0.2 42)).
Proof.
  apply (@split_holds_out_n_test exact_arithmetic counter_rng counter_rng_ok O
           example_table 0.2 42).
  wf_example.
Defined.

(** X10: a user with exactly one rated item has no rated item left in the
    train table after a split: the one rating is in the test table,
    whatever the ratio. *)
Theorem split_single_rating {B64 : Binary64} {RS : RandomState}
    {OK : RandomStateOk RS}
    (g : state) (m : DataFrame) (ratio : R) (rs : Z) (u i0 : Z) :
  wf m -> In u (index m) -> rated_of m u = [i0] ->
  returns (fun tt =>
      cell (snd tt) u i0 = cell m u i0 /\
      forall i, In i (columns m) -> ~ 0 < cell (fst tt) u i)
    (evaluation.train_test_split g (evaluation.init m ratio rs)).
Proof.
  intros Hwf Hu Hone. pose proof (split_held_out g m ratio rs Hwf) as H.
  destruct (evaluation.train_test_split g (evaluation.init m ratio rs))
    as [[tt rest]|e]; simpl in *; [|exact I].
  destruct (H u Hu) as (items & Hnd & Hlen & Hincl & Hcells).
  rewrite Hone in Hlen, Hincl.
  assert (Hi0 : In i0 items).
  { pose proof (n_test_pos ratio [i0]) as Hpos.
    destruct items as [|x items]; simpl in Hlen; [lia|].
    destruct (Hincl x (or_introl eq_refl)) as [<-|[]]. now left. }
  assert (Hc0 : In i0 (columns m)).
  { apply (rated_of_spec m u i0 Hwf Hu). rewrite Hone. now left. }
  split.
  - now destruct (proj1 (Hcells i0 Hc0) Hi0).
  - intros i Hi Hpos. destruct (Hcells i Hi) as [Hin Hout].
    destruct (in_dec Z.eq_dec i items) as [Hy|Hn].
    + destruct (Hin Hy) as [Hz _]. lra.
    + destruct (Hout Hn) as [Hm _]. rewrite Hm in Hpos.
      assert (Hr : In i (rated_of m u))
        by (apply (rated_of_spec m u i Hwf Hu); auto).
      rewrite Hone in Hr. destruct Hr as [<-|[]]. easy.
Qed.

Lemma split_single_rating_witness :
  returns (fun tt =>
      cell (snd tt) 3 30 = cell example_table 3 30 /\
      forall i, In i (columns example_table) -> ~ 0 < cell (fst tt) 3 i)
    (@evaluation.train_test_split exact_arithmetic counter_rng O
       (evaluation.init example_table 0.2 42)).
Proof.
  apply (@split_single_rating exact_arithmetic counter_rng counter_rng_ok O
           example_table 0.2 42 3 30).
  - wf_example.
  - simpl. auto.
  - unfold rated_of, evaluation.rated_items. simpl. decide_reals. reflexivity.
Defined.

(** ** evaluation.py: when the split fails *)

Lemma split_plan_raises {B64 : Binary64} {RS : RandomState}
    (m : DataFrame) (ratio : R)
    (users : list Z) (g : state) (e : exn) :
  length (values m) = length (index m) ->
  incl users (index m) ->
  split_plan m ratio users g = Raise e -> e = ValueError.
Proof.
  intros Hlen. revert g. induction users as [|u users IH]; intros g Hsub;
    simpl; [easy|].
  destruct (lookup_In_Some u (index m) (values m)) as [row Hrow];
    [lia|apply Hsub; now left|].
  unfold plan_step, loc. rewrite Hrow. simpl.
  destruct (choice g _ _) as [[items g']|e'] eqn:Ec; simpl.
  - destruct (split_plan m ratio users g') as [[plan g'']|e'] eqn:Ep;
      simpl; [easy|].
    intros [= <-]. eapply IH; [|exact Ep].
    intros x Hx. apply Hsub. now right.
  - intros [= <-]. eapply choice_raises; eauto.
Qed.

(** X11: for [0 < test_ratio < 1] the split of a fresh evaluator returns
    exactly when NumPy accepts the seed, one of [0 .. 2^32 - 1], and every
    user of the table has a positive rating; when it does not return, the
    failure is a [ValueError]. *)
Theorem split_returns_iff {B64 : Binary64} {B64Ok : Binary64Ok B64}
    {RS : RandomState} (g : state) (m : DataFrame) (ratio : R) (rs : Z) :
  wf m -> 0 < ratio < 1 -> (Z.of_nat (length (columns m)) <= 2 ^ 53)%Z ->
  ((exists r, evaluation.train_test_split g (evaluation.init m ratio rs) = Ok r)
   <->
   (0 <= rs <= 4294967295)%Z /\
   (forall u, In u (index m) ->
      exists i, In i (columns m) /\ 0 < cell m u i)) /\
  (forall e, evaluation.train_test_split g (evaluation.init m ratio rs)
             = Raise e -> e = ValueError).
Proof.
  intros Hwf Hr H53. pose proof Hwf as (_ & Hnc & Hlen & _).
  rewrite train_test_split_plan. simpl.
  assert (Hseed : {(0 <= rs <= 4294967295)%Z} + {~ (0 <= rs <= 4294967295)%Z}).
  { destruct (Z_le_dec 0 rs), (Z_le_dec rs 4294967295);
      [left; lia|right; lia..]. }
  destruct Hseed as [Hseed|Hseed].
  - rewrite (random_seed_Ok rs Hseed). simpl. split; [split|].
    + intros [r Hret]. split; [exact Hseed|]. intros u Hu.
      destruct (lookup_In_Some u (index m) (values m)) as [row Hrow];
        [lia|exact Hu|].
      destruct (evaluation.rated_items (combine (columns m) row))
        as [|i rest] eqn:Erated.
      * rewrite (split_plan_unrated_raises m ratio (index m) (seed rs) u row)
          in Hret; auto. easy.
      * exists i. apply (rated_of_spec m u i Hwf Hu).
        unfold rated_of, loc. rewrite Hrow, Erated. now left.
    + intros [_ Hall].
      destruct (split_plan_total m ratio (index m) (seed rs) Hwf Hr H53)
        as [[plan g'] ->]; [|simpl; eauto].
      intros u Hu. split; [exact Hu|]. now apply Hall.
    + intros e.
      destruct (split_plan m ratio (index m) (seed rs))
        as [[plan g']|e'] eqn:Ep; simpl; [easy|].
      intros [= <-]. eapply split_plan_raises; [exact Hlen| |exact Ep].
      intros x Hx. exact Hx.
  - rewrite (random_seed_refused rs Hseed). simpl. split; [split|].
    + intros [r Hret]. discriminate.
    + intros [Hin _]. contradiction.
    + intros e [= <-]. reflexivity.
Qed.

Lemma split_returns_iff_witness :
  ((exists r, @evaluation.train_test_split exact_arithmetic counter_rng O
                (evaluation.init unrated_user_table 0.2 42) = Ok r)
   <->
   (0 <= 42 <= 4294967295)%Z /\
   (forall u, In u (index unrated_user_table) ->
      exists i, In i (columns unrated_user_table) /\
                0 < cell unrated_user_table u i)) /\
  (forall e, @evaluation.train_test_split exact_arithmetic counter_rng O
               (evaluation.init unrated_user_table 0.2 42)
             = Raise e -> e = ValueError).
Proof.
  apply (@split_returns_iff exact_arithmetic exact_arithmetic_ok counter_rng O
           unrated_user_table 0.2 42).
  - wf_example.
  - lra.
  - simpl. lia.
Defined.

(** ** evaluation.py: when the score is returned *)

Lemma Rsum_zero_iff (l : list R) : nonneg l -> (Rsum l = 0 <-> all_zero l).
Proof.
  induction 1 as [|x l Hx Hl IH]; simpl.
  - split; [constructor|reflexivity].
  - pose proof (Rsum_nonneg l Hl). split.
    + intros H0. constructor; [lra|]. apply IH. lra.
    + intros Hz. inversion Hz as [|? ? Hx0 Hz']; subst.
      apply IH in Hz'. lra.
Qed.

Lemma mean_nonneg (l : list R) : nonneg l -> 0 <= mean l.
Proof.
  intros H. unfold mean. pose proof (Rsum_nonneg l H).
  destruct l as [|x l].
  - simpl. unfold Rdiv. rewrite Rmult_0_l. lra.
  - apply Rmult_le_pos; [assumption|]. left. apply Rinv_0_lt_compat.
    apply lt_0_INR. simpl. lia.
Qed.

Lemma mean_zero_iff (l : list R) :
  nonneg l -> l <> [] -> (mean l = 0 <-> all_zero l).
Proof.
  intros Hl Hne. rewrite <- (Rsum_zero_iff l Hl). unfold mean.
  assert (Hpos : 0 < INR (length l)).
  { apply lt_0_INR. destruct l; simpl; [easy|lia]. }
  split.
  - intros H. apply (Rmult_eq_compat_r (INR (length l))) in H.
    unfold Rdiv in H. rewrite Rmult_assoc, Rinv_l, Rmult_1_r, Rmult_0_l in H;
      [exact H|lra].
  - intros ->. unfold Rdiv. ring.
Qed.

Lemma mask_gt0_all (x t : list (list R)) :
  Forall2 (fun xr tr => length xr = length tr) x t ->
  Forall (Forall (fun v => 0 < v)) t ->
  mask_gt0 x t = map (map Some) x.
Proof.
  unfold mask_gt0. induction 1 as [|xr tr x t Hrow _ IH]; intros Hpos;
    [reflexivity|].
  inversion Hpos as [|? ? Htr Ht]; subst. simpl. f_equal; [|now apply IH].
  clear -Hrow Htr. revert xr Hrow.
  induction Htr as [|v tr Hv _ IHr]; intros [|a xr] Hrow; simpl in *;
    try easy.
  destruct (Rlt_dec 0 v); [|easy]. f_equal. apply IHr. lia.
Qed.

Lemma assert_all_finite_some (x : list (list R)) :
  assert_all_finite (map (map Some) x) = Ok x.
Proof.
  unfold assert_all_finite.
  assert (Hall : forallb (forallb (fun c : option R =>
            match c with Some _ => true | None => false end))
            (map (map Some) x) = true).
  { apply forallb_forall. intros r Hr. apply in_map_iff in Hr as (r0 & <- & _).
    apply forallb_forall. intros c Hc. now apply in_map_iff in Hc as (v & <- & _). }
  rewrite Hall. f_equal. rewrite map_map.
  rewrite <- (map_id x) at 2. apply map_ext. intros r.
  rewrite map_map. rewrite <- (map_id r) at 2. now apply map_ext.
Qed.

Lemma rows_Forall2 (c : nat) (x t : list (list R)) :
  length x = length t -> rows_of c x -> rows_of c t ->
  Forall2 (fun xr tr => length xr = length tr) x t.
Proof.
  revert t. induction x as [|xr x IH]; intros [|tr t] Hlen Hx Ht;
    simpl in *; try easy; try (constructor; fail).
  inversion Hx; inversion Ht; subst. constructor; [congruence|].
  apply IH; [lia|assumption|assumption].
Qed.

Lemma squared_errors_shape (c : nat) (t p : list (list R)) :
  length p = length t -> rows_of c t -> rows_of c p ->
  length (squared_errors t p) = length t /\
  rows_of c (squared_errors t p) /\ nonneg_matrix (squared_errors t p).
Proof.
  intros Hlen Ht Hp. unfold squared_errors. split; [|split].
  - rewrite length_map, length_combine. lia.
  - unfold rows_of in *. rewrite Forall_map. apply Forall_forall.
    intros [tr pr] Hin. simpl. rewrite length_map, length_combine.
    rewrite Forall_forall in Ht, Hp.
    rewrite (Ht tr), (Hp pr); [lia| |].
    + now apply in_combine_r in Hin.
    + now apply in_combine_l in Hin.
  - unfold nonneg_matrix, nonneg. rewrite Forall_map. apply Forall_forall.
    intros tp _. rewrite Forall_map. apply Forall_forall. intros cc _.
    apply Rle_0_sqr.
Qed.

Lemma squared_errors_zero (t p : list (list R)) :
  Forall2 (fun pr tr => length pr = length tr) p t ->
  (Forall all_zero (squared_errors t p) <-> p = t).
Proof.
  unfold squared_errors. induction 1 as [|pr tr p t Hrow _ IH]; simpl.
  - split; [reflexivity|constructor].
  - split.
    + intros Hz. inversion Hz as [|? ? Hr Hrest]; subst.
      f_equal; [|now apply IH].
      clear -Hrow Hr. revert tr Hrow Hr.
      induction pr as [|a pr IHr]; intros [|b tr] Hrow Hr; simpl in *;
        try easy.
      inversion Hr as [|? ? Hab Hr']; subst.
      f_equal; [nra|]. apply IHr; [lia|exact Hr'].
    + intros [= -> ->]. constructor; [|now apply IH].
      clear. unfold all_zero. rewrite Forall_map.
      induction tr as [|b tr IHt]; simpl;
        [constructor|constructor; [simpl; ring|exact IHt]].
Qed.

(** Every column of a table of [c] columns is zero exactly when every row
    is. *)
Lemma cols_zero_iff (c : nat) (V : list (list R)) :
  rows_of c V ->
  (Forall all_zero (map (fun j => col j V) (seq 0 c)) <-> Forall all_zero V).
Proof.
  intros Hrows. rewrite Forall_map. split.
  - intros Hcols. apply Forall_forall. intros row Hrow.
    apply all_zero_nth. intros j Hj.
    unfold rows_of in Hrows. rewrite Forall_forall in Hrows.
    rewrite (Hrows row Hrow) in Hj.
    rewrite Forall_forall in Hcols.
    specialize (Hcols j (proj2 (in_seq _ _ _) (conj (Nat.le_0_l j) Hj))).
    unfold all_zero, col in Hcols. rewrite Forall_map, Forall_forall in Hcols.
    now apply Hcols.
  - intros Hz. apply Forall_forall. intros j _.
    unfold all_zero, col. rewrite Forall_map.
    eapply Forall_impl; [|exact Hz]. intros row Hrow.
    destruct (Nat.lt_ge_cases j (length row)) as [Hj|Hj].
    + unfold all_zero in Hrow. rewrite Forall_forall in Hrow.
      now apply Hrow, nth_In.
    + now apply nth_overflow.
Qed.

Lemma check_array_some (c : nat) (x : list (list R)) :
  x <> [] -> (0 < c)%nat -> rows_of c x ->
  check_array (map (map Some) x) = Ok (map (map Some) x) /\
  length (hd [] x) = c.
Proof.
  intros Hne Hc Hrows. destruct x as [|r x]; [easy|].
  inversion Hrows as [|? ? Hr _]; subst. simpl.
  destruct r as [|a r]; simpl in *; [lia|]. auto.
Qed.

Lemma compute_rmse_value (ev : evaluation.Evaluator) (predictions : DataFrame)
    (c : nat) :
  let T := values (evaluation.test_matrix ev) in
  let X := values predictions in
  index predictions = index (evaluation.test_matrix ev) ->
  columns predictions = columns (evaluation.test_matrix ev) ->
  T <> [] -> (0 < c)%nat -> rows_of c T -> rows_of c X ->
  length X = length T -> Forall (Forall (fun v => 0 < v)) T ->
  evaluation.compute_rmse ev predictions =
  Ok (sqrt (mean (map (fun j => mean (col j (squared_errors T X)))
                    (seq 0 c)))).
Proof.
  intros T X Hli Hlc Hne Hc HT HX Hlen Hpos. unfold evaluation.compute_rmse.
  rewrite (where_gt0_same_labels (evaluation.test_matrix ev)
             (evaluation.test_matrix ev)) by reflexivity.
  rewrite (where_gt0_same_labels predictions (evaluation.test_matrix ev))
    by assumption.
  fold T. fold X.
  rewrite (mask_gt0_all T T) by (try apply (rows_Forall2 c); auto).
  rewrite (mask_gt0_all X T) by (try apply (rows_Forall2 c); auto).
  unfold mean_squared_error. rewrite !length_map, Hlen, Nat.eqb_refl. simpl negb.
  destruct (check_array_some c T Hne Hc HT) as [-> HhT].
  assert (HneX : X <> []) by (destruct X, T; simpl in *; easy).
  destruct (check_array_some c X HneX Hc HX) as [HcX HhX].
  simpl. rewrite assert_all_finite_some. simpl. rewrite HcX. simpl.
  rewrite assert_all_finite_some. simpl.
  rewrite HhT, HhX, Nat.eqb_refl. simpl. reflexivity.
Qed.

(** X12: over a test table of at least one row and column in which every
    cell is positive, and predictions with the labels and the shape of the
    test table, [compute_rmse] returns a score; the score is not negative,
    and it is 0 exactly when the predictions equal the test table.  With a
    cell that is not positive in the test table no score is returned. *)
Theorem compute_rmse_full_test (ev : evaluation.Evaluator)
    (predictions : DataFrame) (c : nat) :
  let T := values (evaluation.test_matrix ev) in
  let X := values predictions in
  index predictions = index (evaluation.test_matrix ev) ->
  columns predictions = columns (evaluation.test_matrix ev) ->
  T <> [] -> (0 < c)%nat -> rows_of c T -> rows_of c X ->
  length X = length T ->
  ((exists v, evaluation.compute_rmse ev predictions = Ok v) <->
   Forall (Forall (fun v => 0 < v)) T) /\
  (forall v, evaluation.compute_rmse ev predictions = Ok v ->
     0 <= v /\ (v = 0 <-> X = T)).
Proof.
  intros T X Hli Hlc Hne Hc HT HX Hlen.
  assert (Hdec : Forall (Forall (fun v => 0 < v)) T \/
                 Exists (Exists (fun v => ~ 0 < v)) T).
  { destruct (Forall_Exists_dec (Forall (fun v => 0 < v))
                (fun row => Forall_dec (fun v => 0 < v) (Rlt_dec 0) row) T)
      as [H|H]; [now left|right].
    eapply Exists_impl; [|exact H]. intros row Hrow.
    now apply neg_Forall_Exists_neg; [intros v; apply Rlt_dec|]. }
  assert (Hret : forall v, evaluation.compute_rmse ev predictions = Ok v ->
                 Forall (Forall (fun v => 0 < v)) T).
  { intros v Hv. destruct Hdec as [H|H]; [exact H|].
    rewrite (compute_rmse_nan ev predictions H) in Hv. easy. }
  split; [split|].
  - intros [v Hv]. eapply Hret, Hv.
  - intros Hpos. eexists.
    apply (compute_rmse_value ev predictions c); assumption.
  - intros v Hv. pose proof (Hret v Hv) as Hpos.
    rewrite (compute_rmse_value ev predictions c) in Hv by assumption.
    injection Hv as <-. fold T X.
    destruct (squared_errors_shape c T X Hlen HT HX) as (HsqL & HsqR & HsqN).
    set (sq := squared_errors T X) in *.
    assert (Hmeans : nonneg (map (fun j => mean (col j sq)) (seq 0 c))).
    { unfold nonneg. rewrite Forall_map. apply Forall_forall. intros j _.
      apply mean_nonneg. now apply col_nonneg. }
    split; [apply sqrt_pos|].
    assert (Hsq0 : sqrt (mean (map (fun j => mean (col j sq)) (seq 0 c))) = 0
                   <-> mean (map (fun j => mean (col j sq)) (seq 0 c)) = 0).
    { split; [intros H; apply sqrt_eq_0; [now apply mean_nonneg|exact H]
             |intros ->; apply sqrt_0]. }
    rewrite Hsq0. rewrite mean_zero_iff;
      [|exact Hmeans|destruct c; simpl; [lia|easy]].
    unfold sq. rewrite <- (squared_errors_zero T X)
      by (apply (rows_Forall2 c); auto).
    fold sq. rewrite <- (cols_zero_iff c sq HsqR).
    unfold all_zero at 1. rewrite !Forall_map. split.
    + intros H. apply Forall_forall. intros j Hj.
      rewrite Forall_forall in H. specialize (H j Hj).
      apply mean_zero_iff in H; [exact H|now apply col_nonneg|].
      unfold col. destruct sq; simpl in *; [|easy].
      destruct T; simpl in *; [easy|lia].
    + intros H. apply Forall_forall. intros j Hj.
      rewrite Forall_forall in H. specialize (H j Hj).
      apply mean_zero_iff; [now apply col_nonneg| |exact H].
      unfold col. destruct sq; simpl in *; [|easy].
      destruct T; simpl in *; [easy|lia].
Qed.

Lemma compute_rmse_full_test_witness :
  let T := values (evaluation.test_matrix full_test_evaluator) in
  let X := values matching_predictions in
  ((exists v, evaluation.compute_rmse full_test_evaluator matching_predictions
              = Ok v) <->
   Forall (Forall (fun v => 0 < v)) T) /\
  (forall v, evaluation.compute_rmse full_test_evaluator matching_predictions
             = Ok v ->
     0 <= v /\ (v = 0 <-> X = T)).
Proof.
  apply (compute_rmse_full_test full_test_evaluator matching_predictions 2).
  - reflexivity.
  - reflexivity.
  - simpl. discriminate.
  - lia.
  - simpl. repeat constructor.
  - simpl. repeat constructor.
  - reflexivity.
Defined.

Lemma mean_squared_error_finite (yt yp : list (list (option R))) (v : R) :
  mean_squared_error yt yp = Ok v ->
  forallb (forallb (fun c : option R =>
                      match c with Some _ => true | None => false end)) yp
  = true.
Proof.
  unfold mean_squared_error. intros H.
  destruct (negb _); [discriminate|].
  destruct (check_array yt) as [t0|] ; simpl in H; [|discriminate].
  destruct (assert_all_finite t0) as [t|]; simpl in H; [|discriminate].
  destruct (check_array yp) as [p0|] eqn:Ep; simpl in H; [|discriminate].
  assert (p0 = yp) as ->.
  { unfold check_array in Ep. destruct yp as [|[|? ?] ?]; try discriminate.
    now injection Ep. }
  unfold assert_all_finite in H.
  destruct (forallb _ yp); [reflexivity|discriminate].
Qed.

(** A row label of the predictions that the test table lacks leaves a row
    of NaN in the masked predictions. *)
Lemma where_gt0_unlisted_row (x t : DataFrame) (u : Z) :
  length (values x) = length (index x) ->
  Forall (fun row => length row = length (columns x)) (values x) ->
  In u (index x) -> ~ In u (index t) ->
  exists row, In (map (fun _ : R => @None R) row) (where_gt0 x t) /\
              length row = length (columns x).
Proof.
  intros Hlen Hrows Hu Hno.
  apply (In_nth _ _ 0%Z) in Hu as (p & Hp & Hnth).
  exists (nth p (values x) []). split.
  - unfold where_gt0, align, align_rows.
    destruct (list_eq_dec Z.eq_dec (index x) (index t)) as [E|_].
    { exfalso. apply Hno. rewrite <- E, <- Hnth. now apply nth_In. }
    rewrite map_map.
    set (f := fun u0 : Z =>
                match lookup u0 (index t) (values t) with
                | Some row => align_columns x t row
                | None => map (fun _ : Z => None) (columns x)
                end).
    assert (Hin : In (nth p (values x) [], f (nth p (index x) 0%Z))
                    (combine (values x) (map f (index x)))).
    { rewrite <- (nth_map_in f (index x) p 0%Z (f 0%Z)) by exact Hp.
      rewrite <- combine_nth by now rewrite length_map.
      apply nth_In. rewrite length_combine, length_map. lia. }
    apply (in_map (fun xt =>
             map (fun p0 : R * option R =>
                    match snd p0 with
                    | Some v => if Rlt_dec 0 v then Some (fst p0) else None
                    | None => None
                    end) (combine (fst xt) (snd xt)))) in Hin.
    simpl in Hin. rewrite Hnth in Hin. unfold f in Hin.
    rewrite (lookup_notin u _ _ Hno) in Hin.
    rewrite Forall_forall in Hrows.
    assert (Hrow : length (nth p (values x) []) = length (columns x))
      by (apply Hrows, nth_In; lia).
    match type of Hin with In ?a _ =>
      replace a with (map (fun _ : R => @None R) (nth p (values x) []))
        in Hin; [exact Hin|] end.
    clear -Hrow. revert Hrow. generalize (columns x).
    induction (nth p (values x) []) as [|a r IH]; intros [|c cs] H;
      simpl in *; try lia; try reflexivity.
    f_equal. apply IH. lia.
  - rewrite Forall_forall in Hrows. apply Hrows, nth_In. lia.
Qed.

(** X25: predictions that list a user the test table does not list get no
    score, both tables having distinct labels.  The mask is aligned on the
    labels of the predictions, the user's row of the mask is nowhere true,
    the row of the masked predictions is NaN, and the error routine raises
    [ValueError]. *)
Theorem compute_rmse_unlisted_user (ev : evaluation.Evaluator)
    (predictions : DataFrame) (u : Z) :
  wf (evaluation.test_matrix ev) ->
  wf predictions -> columns predictions <> [] ->
  In u (index predictions) -> ~ In u (index (evaluation.test_matrix ev)) ->
  evaluation.compute_rmse ev predictions = Raise ValueError.
Proof.
  intros _ (_ & _ & Hlen & Hrows) Hc Hu Hno. unfold evaluation.compute_rmse.
  destruct (mean_squared_error _ _) as [v|e] eqn:E; simpl.
  - exfalso. apply mean_squared_error_finite in E.
    destruct (where_gt0_unlisted_row predictions (evaluation.test_matrix ev) u
                Hlen Hrows Hu Hno) as (row & Hin & Hrow).
    rewrite forallb_forall in E. specialize (E _ Hin).
    destruct row as [|a row]; simpl in *; [|discriminate].
    destruct (columns predictions); [now apply Hc|discriminate].
  - now rewrite (mean_squared_error_raises _ _ _ E).
Qed.

Lemma compute_rmse_unlisted_user_witness :
  evaluation.compute_rmse full_test_evaluator other_labels_predictions
  = Raise ValueError.
Proof.
  apply (compute_rmse_unlisted_user full_test_evaluator
           other_labels_predictions 2).
  - wf_example.
  - wf_example.
  - simpl. discriminate.
  - simpl. auto.
  - simpl. intuition lia.
Defined.

(** ** data_loader.py: the rating table *)

Lemma insert_label_In (x z : Z) (l : list Z) :
  In z (insert_label x l) <-> z = x \/ In z l.
Proof.
  induction l as [|y l IH]; simpl; [intuition|].
  destruct (Z.ltb_spec x y); simpl; [intuition|].
  destruct (Z.eqb_spec x y) as [->|Hne]; simpl; [intuition|].
  rewrite IH. intuition.
Qed.

Lemma insert_label_sorted (x : Z) (l : list Z) :
  StronglySorted Z.lt l -> StronglySorted Z.lt (insert_label x l).
Proof.
  induction 1 as [|y l Hs IH Hf]; simpl; [repeat constructor|].
  destruct (Z.ltb_spec x y) as [Hlt|Hge].
  - constructor; [now constructor|].
    constructor; [exact Hlt|]. eapply Forall_impl; [|exact Hf].
    intros z Hz. simpl in Hz. lia.
  - destruct (Z.eqb_spec x y) as [->|Hne]; [now constructor|].
    constructor; [exact IH|].
    apply Forall_forall. intros z Hz. apply insert_label_In in Hz.
    destruct Hz as [->|Hz]; [lia|].
    rewrite Forall_forall in Hf. now apply Hf.
Qed.

Lemma sorted_labels_In (z : Z) (l : list Z) :
  In z (sorted_labels l) <-> In z l.
Proof.
  induction l as [|x l IH]; simpl; [reflexivity|].
  rewrite insert_label_In, IH. intuition.
Qed.

Lemma sorted_labels_sorted (l : list Z) : StronglySorted Z.lt (sorted_labels l).
Proof.
  induction l as [|x l IH]; simpl; [constructor|].
  now apply insert_label_sorted.
Qed.

Lemma sorted_lt_nodup (l : list Z) : StronglySorted Z.lt l -> NoDup l.
Proof.
  induction 1 as [|x l Hs IH Hf]; constructor; [|exact IH].
  intros Hin. rewrite Forall_forall in Hf. specialize (Hf x Hin). lia.
Qed.

Lemma has_duplicate_false (l : list (Z * Z)) :
  has_duplicate l = false <-> NoDup l.
Proof.
  induction l as [|[a b] l IH]; simpl.
  - split; [constructor|reflexivity].
  - rewrite orb_false_iff, IH. split.
    + intros [Hex Hnd]. constructor; [|exact Hnd].
      intros Hin. assert (Ht : existsb
        (fun y => Z.eqb a (fst y) && Z.eqb b (snd y)) l = true).
      { apply existsb_exists. exists (a, b). simpl.
        now rewrite !Z.eqb_refl. }
      congruence.
    + intros Hnd. inversion Hnd as [|? ? Hx Hl]; subst. split; [|exact Hl].
      destruct (existsb _ l) eqn:E; [|reflexivity].
      apply existsb_exists in E as ([c d] & Hin & Hb). simpl in Hb.
      apply andb_true_iff in Hb as [H1 H2].
      apply Z.eqb_eq in H1, H2. subst. easy.
Qed.

Lemma lookup_map_self {A : Type} (F : Z -> A) (u : Z) (ks : list Z) :
  lookup u ks (map F ks) = if in_dec Z.eq_dec u ks then Some (F u) else None.
Proof.
  induction ks as [|k ks IH]; simpl; [reflexivity|].
  destruct (Z.eq_dec u k) as [->|Hne].
  - now destruct (Z.eq_dec k k).
  - rewrite IH. destruct (Z.eq_dec k u) as [E|Hku]; [now subst|].
    now destruct (in_dec Z.eq_dec u ks).
Qed.

Lemma find_rating_user (rs : list data_loader.Rating) (u i : Z)
    (r : data_loader.Rating) :
  find (fun r => Z.eqb (data_loader.userId r) u &&
                 Z.eqb (data_loader.movieId r) i) rs = Some r ->
  In r rs /\ data_loader.userId r = u /\ data_loader.movieId r = i.
Proof.
  intros H. apply find_some in H as [Hin Hb].
  apply andb_true_iff in Hb as [H1 H2]. apply Z.eqb_eq in H1, H2. auto.
Qed.

(** A cell of the table built from a ratings file is the rating the file
    gives for the pair. *)
Lemma pivot_cell (rs : list data_loader.Rating) (u i : Z) :
  cell (mkDF (sorted_labels (map data_loader.userId rs))
             (sorted_labels (map data_loader.movieId rs))
             (fillna0
                (map (fun u =>
                   map (fun i =>
                      option_map data_loader.rating
                        (find (fun r => Z.eqb (data_loader.userId r) u &&
                                        Z.eqb (data_loader.movieId r) i) rs))
                     (sorted_labels (map data_loader.movieId rs)))
                   (sorted_labels (map data_loader.userId rs))))) u i
  = rating_of rs u i.
Proof.
  unfold cell, fillna0, rating_of. simpl. rewrite map_map, lookup_map_self.
  destruct (in_dec Z.eq_dec u _) as [Hu|Hu].
  - rewrite map_map, get0_combine by now rewrite length_map.
    rewrite lookup_map_self.
    destruct (in_dec Z.eq_dec i _) as [Hi|Hi].
    + now destruct (find _ rs).
    + destruct (find _ rs) as [r|] eqn:E; [|reflexivity].
      apply find_rating_user in E as (Hin & _ & <-).
      exfalso. apply Hi. apply sorted_labels_In. now apply in_map.
  - destruct (find _ rs) as [r|] eqn:E; [|reflexivity].
    apply find_rating_user in E as (Hin & <- & _).
    exfalso. apply Hu. apply sorted_labels_In. now apply in_map.
Qed.

Lemma get_user_item_matrix_inv (loader : data_loader.DataLoader)
    (t : DataFrame) :
  data_loader.get_user_item_matrix loader = Ok t ->
  exists rs,
    data_loader.ratings loader = Some rs /\ NoDup (rating_pairs rs) /\
    index t = sorted_labels (map data_loader.userId rs) /\
    columns t = sorted_labels (map data_loader.movieId rs) /\
    length (values t) = length (index t) /\
    rows_of (length (columns t)) (values t) /\
    forall u i, cell t u i = rating_of rs u i.
Proof.
  unfold data_loader.get_user_item_matrix, data_loader.pivot.
  destruct (data_loader.ratings loader) as [rs|]; [|easy].
  fold (rating_pairs rs).
  destruct (has_duplicate (rating_pairs rs)) eqn:Ed; simpl; [easy|].
  intros [= <-]. exists rs. split; [reflexivity|].
  split; [now apply has_duplicate_false|]. simpl.
  split; [reflexivity|]. split; [reflexivity|].
  split; [unfold fillna0; now rewrite !length_map|].
  split.
  - unfold rows_of, fillna0. rewrite !Forall_map. apply Forall_forall.
    intros u _. now rewrite !length_map.
  - intros u i. apply pivot_cell.
Qed.

(** X13: [get_user_item_matrix] fails with [ValueError] when the ratings
    are not loaded or the file rates a (user, movie) pair twice, and
    otherwise returns a well-formed table whose row index lists exactly
    the users of the file and whose column index lists exactly its movies,
    both in ascending order. *)
Theorem get_user_item_matrix_table (loader : data_loader.DataLoader) :
  ((exists t, data_loader.get_user_item_matrix loader = Ok t) <->
   (exists rs, data_loader.ratings loader = Some rs /\
               NoDup (rating_pairs rs))) /\
  (forall e, data_loader.get_user_item_matrix loader = Raise e ->
             e = ValueError) /\
  (forall t rs, data_loader.get_user_item_matrix loader = Ok t ->
     data_loader.ratings loader = Some rs ->
     wf t /\
     StronglySorted Z.lt (index t) /\ StronglySorted Z.lt (columns t) /\
     (forall u, In u (index t) <-> In u (map data_loader.userId rs)) /\
     (forall i, In i (columns t) <-> In i (map data_loader.movieId rs))).
Proof.
  split; [split|split].
  - intros [t Ht].
    destruct (get_user_item_matrix_inv _ _ Ht) as (rs & Hr & Hnd & _). eauto.
  - intros (rs & Hr & Hnd).
    unfold data_loader.get_user_item_matrix, data_loader.pivot.
    rewrite Hr. fold (rating_pairs rs).
    apply has_duplicate_false in Hnd. rewrite Hnd. simpl. eauto.
  - intros e. unfold data_loader.get_user_item_matrix, data_loader.pivot.
    destruct (data_loader.ratings loader) as [rs|]; [|now intros [= <-]].
    destruct (has_duplicate _); simpl; [now intros [= <-]|easy].
  - intros t rs Ht Hr.
    destruct (get_user_item_matrix_inv _ _ Ht)
      as (rs' & Hr' & Hnd & Hi & Hc & Hlen & Hrows & _).
    rewrite Hr in Hr'. injection Hr' as <-.
    assert (Hsi : StronglySorted Z.lt (index t))
      by (rewrite Hi; apply sorted_labels_sorted).
    assert (Hsc : StronglySorted Z.lt (columns t))
      by (rewrite Hc; apply sorted_labels_sorted).
    split; [|split; [exact Hsi|split; [exact Hsc|split]]].
    + unfold wf. repeat split; auto using sorted_lt_nodup.
    + intros u. rewrite Hi. apply sorted_labels_In.
    + intros i. rewrite Hc. apply sorted_labels_In.
Qed.

Lemma NoDup_map_same {A B : Type} (f : A -> B) (l : list A) (a b : A) :
  NoDup (map f l) -> In a l -> In b l -> f a = f b -> a = b.
Proof.
  induction l as [|x l IH]; simpl; intros Hnd Ha Hb Hf; [easy|].
  inversion Hnd as [|? ? Hx Hl]; subst.
  destruct Ha as [->|Ha], Hb as [->|Hb]; auto.
  - exfalso. apply Hx. rewrite Hf. now apply in_map.
  - exfalso. apply Hx. rewrite <- Hf. now apply in_map.
Qed.

Lemma rating_of_row (rs : list data_loader.Rating) (r : data_loader.Rating) :
  NoDup (rating_pairs rs) -> In r rs ->
  rating_of rs (data_loader.userId r) (data_loader.movieId r)
  = data_loader.rating r.
Proof.
  intros Hnd Hin. unfold rating_of.
  destruct (find _ rs) as [r'|] eqn:E.
  - apply find_rating_user in E as (Hin' & Hu & Hi).
    f_equal. apply (NoDup_map_same _ rs r' r Hnd Hin' Hin). congruence.
  - exfalso. apply (find_none _ _ E) in Hin. now rewrite !Z.eqb_refl in Hin.
Qed.

Lemma rating_of_absent (rs : list data_loader.Rating) (u i : Z) :
  ~ In (u, i) (rating_pairs rs) -> rating_of rs u i = 0.
Proof.
  intros Hn. unfold rating_of.
  destruct (find _ rs) as [r|] eqn:E; [|reflexivity].
  apply find_rating_user in E as (Hin & <- & <-).
  exfalso. apply Hn. unfold rating_pairs. apply in_map_iff. now exists r.
Qed.

(** X14: in the table [get_user_item_matrix] returns, the cell of a
    (user, movie) pair the ratings file rates holds that rating, and the
    cell of any other pair holds 0. *)
Theorem get_user_item_matrix_cells (loader : data_loader.DataLoader)
    (t : DataFrame) (rs : list data_loader.Rating) :
  data_loader.get_user_item_matrix loader = Ok t ->
  data_loader.ratings loader = Some rs ->
  (forall r, In r rs ->
     cell t (data_loader.userId r) (data_loader.movieId r)
     = data_loader.rating r) /\
  (forall u i, ~ In (u, i) (rating_pairs rs) -> cell t u i = 0).
Proof.
  intros Ht Hr.
  destruct (get_user_item_matrix_inv _ _ Ht) as (rs' & Hr' & Hnd & _ & _ & _ & _ & Hcell).
  rewrite Hr in Hr'. injection Hr' as <-. split.
  - intros r Hin. rewrite Hcell. now apply rating_of_row.
  - intros u i Hn. rewrite Hcell. now apply rating_of_absent.
Qed.

(** The table of the worked example is the one the loader builds from the
    example's ratings. *)
Lemma example_table_loaded :
  data_loader.get_user_item_matrix (data_loader.mkLoader (Some example_ratings))
  = Ok example_table.
Proof. reflexivity. Qed.

Lemma get_user_item_matrix_cells_witness :
  (forall r, In r example_ratings ->
     cell example_table (data_loader.userId r) (data_loader.movieId r)
     = data_loader.rating r) /\
  (forall u i, ~ In (u, i) (rating_pairs example_ratings) ->
     cell example_table u i = 0).
Proof.
  apply (get_user_item_matrix_cells
           (data_loader.mkLoader (Some example_ratings))
           example_table example_ratings).
  - reflexivity.
  - reflexivity.
Defined.

(** ** data_loader.py with evaluation.py and collaborative.py *)

Lemma loaded_table_wf (loader : data_loader.DataLoader) (t : DataFrame) :
  data_loader.get_user_item_matrix loader = Ok t ->
  wf t /\ StronglySorted Z.lt (columns t).
Proof.
  intros Ht.
  destruct (get_user_item_matrix_inv _ _ Ht)
    as (rs & _ & _ & Hi & Hc & Hlen & Hrows & _).
  assert (Hsc : StronglySorted Z.lt (columns t))
    by (rewrite Hc; apply sorted_labels_sorted).
  split; [|exact Hsc]. unfold wf. repeat split; auto using sorted_lt_nodup.
  rewrite Hi. apply sorted_lt_nodup, sorted_labels_sorted.
Qed.

(** X15: the table built from a ratings file whose ratings are all
    positive has no negative cell, and for [0 < test_ratio < 1] and a seed
    NumPy accepts the split of a fresh evaluator on it returns, whatever
    the generator: every user of the table has a rated item. *)
Theorem loaded_table_splits {B64 : Binary64} {B64Ok : Binary64Ok B64}
    {RS : RandomState} (g : state)
    (loader : data_loader.DataLoader) (t : DataFrame)
    (rs : list data_loader.Rating) (ratio : R) (seed_ : Z) :
  data_loader.get_user_item_matrix loader = Ok t ->
  data_loader.ratings loader = Some rs ->
  (forall r, In r rs -> 0 < data_loader.rating r) ->
  0 < ratio < 1 -> (0 <= seed_ <= 4294967295)%Z ->
  (Z.of_nat (length (columns t)) <= 2 ^ 53)%Z ->
  nonneg_matrix (values t) /\
  exists res,
    evaluation.train_test_split g (evaluation.init t ratio seed_) = Ok res.
Proof.
  intros Ht Hr Hpos Hratio Hseed H53.
  destruct (loaded_table_wf _ _ Ht) as [Hwf _].
  destruct (get_user_item_matrix_inv _ _ Ht)
    as (rs' & Hr' & Hnd & Hi & Hc & _ & _ & Hcell).
  rewrite Hr in Hr'. injection Hr' as <-. split.
  - unfold data_loader.get_user_item_matrix, data_loader.pivot in Ht.
    rewrite Hr in Ht. destruct (has_duplicate _); simpl in Ht; [easy|].
    injection Ht as <-. simpl. unfold nonneg_matrix, nonneg, fillna0.
    rewrite !Forall_map. apply Forall_forall. intros u _.
    rewrite !Forall_map. apply Forall_forall. intros i _.
    destruct (find _ rs) as [r|] eqn:E; simpl; [|lra].
    apply find_rating_user in E as (Hin & _). left. now apply Hpos.
  - rewrite train_test_split_plan. simpl.
    rewrite (random_seed_Ok seed_ Hseed). simpl.
    destruct (split_plan_total t ratio (index t) (seed seed_) Hwf Hratio H53)
      as [[plan g'] ->]; [|simpl; eauto].
    intros u Hu. split; [exact Hu|].
    rewrite Hi in Hu. apply (proj1 (sorted_labels_In _ _)) in Hu.
    apply in_map_iff in Hu as (r & <- & Hin).
    exists (data_loader.movieId r). split.
    + rewrite Hc. apply sorted_labels_In. now apply in_map.
    + rewrite Hcell, rating_of_row by assumption. now apply Hpos.
Qed.

Lemma loaded_table_splits_witness :
  nonneg_matrix (values example_table) /\
  exists res,
    @evaluation.train_test_split exact_arithmetic counter_rng O
      (evaluation.init example_table 0.2 42) = Ok res.
Proof.
  apply (@loaded_table_splits exact_arithmetic exact_arithmetic_ok
           counter_rng O
           (data_loader.mkLoader (Some example_ratings))
           example_table example_ratings 0.2 42).
  - reflexivity.
  - reflexivity.
  - intros r Hin. simpl in Hin.
    repeat (destruct Hin as [<-|Hin]; [simpl; lra|]). destruct Hin.
  - lra.
  - lia.
  - simpl. lia.
Defined.

(** X16: on the table [get_user_item_matrix] has built from a ratings
    file, and with [top_n] at least the number of its columns, the items
    either recommender returns for a user are exactly the movies of the
    file for which the file holds no rating by that user, or the rating
    0. *)
Theorem loaded_table_recommends_unrated {QS : Argsort} {QSOk : ArgsortOk QS}
    (loader : data_loader.DataLoader) (rs : list data_loader.Rating)
    cf u top_n :
  data_loader.ratings loader = Some rs ->
  data_loader.get_user_item_matrix loader
    = Ok (collaborative.user_item_matrix cf) ->
  item_cache_ok cf ->
  (Z.of_nat (length (columns (collaborative.user_item_matrix cf))) <= top_n)%Z ->
  let exact res :=
    forall i, In i (map fst res) <->
              In i (map data_loader.movieId rs) /\ rating_of rs u i = 0 in
  returns exact (collaborative.recommend_user_based cf u top_n) /\
  returns exact (collaborative.recommend_item_based cf u top_n).
Proof.
  intros Hrs Ht Hcache Htop exact. subst exact.
  destruct (loaded_table_wf _ _ Ht) as [Hwf _].
  destruct (get_user_item_matrix_inv _ _ Ht)
    as (rs' & Hrs' & _ & _ & Hcols & _ & _ & Hcell).
  rewrite Hrs in Hrs'. injection Hrs' as <-.
  assert (Hiff : forall i,
            In i (columns (collaborative.user_item_matrix cf)) /\
            cell (collaborative.user_item_matrix cf) u i = 0 <->
            In i (map data_loader.movieId rs) /\ rating_of rs u i = 0).
  { intros i. rewrite Hcols, sorted_labels_In, Hcell. reflexivity. }
  split.
  - unfold collaborative.recommend_user_based.
    destruct (collaborative.predicted_user_based cf u) as [[s cf']|] eqn:E;
      simpl; [|exact I].
    destruct (predicted_user_based_inv _ _ _ _ E) as (pred & row & Hr & Hl & ->).
    intros i. rewrite <- Hiff. now apply ranked_all_unrated.
  - unfold collaborative.recommend_item_based.
    destruct (collaborative.predicted_item_based cf u) as [[s cf']|] eqn:E;
      simpl; [|exact I].
    destruct (predicted_item_based_inv _ _ _ _ Hwf Hcache E)
      as (pred & row & Hr & Hl & ->).
    intros i. rewrite <- Hiff. now apply ranked_all_unrated.
Qed.

Lemma loaded_table_recommends_unrated_witness :
  let exact res :=
    forall i, In i (map fst res) <->
              In i (map data_loader.movieId example_ratings) /\
              rating_of example_ratings 1 i = 0 in
  returns exact
    (@collaborative.recommend_user_based insertion_sort
       (collaborative.init example_table) 1 3) /\
  returns exact
    (@collaborative.recommend_item_based insertion_sort
       (collaborative.init example_table) 1 3).
Proof.
  apply (@loaded_table_recommends_unrated insertion_sort insertion_sort_ok
           (data_loader.mkLoader (Some example_ratings)) example_ratings
           (collaborative.init example_table) 1 3).
  - reflexivity.
  - reflexivity.
  - intros sim H. simpl in H. discriminate.
  - simpl. lia.
Defined.

(** ** app.py: the recommendations route *)

Lemma recommender_absent {QS : Argsort}
    (a : app.App) (u : Z) (method : string) (n : Z) :
  app_ok a -> ~ In u (index (app.user_item_matrix a)) ->
  recommender method (app.cf_model a) u n = Raise KeyError.
Proof.
  intros (Hm & Hwf & Hi & Hc & _) Hn. rewrite <- Hm in *.
  unfold recommender. destruct (String.eqb method "user").
  - now apply recommend_user_based_absent.
  - now apply recommend_item_based_absent.
Qed.

(** For a user of the table the chosen recommender returns the ranked
    prefix of a masked series over the columns. *)
Lemma recommender_present {QS : Argsort}
    (a : app.App) (u : Z) (method : string) :
  app_ok a -> In u (index (app.user_item_matrix a)) ->
  exists pred row,
    lookup u (index (app.user_item_matrix a)) (values (app.user_item_matrix a))
      = Some row /\
    map fst pred = columns (app.user_item_matrix a) /\
    forall n, exists cf',
      recommender method (app.cf_model a) u n =
      Ok (head n (sort_values_desc
                    (mask_eq0 pred
                       (combine (columns (app.user_item_matrix a)) row))),
          cf').
Proof.
  intros (Hm & Hwf & Hi & Hc & Hcu & Hci) Hu. rewrite <- Hm in *.
  unfold recommender. destruct (String.eqb method "user").
  - destruct (predicted_user_based_present _ u Hwf Hi Hc Hcu Hu)
      as [[s cf'] Hs].
    destruct (predicted_user_based_inv _ _ _ _ Hs) as (pred & row & Hr & Hl & ->).
    exists pred, row. repeat split; try assumption.
    intros n. exists cf'. unfold collaborative.recommend_user_based.
    now rewrite Hs.
  - destruct (predicted_item_based_present _ u Hwf Hi Hc Hu) as [[s cf'] Hs].
    destruct (predicted_item_based_inv _ _ _ _ Hwf Hci Hs)
      as (pred & row & Hr & Hl & ->).
    exists pred, row. repeat split; try assumption.
    intros n. exists cf'. unfold collaborative.recommend_item_based.
    now rewrite Hs.
Qed.

Lemma ranking_recommender {QS : Argsort}
    (a : app.App) (u : Z) (method : string) :
  app.ranking a u method =
  match recommender method (app.cf_model a) u
          (Z.of_nat (length (columns (app.user_item_matrix a)))) with
  | Ok x => inl (fst x)
  | Raise KeyError => inl []
  | Raise e => inr (app.Engine e)
  end.
Proof.
  unfold app.ranking, recommender. now destruct (String.eqb method "user").
Qed.

(** X17: for a user the rating table does not list, the route fails with
    [KeyError] whatever the method, [top_n] and genre: the handler around
    the recommender call empties the list, and the row lookup on the next
    line raises again. *)
Theorem recommendations_unknown_user {QS : Argsort} (lower : string -> string)
    (round2 : R -> R) (a : app.App) (u : Z) (method : string) (top_n : Z)
    (genre_filter : string) :
  app_ok a -> ~ In u (index (app.user_item_matrix a)) ->
  app.recommendations lower round2 a u method top_n genre_filter
  = inr (app.Engine KeyError).
Proof.
  intros Hok Hn. unfold app.recommendations, app.recommendation_ids.
  rewrite ranking_recommender, (recommender_absent a u method _ Hok Hn).
  simpl. unfold app.rated_movies, loc. now rewrite lookup_notin.
Qed.

Lemma recommendations_unknown_user_witness :
  (@app.recommendations insertion_sort)
       (fun s => s) (fun x => x) example_app 7 "user" 10 ""
  = inr (app.Engine KeyError).
Proof.
  apply (recommendations_unknown_user (fun s => s) (fun x => x)
           example_app 7 "user" 10 "").
  - unfold app_ok. simpl. split; [reflexivity|]. split; [wf_example|].
    repeat split; try discriminate; intros sim H; simpl in H; discriminate.
  - simpl. intuition lia.
Defined.

Lemma filter_all {A : Type} (f : A -> bool) (l : list A) :
  (forall x, In x l -> f x = true) -> filter f l = l.
Proof.
  induction l as [|x l IH]; simpl; intros H; [reflexivity|].
  rewrite (H x) by now left. f_equal. apply IH. intros y Hy. apply H. now right.
Qed.

(** The filter of line 62 removes nothing from a ranking. *)
Lemma rated_filter_identity {QS : Argsort} {QSOk : ArgsortOk QS}
    (df : DataFrame) (u : Z) (row : list R)
    (pred : Series) (n : Z) :
  wf df -> lookup u (index df) (values df) = Some row ->
  map fst pred = columns df ->
  let recs := head n (sort_values_desc
                        (mask_eq0 pred (combine (columns df) row))) in
  filter (fun p => if in_dec Z.eq_dec (fst p)
                        (evaluation.rated_items (combine (columns df) row))
                   then false else true) recs = recs.
Proof.
  intros Hwf Hrow Hl recs. apply filter_all. intros p Hp.
  destruct (in_dec Z.eq_dec (fst p) _) as [Hin|]; [|reflexivity].
  exfalso. subst recs. apply head_In in Hp.
  apply (Permutation_in _ (sort_values_desc_perm _)) in Hp.
  pose proof (mask_keeps_unrated df u row pred p Hwf Hrow Hl Hp) as Hz.
  unfold cell in Hz. rewrite Hrow in Hz.
  apply rated_items_spec in Hin as [_ Hpos].
  - lra.
  - now destruct Hwf as (_ & Hnc & _).
  - eapply lookup_row_length; eauto.
Qed.

Lemma head_head_all {A : Type} (n : Z) (k : nat) (l : list A) :
  (length l <= k)%nat -> head n (head (Z.of_nat k) l) = head n l.
Proof. intros H. rewrite (head_all (Z.of_nat k)) by lia. reflexivity. Qed.

Lemma ranked_length {QS : Argsort} {QSOk : ArgsortOk QS}
    (pred ratings : Series) :
  (length (sort_values_desc (mask_eq0 pred ratings)) <= length pred)%nat.
Proof.
  rewrite (Permutation_length (sort_values_desc_perm _)).
  apply mask_eq0_length.
Qed.

(** X18: for a user of the table and no genre filter, the pairs the route
    shows are the list the chosen recommender returns for [top_n]: asking
    for the full ranking, filtering the rated movies out again and cutting
    to [top_n] changes nothing. *)
Theorem recommendations_without_genre {QS : Argsort} {QSOk : ArgsortOk QS}
    (lower : string -> string)
    (a : app.App) (u : Z) (method : string) (top_n : Z) :
  app_ok a -> In u (index (app.user_item_matrix a)) ->
  exists res cf',
    recommender method (app.cf_model a) u top_n = Ok (res, cf') /\
    app.recommendation_ids lower a u method top_n "" = inl res.
Proof.
  intros Hok Hu.
  destruct (recommender_present a u method Hok Hu)
    as (pred & row & Hrow & Hl & Hrec).
  destruct Hok as (Hm & Hwf & _).
  destruct (Hrec top_n) as [cf1 H1].
  destruct (Hrec (Z.of_nat (length (columns (app.user_item_matrix a)))))
    as [cf2 H2].
  eexists. exists cf1. split; [exact H1|].
  unfold app.recommendation_ids. rewrite ranking_recommender, H2. simpl.
  unfold app.rated_movies, loc. rewrite Hrow. simpl.
  rewrite (rated_filter_identity _ u row pred _ Hwf Hrow Hl).
  rewrite head_head_all; [reflexivity|].
  pose proof (ranked_length pred
                (combine (columns (app.user_item_matrix a)) row)) as Hlen.
  assert (length pred = length (columns (app.user_item_matrix a)))
    by (rewrite <- Hl; now rewrite length_map).
  lia.
Qed.

Lemma recommendations_without_genre_witness :
  exists res cf',
    (@recommender insertion_sort)
         "item" (app.cf_model example_app) 1 2 = Ok (res, cf') /\
    (@app.recommendation_ids insertion_sort)
         (fun s => s) example_app 1 "item" 2 "" = inl res.
Proof.
  apply (recommendations_without_genre (fun s => s) example_app 1 "item" 2).
  - unfold app_ok. simpl. split; [reflexivity|]. split; [wf_example|].
    repeat split; try discriminate; intros sim H; simpl in H; discriminate.
  - simpl. auto.
Defined.

Lemma recommendation_ids_absent {QS : Argsort}
    (lower : string -> string) (a : app.App)
    (u : Z) (method : string) (top_n : Z) (g : string) :
  app_ok a -> ~ In u (index (app.user_item_matrix a)) ->
  app.recommendation_ids lower a u method top_n g = inr (app.Engine KeyError).
Proof.
  intros Hok Hn. unfold app.recommendation_ids.
  rewrite ranking_recommender, (recommender_absent a u method _ Hok Hn).
  simpl. unfold app.rated_movies, loc. now rewrite lookup_notin.
Qed.

(** What lines 52-62 leave for a user of the table: the full ranking of the
    recommender, whose items are the unrated columns. *)
Lemma recommendation_ids_present {QS : Argsort} {QSOk : ArgsortOk QS}
    (lower : string -> string) (a : app.App)
    (u : Z) (method : string) :
  app_ok a -> In u (index (app.user_item_matrix a)) ->
  exists full,
    (forall i, In i (map fst full) <->
               In i (columns (app.user_item_matrix a)) /\
               cell (app.user_item_matrix a) u i = 0) /\
    NoDup (map fst full) /\
    forall top_n g,
      app.recommendation_ids lower a u method top_n g =
      app.and_then (if String.eqb g "" then inl full
                    else app.genre_filtered lower a g full)
        (fun recs => inl (head top_n recs)).
Proof.
  intros Hok Hu.
  destruct (recommender_present a u method Hok Hu)
    as (pred & row & Hrow & Hl & Hrec).
  destruct Hok as (Hm & Hwf & _).
  set (n := Z.of_nat (length (columns (app.user_item_matrix a)))).
  destruct (Hrec n) as [cf2 H2].
  exists (head n (sort_values_desc
                    (mask_eq0 pred
                       (combine (columns (app.user_item_matrix a)) row)))).
  split; [|split].
  - intros i. apply ranked_all_unrated; try assumption. subst n. lia.
  - apply (ranked_items (columns (app.user_item_matrix a)) pred); try assumption.
    now destruct Hwf as (_ & Hnd & _).
  - intros top_n g. unfold app.recommendation_ids.
    rewrite ranking_recommender. fold n. rewrite H2. simpl.
    unfold app.rated_movies, loc. rewrite Hrow. simpl.
    now rewrite (rated_filter_identity _ u row pred _ Hwf Hrow Hl).
Qed.

Lemma movie_row_error (a : app.App) (i : Z) (e : app.error) :
  app.movie_row a i = inr e -> e = app.IndexError.
Proof.
  unfold app.movie_row. destruct (find _ _); [discriminate|]. now intros [= <-].
Qed.

Lemma movie_row_id (a : app.App) (i : Z) (m : app.Movie) :
  app.movie_row a i = inl m -> In m (app.movies a) /\ app.movieId m = i.
Proof.
  unfold app.movie_row. destruct (find _ _) eqn:E; [|discriminate].
  intros [= <-]. apply find_some in E as [Hin Heq]. split; [exact Hin|lia].
Qed.

Lemma movie_row_listed (a : app.App) (i : Z) :
  In i (map app.movieId (app.movies a)) -> exists m, app.movie_row a i = inl m.
Proof.
  intros H. apply in_map_iff in H as (m & Hm & Hin).
  unfold app.movie_row. destruct (find _ _) eqn:E; [eauto|].
  exfalso. apply (find_none _ _ E) in Hin. lia.
Qed.

Lemma genre_filtered_filter (lower : string -> string) (a : app.App)
    (g : string) (recs out : list (Z * R)) :
  app.genre_filtered lower a g recs = inl out ->
  out = filter (fun p => match app.movie_row a (fst p) with
                         | inl m => if in_dec string_dec g
                                         (map lower (app.genres m))
                                    then true else false
                         | inr _ => false
                         end) recs /\
  forall p, In p recs -> exists m, app.movie_row a (fst p) = inl m.
Proof.
  revert out. induction recs as [|q rest IH]; simpl; intros out.
  - intros [= <-]. split; [reflexivity|]. intros p [].
  - destruct (app.movie_row a (fst q)) as [m|e] eqn:E; simpl; [|discriminate].
    destruct (app.genre_filtered lower a g rest) as [rest'|e] eqn:E2; simpl;
      [|discriminate].
    intros [= <-]. destruct (IH _ eq_refl) as [-> H]. split.
    + now destruct (in_dec string_dec g (map lower (app.genres m))).
    + intros p [<-|Hp]; eauto.
Qed.

Lemma genre_filtered_total (lower : string -> string) (a : app.App)
    (g : string) (recs : list (Z * R)) :
  (forall p, In p recs -> exists m, app.movie_row a (fst p) = inl m) ->
  exists out, app.genre_filtered lower a g recs = inl out.
Proof.
  induction recs as [|q rest IH]; simpl; intros H; [eauto|].
  destruct (H q (or_introl eq_refl)) as [m ->]. simpl.
  destruct IH as [out ->]; [intros p Hp; apply H; now right|].
  simpl. eauto.
Qed.

Lemma genre_filtered_fails (lower : string -> string) (a : app.App)
    (g : string) (recs : list (Z * R)) (p : Z * R) (e : app.error) :
  In p recs -> app.movie_row a (fst p) = inr e ->
  app.genre_filtered lower a g recs = inr app.IndexError.
Proof.
  induction recs as [|q rest IH]; simpl; intros Hin He; [easy|].
  destruct (app.movie_row a (fst q)) as [m|e'] eqn:E; simpl.
  - destruct Hin as [->|Hin]; [congruence|].
    now rewrite (IH Hin He).
  - now rewrite (movie_row_error _ _ _ E).
Qed.

Lemma titled_total (round2 : R -> R) (a : app.App) (recs : list (Z * R)) :
  (forall p, In p recs -> exists m, app.movie_row a (fst p) = inl m) ->
  exists out, app.titled round2 a recs = inl out.
Proof.
  induction recs as [|q rest IH]; simpl; intros H; [eauto|].
  destruct (H q (or_introl eq_refl)) as [m ->]. simpl.
  destruct IH as [out ->]; [intros p Hp; apply H; now right|].
  simpl. eauto.
Qed.

Lemma titled_fails (round2 : R -> R) (a : app.App) (recs : list (Z * R))
    (p : Z * R) (e : app.error) :
  In p recs -> app.movie_row a (fst p) = inr e ->
  app.titled round2 a recs = inr app.IndexError.
Proof.
  induction recs as [|q rest IH]; simpl; intros Hin He; [easy|].
  destruct (app.movie_row a (fst q)) as [m|e'] eqn:E; simpl.
  - destruct Hin as [->|Hin]; [congruence|].
    now rewrite (IH Hin He).
  - now rewrite (movie_row_error _ _ _ E).
Qed.

Lemma titled_inv (round2 : R -> R) (a : app.App) (recs : list (Z * R))
    (out : list (string * R * option R)) :
  app.titled round2 a recs = inl out ->
  map (fun x => snd (fst x)) out = map snd recs /\
  map snd out = map (fun p => app.avg_rating round2 a (fst p)) recs /\
  Forall2 (fun x p => exists m, app.movie_row a (fst p) = inl m /\
                                fst (fst x) = app.title m) out recs.
Proof.
  revert out. induction recs as [|q rest IH]; simpl; intros out.
  - intros [= <-]. repeat split; constructor.
  - destruct (app.movie_row a (fst q)) as [m|e] eqn:E; simpl; [|discriminate].
    destruct (app.titled round2 a rest) as [rest'|e] eqn:E2; simpl;
      [|discriminate].
    intros [= <-]. destruct (IH _ eq_refl) as (H1 & H2 & H3). simpl.
    rewrite H1, H2. repeat split. constructor; [eauto|exact H3].
Qed.

Lemma filter_map_NoDup {A B : Type} (f : A -> B) (t : A -> bool)
    (l : list A) :
  NoDup (map f l) -> NoDup (map f (filter t l)).
Proof.
  induction l as [|x l IH]; simpl; intros H; [constructor|].
  inversion H as [|? ? Hx Hl]; subst.
  destruct (t x); simpl; [|now apply IH].
  constructor; [|now apply IH].
  intros Hin. apply Hx. apply in_map_iff in Hin as (y & Hy & Hin).
  apply filter_In in Hin as [Hin _]. apply in_map_iff. eauto.
Qed.

Lemma head_map_NoDup {A B : Type} (f : A -> B) (n : Z) (l : list A) :
  NoDup (map f l) -> NoDup (map f (head n l)).
Proof.
  destruct (head_firstn n l) as [k ->]. rewrite <- firstn_map.
  apply firstn_nodup.
Qed.

Lemma head_length_le {A : Type} (n : Z) (l : list A) :
  (0 <= n)%Z -> (length (head n l) <= Z.to_nat n)%nat.
Proof.
  intros Hn. unfold head. destruct (Z.leb_spec 0 n); [|lia].
  apply firstn_le_length.
Qed.

(** X19: what a non-empty genre filter returns.  Every pair shown is a
    movie of the table the user has not rated whose [movies] row lists the
    genre (after [lower]); no movie is shown twice; and for [top_n >= 0]
    at most [top_n] are shown. *)
Theorem recommendations_genre_filter {QS : Argsort} {QSOk : ArgsortOk QS}
    (lower : string -> string)
    (a : app.App) (u : Z) (method : string) (top_n : Z) (g : string)
    (out : list (Z * R)) :
  app_ok a -> g <> ""%string ->
  app.recommendation_ids lower a u method top_n g = inl out ->
  (forall p, In p out ->
     In (fst p) (columns (app.user_item_matrix a)) /\
     cell (app.user_item_matrix a) u (fst p) = 0 /\
     exists m, app.movie_row a (fst p) = inl m /\
               In g (map lower (app.genres m))) /\
  NoDup (map fst out) /\
  ((0 <= top_n)%Z -> (length out <= Z.to_nat top_n)%nat).
Proof.
  intros Hok Hg Hout.
  destruct (in_dec Z.eq_dec u (index (app.user_item_matrix a))) as [Hu|Hu];
    [|rewrite (recommendation_ids_absent lower a u method top_n g Hok Hu)
        in Hout; discriminate].
  destruct (recommendation_ids_present lower a u method Hok Hu)
    as (full & Hfull & Hnd & Hrec).
  rewrite Hrec in Hout. apply String.eqb_neq in Hg. rewrite Hg in Hout.
  destruct (app.genre_filtered lower a g full) as [recs|e] eqn:E;
    simpl in Hout; [|discriminate].
  injection Hout as <-.
  apply genre_filtered_filter in E as [-> _].
  split; [|split].
  - intros p Hp. apply head_In in Hp. apply filter_In in Hp as [Hp Hgen].
    assert (In (fst p) (map fst full)) as Hi by now apply in_map.
    apply Hfull in Hi as [Hc Hz]. split; [exact Hc|]. split; [exact Hz|].
    destruct (app.movie_row a (fst p)) as [m|]; [|discriminate].
    exists m. split; [reflexivity|].
    now destruct (in_dec string_dec g (map lower (app.genres m))).
  - now apply head_map_NoDup, filter_map_NoDup.
  - apply head_length_le.
Qed.

Lemma example_app_ok : app_ok example_app.
Proof.
  unfold app_ok. simpl. split; [reflexivity|]. split; [wf_example|].
  repeat split; try discriminate; intros sim H; simpl in H; discriminate.
Qed.

Lemma movie_row_unlisted (a : app.App) (i : Z) :
  ~ In i (map app.movieId (app.movies a)) ->
  app.movie_row a i = inr app.IndexError.
Proof.
  intros H. destruct (app.movie_row a i) as [m|e] eqn:E.
  - exfalso. apply H. apply movie_row_id in E as [Hin <-]. now apply in_map.
  - now rewrite (movie_row_error _ _ _ E).
Qed.

(** The pairs lines 52-70 leave are unrated movies of the table, whatever
    the genre filter. *)
Lemma recommendation_ids_items {QS : Argsort} {QSOk : ArgsortOk QS}
    (lower : string -> string) (a : app.App)
    (u : Z) (method : string) (top_n : Z) (g : string) (out : list (Z * R)) :
  app_ok a -> app.recommendation_ids lower a u method top_n g = inl out ->
  forall p, In p out ->
    In (fst p) (columns (app.user_item_matrix a)) /\
    cell (app.user_item_matrix a) u (fst p) = 0.
Proof.
  intros Hok Hout p Hp.
  destruct (in_dec Z.eq_dec u (index (app.user_item_matrix a))) as [Hu|Hu];
    [|rewrite (recommendation_ids_absent lower a u method top_n g Hok Hu)
        in Hout; discriminate].
  destruct (recommendation_ids_present lower a u method Hok Hu)
    as (full & Hfull & Hnd & Hrec).
  rewrite Hrec in Hout. apply Hfull.
  destruct (String.eqb g "").
  - simpl in Hout. injection Hout as <-. apply head_In in Hp.
    now apply in_map.
  - destruct (app.genre_filtered lower a g full) as [recs|e] eqn:E;
      simpl in Hout; [|discriminate].
    injection Hout as <-. apply genre_filtered_filter in E as [-> _].
    apply head_In in Hp. apply filter_In in Hp as [Hp _]. now apply in_map.
Qed.

Lemma recommendation_ids_total {QS : Argsort} {QSOk : ArgsortOk QS}
    (lower : string -> string) (a : app.App)
    (u : Z) (method : string) (top_n : Z) (g : string) :
  app_ok a -> In u (index (app.user_item_matrix a)) ->
  (g <> ""%string ->
   forall i, In i (columns (app.user_item_matrix a)) ->
             cell (app.user_item_matrix a) u i = 0 ->
             In i (map app.movieId (app.movies a))) ->
  exists out, app.recommendation_ids lower a u method top_n g = inl out.
Proof.
  intros Hok Hu Hrows.
  destruct (recommendation_ids_present lower a u method Hok Hu)
    as (full & Hfull & Hnd & Hrec).
  rewrite Hrec. destruct (String.eqb_spec g "") as [Hg|Hg]; simpl; [eauto|].
  destruct (genre_filtered_total lower a g full) as [recs ->]; simpl; [|eauto].
  intros p Hp. apply movie_row_listed.
  assert (In (fst p) (map fst full)) as Hi by now apply in_map.
  apply Hfull in Hi as [Hc Hz]. now apply Hrows.
Qed.

(** X20: with a genre filter the route looks up the [movies] row of every
    movie the user has not rated, before it cuts to [top_n].  So for a user
    of the table it returns when all those movies are listed, and fails
    with [IndexError] as soon as one unrated movie of the table is not,
    whatever [top_n] is. *)
Theorem genre_filter_reads_every_unrated_movie {QS : Argsort} {QSOk : ArgsortOk QS} (lower : string -> string)
    (a : app.App) (u : Z) (method : string) (top_n : Z) (g : string) :
  app_ok a -> In u (index (app.user_item_matrix a)) -> g <> ""%string ->
  ((forall i, In i (columns (app.user_item_matrix a)) ->
              cell (app.user_item_matrix a) u i = 0 ->
              In i (map app.movieId (app.movies a))) ->
   exists out, app.recommendation_ids lower a u method top_n g = inl out) /\
  (forall i, In i (columns (app.user_item_matrix a)) ->
             cell (app.user_item_matrix a) u i = 0 ->
             ~ In i (map app.movieId (app.movies a)) ->
             app.recommendation_ids lower a u method top_n g
             = inr app.IndexError).
Proof.
  intros Hok Hu Hg. split.
  - intros Hrows. now apply recommendation_ids_total.
  - intros i Hc Hz Hno.
    destruct (recommendation_ids_present lower a u method Hok Hu)
      as (full & Hfull & Hnd & Hrec).
    rewrite Hrec. apply String.eqb_neq in Hg. rewrite Hg.
    assert (In i (map fst full)) as Hi by now apply Hfull.
    apply in_map_iff in Hi as (p & <- & Hp).
    now rewrite (genre_filtered_fails lower a g full p app.IndexError Hp
                   (movie_row_unlisted a (fst p) Hno)).
Qed.

Lemma genre_filter_reads_every_unrated_movie_witness :
  ((forall i, In i (columns (app.user_item_matrix example_app)) ->
              cell (app.user_item_matrix example_app) 3 i = 0 ->
              In i (map app.movieId (app.movies example_app))) ->
   exists out, (@app.recommendation_ids insertion_sort)
        (fun s => s) example_app 3 "item" 0
                 "Action" = inl out) /\
  (forall i, In i (columns (app.user_item_matrix example_app)) ->
             cell (app.user_item_matrix example_app) 3 i = 0 ->
             ~ In i (map app.movieId (app.movies example_app)) ->
             (@app.recommendation_ids insertion_sort)
                  (fun s => s) example_app 3 "item" 0
               "Action" = inr app.IndexError).
Proof.
  apply (genre_filter_reads_every_unrated_movie (fun s => s) example_app 3
           "item" 0 "Action").
  - exact example_app_ok.
  - simpl. auto.
  - discriminate.
Defined.

Lemma recommendations_genre_filter_witness :
  exists out,
    (@app.recommendation_ids insertion_sort)
         (fun s => s) example_app 3 "item" 10 "Action"
    = inl out /\
    (forall p, In p out ->
       In (fst p) (columns (app.user_item_matrix example_app)) /\
       cell (app.user_item_matrix example_app) 3 (fst p) = 0 /\
       exists m, app.movie_row example_app (fst p) = inl m /\
                 In "Action"%string (map (fun s => s) (app.genres m))) /\
    NoDup (map fst out) /\
    ((0 <= 10)%Z -> (length out <= Z.to_nat 10)%nat).
Proof.
  destruct (recommendation_ids_total (QS := insertion_sort) (fun s => s)
              example_app 3 "item" 10
              "Action" example_app_ok) as [out Hout].
  - simpl. auto.
  - intros _ i Hi _. exact Hi.
  - exists out. split; [exact Hout|].
    apply (recommendations_genre_filter (QS := insertion_sort) (fun s => s)
             example_app 3 "item" 10 "Action" out).
    + exact example_app_ok.
    + discriminate.
    + exact Hout.
Defined.

Lemma route_total {QS : Argsort} {QSOk : ArgsortOk QS}
    (lower : string -> string) (round2 : R -> R)
    (a : app.App) (u : Z) (method : string) (top_n : Z) (g : string) :
  app_ok a -> In u (index (app.user_item_matrix a)) ->
  incl (columns (app.user_item_matrix a)) (map app.movieId (app.movies a)) ->
  exists ids out,
    app.recommendation_ids lower a u method top_n g = inl ids /\
    app.recommendations lower round2 a u method top_n g = inl out.
Proof.
  intros Hok Hu Hrows.
  destruct (recommendation_ids_total lower a u method top_n g Hok Hu)
    as [ids Hids]; [intros _ i Hi _; now apply Hrows|].
  destruct (titled_total round2 a ids) as [out Hout].
  - intros p Hp. apply movie_row_listed, Hrows.
    now apply (recommendation_ids_items lower a u method top_n g ids Hok Hids).
  - exists ids, out. split; [exact Hids|].
    unfold app.recommendations. rewrite Hids. exact Hout.
Qed.

(** X21: when [movies] lists every movie of the rating table, the route
    returns for every user of the table, whatever the method, [top_n] and
    genre.  The list handed to the template has one entry per pair of
    lines 52-70, in the same order, with the pair's predicted rating and
    the title of the first [movies] row of that id. *)
Theorem recommendations_returns {QS : Argsort} {QSOk : ArgsortOk QS}
    (lower : string -> string) (round2 : R -> R)
    (a : app.App) (u : Z) (method : string) (top_n : Z) (g : string) :
  app_ok a -> In u (index (app.user_item_matrix a)) ->
  incl (columns (app.user_item_matrix a)) (map app.movieId (app.movies a)) ->
  exists ids out,
    app.recommendation_ids lower a u method top_n g = inl ids /\
    app.recommendations lower round2 a u method top_n g = inl out /\
    map (fun x => snd (fst x)) out = map snd ids /\
    Forall2 (fun x p => exists m, app.movie_row a (fst p) = inl m /\
                                  fst (fst x) = app.title m) out ids.
Proof.
  intros Hok Hu Hrows.
  destruct (route_total lower round2 a u method top_n g Hok Hu Hrows)
    as (ids & out & Hids & Hout).
  exists ids, out. split; [exact Hids|]. split; [exact Hout|].
  unfold app.recommendations in Hout. rewrite Hids in Hout. simpl in Hout.
  apply titled_inv in Hout as (H1 & _ & H3). now split.
Qed.

Lemma recommendations_returns_witness :
  exists ids out,
    (@app.recommendation_ids insertion_sort)
         (fun s => s) example_app 1 "user" 10 "" = inl ids /\
    (@app.recommendations insertion_sort)
         (fun s => s) (fun x => x) example_app 1 "user" 10 ""
    = inl out /\
    map (fun x => snd (fst x)) out = map snd ids /\
    Forall2 (fun x p => exists m, app.movie_row example_app (fst p) = inl m /\
                                  fst (fst x) = app.title m) out ids.
Proof.
  apply (recommendations_returns (fun s => s) (fun x => x) example_app 1
           "user" 10 "").
  - exact example_app_ok.
  - simpl. auto.
  - intros i Hi. exact Hi.
Defined.

Lemma avg_rating_rated (round2 : R -> R) (a : app.App) (i : Z) :
  In i (map data_loader.movieId (app.ratings a)) ->
  exists v, app.avg_rating round2 a i = Some v.
Proof.
  intros H. apply in_map_iff in H as (r & Hr & Hin).
  unfold app.avg_rating.
  assert (In r (filter (fun r => Z.eqb (data_loader.movieId r) i)
                  (app.ratings a))) as Hf
    by (apply filter_In; split; [exact Hin|lia]).
  destruct (filter _ (app.ratings a)) as [|x l]; [destruct Hf|].
  simpl. eauto.
Qed.

(** X22: when the rating table is the pivot of the ratings the route
    averages over, every entry of the response carries an average rating:
    the [None] of line 77 is never taken, because a recommended movie is a
    column of the table and so has a rating. *)
Theorem recommendations_average_present {QS : Argsort} {QSOk : ArgsortOk QS}
    (lower : string -> string)
    (round2 : R -> R) (a : app.App) (u : Z) (method : string) (top_n : Z)
    (g : string) (out : list (string * R * option R)) :
  app_ok a ->
  data_loader.get_user_item_matrix
    (data_loader.mkLoader (Some (app.ratings a)))
  = Ok (app.user_item_matrix a) ->
  app.recommendations lower round2 a u method top_n g = inl out ->
  Forall (fun x => exists v, snd x = Some v) out.
Proof.
  intros Hok Ht Hout. unfold app.recommendations in Hout.
  destruct (app.recommendation_ids lower a u method top_n g) as [ids|e] eqn:E;
    simpl in Hout; [|discriminate].
  apply titled_inv in Hout as (_ & H2 & _).
  apply Forall_forall. intros x Hx.
  assert (In (snd x) (map snd out)) as Hs by now apply in_map.
  rewrite H2 in Hs. apply in_map_iff in Hs as (p & <- & Hp).
  apply avg_rating_rated.
  destruct (recommendation_ids_items lower a u method top_n g ids Hok E p Hp)
    as [Hc _].
  apply get_user_item_matrix_inv in Ht as (rs & Hrs & _ & _ & Hcols & _).
  simpl in Hrs. injection Hrs as <-.
  rewrite Hcols in Hc. now apply (proj1 (sorted_labels_In _ _)) in Hc.
Qed.

Lemma recommendations_average_present_witness :
  exists out,
    (@app.recommendations insertion_sort)
         (fun s => s) (fun x => x) example_app 3 "item" 10 ""
    = inl out /\
    Forall (fun x => exists v, snd x = Some v) out.
Proof.
  destruct (route_total (QS := insertion_sort) (fun s => s) (fun x => x)
              example_app 3 "item" 10 ""
              example_app_ok) as (ids & out & _ & Hout).
  - simpl. auto.
  - intros i Hi. exact Hi.
  - exists out. split; [exact Hout|].
    apply (recommendations_average_present (QS := insertion_sort)
             (fun s => s) (fun x => x) example_app 3 "item" 10 "" out).
    + exact example_app_ok.
    + reflexivity.
    + exact Hout.
Defined.

(** ** app.py: the home page *)

Lemma StronglySorted_app_inv {A : Type} (P : A -> A -> Prop) (l1 l2 : list A) :
  StronglySorted P (l1 ++ l2) ->
  forall x y, In x l1 -> In y l2 -> P x y.
Proof.
  induction l1 as [|a l1 IH]; simpl; intros H x y Hx Hy; [easy|].
  inversion H as [|? ? Hs Hf]; subst. destruct Hx as [->|Hx].
  - rewrite Forall_forall in Hf. apply Hf, in_or_app. now right.
  - now apply IH.
Qed.

(** The rows that pass the filter of line 27. *)
Lemma popular_candidates (a : app.App) (i : Z) (v : R) :
  In (i, v)
     (map (fun x => (fst x, fst (snd x)))
        (filter (fun x => Nat.leb app.min_ratings (snd (snd x)))
           (app.ratings_summary a))) <->
  (app.min_ratings <= length (app.ratings_of a i))%nat /\
  v = mean (app.ratings_of a i).
Proof.
  unfold app.ratings_summary. split.
  - intros H. apply in_map_iff in H as ([j [w c]] & [= <- <-] & H).
    apply filter_In in H as [H Hc]. cbn [fst snd] in Hc.
    apply in_map_iff in H as (k & [= <- <- <-] & _).
    split; [now apply Nat.leb_le|reflexivity].
  - intros [Hc ->]. apply in_map_iff.
    exists (i, (mean (app.ratings_of a i), length (app.ratings_of a i))).
    split; [reflexivity|]. apply filter_In. split.
    + apply in_map_iff. exists i. split; [reflexivity|].
      apply sorted_labels_In. unfold app.ratings_of in Hc.
      rewrite length_map in Hc.
      destruct (filter _ (app.ratings a)) as [|r l] eqn:E;
        [unfold app.min_ratings in Hc; simpl in Hc; lia|].
      assert (In r (filter (fun r => Z.eqb (data_loader.movieId r) i)
                      (app.ratings a))) as Hr by (rewrite E; now left).
      apply filter_In in Hr as [Hr Hi]. apply in_map_iff. exists r.
      split; [lia|exact Hr].
    + cbn [fst snd]. now apply Nat.leb_le.
Qed.

Lemma popular_candidates_nodup (a : app.App) :
  NoDup (map fst
           (map (fun x => (fst x, fst (snd x)))
              (filter (fun x => Nat.leb app.min_ratings (snd (snd x)))
                 (app.ratings_summary a)))).
Proof.
  rewrite map_map. simpl. apply filter_map_NoDup.
  unfold app.ratings_summary. rewrite map_map. simpl. rewrite map_id.
  apply sorted_lt_nodup, sorted_labels_sorted.
Qed.

(** X23: the table of popular movies, for any rating file.  It has at most
    ten rows, one per movie and none twice; each row is a movie with at
    least fifty ratings together with the mean of its ratings; the means
    never increase down the table; and a movie with at least fifty ratings
    that is left out has a mean no greater than any shown, the table then
    being full. *)
Theorem popular_movies_top_ten {QS : Argsort} {QSOk : ArgsortOk QS}
    (a : app.App) :
  let rows := app.popular_movies_df a in
  (length rows <= 10)%nat /\
  NoDup (map fst rows) /\
  (forall p, In p rows ->
     (50 <= length (app.ratings_of a (fst p)))%nat /\
     snd p = mean (app.ratings_of a (fst p))) /\
  StronglySorted (fun p q => snd q <= snd p) rows /\
  (forall i, (50 <= length (app.ratings_of a i))%nat ->
     ~ In i (map fst rows) ->
     length rows = 10%nat /\
     forall p, In p rows -> mean (app.ratings_of a i) <= snd p).
Proof.
  intros rows. subst rows. unfold app.popular_movies_df.
  set (l := map _ (filter _ (app.ratings_summary a))).
  change (head 10 (sort_values_desc l))
    with (firstn 10 (sort_values_desc l)).
  pose proof (sort_values_desc_perm l) as Hperm.
  pose proof (sort_values_desc_ge l) as Hsorted.
  split; [apply firstn_le_length|]. split; [|split; [|split]].
  - rewrite <- firstn_map. apply firstn_nodup.
    apply (Permutation_NoDup (Permutation_map fst (Permutation_sym Hperm))).
    apply popular_candidates_nodup.
  - intros [i v] Hp. simpl.
    apply (popular_candidates a i v). apply (Permutation_in _ Hperm).
    rewrite <- (firstn_skipn 10 (sort_values_desc l)).
    apply in_or_app. now left.
  - now apply StronglySorted_firstn.
  - intros i Hi Hout.
    assert (In (i, mean (app.ratings_of a i)) (sort_values_desc l)) as Hin.
    { apply (Permutation_in _ (Permutation_sym Hperm)).
      now apply (popular_candidates a i _). }
    rewrite <- (firstn_skipn 10 (sort_values_desc l)) in Hin, Hsorted.
    apply in_app_or in Hin as [Hin|Hin];
      [exfalso; apply Hout; now apply (in_map fst) in Hin|].
    split.
    + rewrite length_firstn. apply Nat.min_l.
      destruct (Nat.le_gt_cases 10 (length (sort_values_desc l)))
        as [Hle|Hlt]; [exact Hle|].
      rewrite skipn_all2 in Hin by lia. destruct Hin.
    + intros p Hp.
      exact (StronglySorted_app_inv _ _ _ Hsorted p _ Hp Hin).
Qed.

Lemma popular_movies_top_ten_witness :
  let rows := @app.popular_movies_df insertion_sort popular_app in
  (length rows <= 10)%nat /\
  NoDup (map fst rows) /\
  (forall p, In p rows ->
     (50 <= length (app.ratings_of popular_app (fst p)))%nat /\
     snd p = mean (app.ratings_of popular_app (fst p))) /\
  StronglySorted (fun p q => snd q <= snd p) rows /\
  (forall i, (50 <= length (app.ratings_of popular_app i))%nat ->
     ~ In i (map fst rows) ->
     length rows = 10%nat /\
     forall p, In p rows -> mean (app.ratings_of popular_app i) <= snd p).
Proof.
  apply (@popular_movies_top_ten insertion_sort insertion_sort_ok popular_app).
Defined.

Lemma popular_titled_inv (round2 : R -> R) (a : app.App) (rows : Series)
    (out : list (string * R)) :
  app.popular_titled round2 a rows = inl out ->
  Forall2 (fun x p => (exists m, app.movie_row a (fst p) = inl m /\
                                 fst x = app.title m) /\
                      snd x = round2 (snd p)) out rows.
Proof.
  revert out. induction rows as [|q rest IH]; simpl; intros out.
  - intros [= <-]. constructor.
  - destruct (app.movie_row a (fst q)) as [m|e] eqn:E; simpl; [|discriminate].
    destruct (app.popular_titled round2 a rest) as [rest'|e] eqn:E2; simpl;
      [|discriminate].
    intros [= <-]. constructor; [eauto|now apply IH].
Qed.

Lemma popular_titled_total (round2 : R -> R) (a : app.App) (rows : Series) :
  (forall p, In p rows -> In (fst p) (map app.movieId (app.movies a))) ->
  exists out, app.popular_titled round2 a rows = inl out.
Proof.
  induction rows as [|q rest IH]; simpl; intros H; [eauto|].
  destruct (movie_row_listed a (fst q) (H q (or_introl eq_refl))) as [m ->].
  simpl. destruct IH as [out ->]; [intros p Hp; apply H; now right|].
  simpl. eauto.
Qed.

Lemma popular_titled_fails (round2 : R -> R) (a : app.App) (rows : Series)
    (p : Z * R) :
  In p rows -> ~ In (fst p) (map app.movieId (app.movies a)) ->
  app.popular_titled round2 a rows = inr app.IndexError.
Proof.
  induction rows as [|q rest IH]; simpl; intros Hin Hno; [easy|].
  destruct (app.movie_row a (fst q)) as [m|e'] eqn:E; simpl.
  - destruct Hin as [->|Hin];
      [rewrite (movie_row_unlisted _ _ Hno) in E; discriminate|].
    now rewrite (IH Hin Hno).
  - now rewrite (movie_row_error _ _ _ E).
Qed.

Lemma fold_max_spec (l : list Z) (u : Z) :
  In (fold_left Z.max l u) (u :: l) /\
  forall v, In v (u :: l) -> (v <= fold_left Z.max l u)%Z.
Proof.
  revert u. induction l as [|x l IH]; intros u; simpl.
  - split; [now left|]. intros v [<-|[]]. lia.
  - destruct (IH (Z.max u x)) as [Hin Hmax]. split.
    + destruct Hin as [Hin|Hin]; [|now right; right].
      destruct (Z.max_spec u x) as [[_ E]|[_ E]]; rewrite E in *; auto.
    + intros v [<-|[<-|Hv]].
      * specialize (Hmax (Z.max u x) (or_introl eq_refl)). lia.
      * specialize (Hmax (Z.max u x) (or_introl eq_refl)). lia.
      * apply Hmax. now right.
Qed.

(** X24: the home page.  It answers exactly when the table has a user and
    [movies] lists each of the popular movies; a popular movie without a
    row gives [IndexError], and with all rows present an empty table gives
    [ValueError].  The answer carries the largest user id of the table
    and, row by row of the popular table, the title of the movie's first
    [movies] row with its rounded mean. *)
Theorem home_response {QS : Argsort} (round2 : R -> R) (a : app.App) :
  ((forall p, In p (app.popular_movies_df a) ->
      In (fst p) (map app.movieId (app.movies a))) ->
   index (app.user_item_matrix a) <> [] ->
   exists m popular,
     app.home round2 a = inl (m, popular) /\
     In m (index (app.user_item_matrix a)) /\
     (forall u, In u (index (app.user_item_matrix a)) -> (u <= m)%Z) /\
     Forall2 (fun x p => (exists mv, app.movie_row a (fst p) = inl mv /\
                                     fst x = app.title mv) /\
                         snd x = round2 (snd p))
       popular (app.popular_movies_df a)) /\
  (forall p, In p (app.popular_movies_df a) ->
     ~ In (fst p) (map app.movieId (app.movies a)) ->
     app.home round2 a = inr app.IndexError) /\
  ((forall p, In p (app.popular_movies_df a) ->
      In (fst p) (map app.movieId (app.movies a))) ->
   index (app.user_item_matrix a) = [] ->
   app.home round2 a = inr (app.Engine ValueError)).
Proof.
  unfold app.home, app.max_user. split; [|split].
  - intros Hrows Hidx.
    destruct (popular_titled_total round2 a _ Hrows) as [out Hout].
    rewrite Hout. simpl.
    destruct (index (app.user_item_matrix a)) as [|u l]; [easy|].
    destruct (fold_max_spec l u) as [Hin Hmax].
    exists (fold_left Z.max l u), out. simpl.
    split; [reflexivity|]. split; [exact Hin|]. split; [exact Hmax|].
    now apply popular_titled_inv.
  - intros p Hp Hno.
    now rewrite (popular_titled_fails round2 a _ p Hp Hno).
  - intros Hrows Hidx.
    destruct (popular_titled_total round2 a _ Hrows) as [out ->].
    simpl. now rewrite Hidx.
Qed.

Lemma popular_rated {QS : Argsort} {QSOk : ArgsortOk QS}
    (a : app.App) (p : Z * R) :
  In p (app.popular_movies_df a) ->
  In (fst p) (sorted_labels (map data_loader.movieId (app.ratings a))).
Proof.
  intros Hp. apply head_In in Hp.
  apply (Permutation_in _ (sort_values_desc_perm _)) in Hp.
  apply in_map_iff in Hp as ([j [w c]] & <- & H).
  apply filter_In in H as [H _]. unfold app.ratings_summary in H.
  apply in_map_iff in H as (k & [= <- _ _] & H). exact H.
Qed.

Lemma home_response_witness :
  exists m popular,
    (@app.home insertion_sort) (fun x => x) popular_app = inl (m, popular) /\
    In m (index (app.user_item_matrix popular_app)) /\
    (forall u, In u (index (app.user_item_matrix popular_app)) -> (u <= m)%Z) /\
    Forall2 (fun x p => (exists mv, app.movie_row popular_app (fst p) = inl mv /\
                                    fst x = app.title mv) /\
                        snd x = snd p)
      popular ((@app.popular_movies_df insertion_sort) popular_app).
Proof.
  apply (home_response (fun x => x) popular_app).
  - intros p Hp. apply popular_rated in Hp. exact Hp.
  - vm_compute. discriminate.
Defined.
